(** * YouTubeFilters: the extraction-and-filtering pipeline

    A shallow embedding of the quantity parsers, the field extractor, the
    filter predicates, the scan engine and the settings sanitiser of the
    extension, in both structural variants present in the repository:

    - the monolithic content script ([content.js]), module [Content];
    - the modular reorganisation ([src/utils/utils.js],
      [src/core/extractor.js], [src/core/settings-manager.js],
      [src/content/dom-manager.js], the filter-functions module and the
      filter-engine module), module [Modular].

    Conventions of the model.

    - A JavaScript string is the list of its UTF-16 code units ([list N]).
    - A JavaScript number is [NaN], an infinity, or a finite value carried
      as an exact rational kept in lowest terms; arithmetic on finite
      values is exact, and [-0] is identified with [0].  The numbers of
      the source are binary64 values: the two agree as long as every
      value met is one that binary64 holds exactly, as every integer up
      to 2^53 is, and part company where the source rounds or overflows
      to [Infinity].  A statement that gives the value of a computation
      says in its hypotheses that the values stay in that range.
    - [String.prototype.toLowerCase] is modelled on the code units up to
      U+00FF, where it acts unit by unit; a statement that depends on
      the case of letters says that its strings stay in that range.
    - [chrome.storage] answers asynchronously: a callback runs after the
      synchronous code that made its request has run to its end.
    - Regular expressions are written as syntax trees and run by a
      backtracking matcher with the priorities of the ECMAScript
      semantics (leftmost start, greedy quantifiers, ordered
      alternation). *)

From Stdlib Require Import ZArith QArith Qround Qreduction Qcanon Lia Bool.
From Stdlib Require Import Strings.String Strings.Ascii.
From stdpp Require Import gmap strings list.

Set Default Proof Using "Type".
Set Warnings "-register-all".

(* ------------------------------------------------------------------ *)
(** ** Strings as lists of code units *)
(* ------------------------------------------------------------------ *)

Definition jsstring : Type := list N.

(** [js "abc"] is the JavaScript string literal ["abc"]. *)
Definition js (s : string) : jsstring :=
  map N_of_ascii (list_ascii_of_string s).

(** The code unit of a one-character literal. *)
Definition cu (a : ascii) : N := N_of_ascii a.

Definition jsstring_eqb (a b : jsstring) : bool := bool_decide (a = b).

(** WhiteSpace and LineTerminator code units: what [String.prototype.trim],
    the [\s] class, [parseInt] and [parseFloat] skip. *)
Definition isWhiteSpace (c : N) : bool :=
  ((9 <=? c) && (c <=? 13) || (c =? 32) || (c =? 160) || (c =? 5760)
   || (8192 <=? c) && (c <=? 8202) || (c =? 8232) || (c =? 8233)
   || (c =? 8239) || (c =? 8287) || (c =? 12288) || (c =? 65279))%N.

Definition isDigit (c : N) : bool := ((48 <=? c) && (c <=? 57))%N.

Definition isUpperAscii (c : N) : bool := ((65 <=? c) && (c <=? 90))%N.
Definition isLowerAscii (c : N) : bool := ((97 <=? c) && (c <=? 122))%N.

(** Upper-case Latin-1 letters other than ASCII: U+00C0..U+00DE without
    the multiplication sign U+00D7. *)
Definition isUpperLatin1 (c : N) : bool :=
  ((192 <=? c) && (c <=? 222) && negb (c =? 215))%N.

(** [String.prototype.toLowerCase], one code unit at a time.  The case
    table is the one of the ASCII and Latin-1 ranges; code units above
    U+00FF are left as they are. *)
Definition lowerUnit (c : N) : N :=
  if isUpperAscii c || isUpperLatin1 c then (c + 32)%N else c.

Definition toLowerCase (s : jsstring) : jsstring := map lowerUnit s.

(** [String.prototype.toUpperCase] on the ASCII range; the source applies
    it to the suffix group of the view-count pattern only, which is empty
    or one ASCII letter. *)
Definition upperUnit (c : N) : N :=
  if isLowerAscii c then (c - 32)%N else c.

Definition toUpperCase (s : jsstring) : jsstring := map upperUnit s.

Fixpoint trimStart (s : jsstring) : jsstring :=
  match s with
  | c :: s' => if isWhiteSpace c then trimStart s' else s
  | [] => []
  end.

Definition trimEnd (s : jsstring) : jsstring := rev (trimStart (rev s)).

Definition trim (s : jsstring) : jsstring := trimEnd (trimStart s).

(** Longest prefix of code units satisfying [p], and the rest. *)
Fixpoint span (p : N -> bool) (s : jsstring) : jsstring * jsstring :=
  match s with
  | c :: s' =>
      if p c then let '(a, b) := span p s' in (c :: a, b) else ([], s)
  | [] => ([], [])
  end.

(** [s.startsWith(p)], with the rest of [s] after the prefix. *)
Fixpoint stripPrefix (p s : jsstring) : option jsstring :=
  match p, s with
  | [], _ => Some s
  | a :: p', b :: s' => if (a =? b)%N then stripPrefix p' s' else None
  | _ :: _, [] => None
  end.

(** [s.includes(t)]. *)
Fixpoint includes (s t : jsstring) : bool :=
  match stripPrefix t s with
  | Some _ => true
  | None => match s with
            | [] => false
            | _ :: s' => includes s' t
            end
  end.

(** [s.split(sep)] for a one-unit separator: never empty. *)
Fixpoint split (sep : N) (s : jsstring) : list jsstring :=
  match s with
  | [] => [[]]
  | c :: s' =>
      if (c =? sep)%N then [] :: split sep s'
      else match split sep s' with
           | p :: ps => (c :: p) :: ps
           | [] => [[c]]
           end
  end.

(* ------------------------------------------------------------------ *)
(** ** Numbers *)
(* ------------------------------------------------------------------ *)

Inductive number : Type :=
| NaN
| PosInf
| NegInf
| Fin (q : Q).

(** Finite values are stored in lowest terms. *)
Definition fin (q : Q) : number := Fin (Qred q).

Definition ofZ (z : Z) : number := Fin (inject_Z z).

Definition Qsign (q : Q) : Z := Z.sgn (Qnum q).

Definition num_mul (a b : number) : number :=
  match a, b with
  | NaN, _ | _, NaN => NaN
  | Fin x, Fin y => fin (x * y)
  | Fin x, PosInf | PosInf, Fin x =>
      match Qsign x with 0%Z => NaN | Zpos _ => PosInf | Zneg _ => NegInf end
  | Fin x, NegInf | NegInf, Fin x =>
      match Qsign x with 0%Z => NaN | Zpos _ => NegInf | Zneg _ => PosInf end
  | PosInf, PosInf | NegInf, NegInf => PosInf
  | PosInf, NegInf | NegInf, PosInf => NegInf
  end.

Definition num_add (a b : number) : number :=
  match a, b with
  | NaN, _ | _, NaN => NaN
  | Fin x, Fin y => fin (x + y)
  | PosInf, NegInf | NegInf, PosInf => NaN
  | PosInf, _ | _, PosInf => PosInf
  | NegInf, _ | _, NegInf => NegInf
  end.

(** [a < b]; false as soon as one side is [NaN]. *)
Definition num_lt (a b : number) : bool :=
  match a, b with
  | NaN, _ | _, NaN => false
  | Fin x, Fin y => negb (Qle_bool y x)
  | NegInf, NegInf => false
  | NegInf, _ => true
  | _, NegInf => false
  | PosInf, _ => false
  | Fin _, PosInf => true
  end.

(** [a <= b]; false as soon as one side is [NaN]. *)
Definition num_le (a b : number) : bool :=
  match a, b with
  | NaN, _ | _, NaN => false
  | Fin x, Fin y => Qle_bool x y
  | NegInf, _ => true
  | _, PosInf => true
  | PosInf, _ => false
  | Fin _, NegInf => false
  end.

Definition num_gt (a b : number) : bool := num_lt b a.
Definition num_ge (a b : number) : bool := num_le b a.

Definition isNaN (a : number) : bool :=
  match a with NaN => true | _ => false end.

(** [Math.floor]. *)
Definition Math_floor (a : number) : number :=
  match a with
  | Fin x => ofZ (Qfloor x)
  | _ => a
  end.

(** ToBoolean on a number: [0] and [NaN] are falsy. *)
Definition num_truthy (a : number) : bool :=
  match a with
  | NaN => false
  | Fin x => negb (Qeq_bool x 0)
  | _ => true
  end.

Infix "*n" := num_mul (at level 40, left associativity).
Infix "+n" := num_add (at level 50, left associativity).
Infix "<n" := num_lt (at level 70, no associativity).
Infix "<=n" := num_le (at level 70, no associativity).
Infix ">n" := num_gt (at level 70, no associativity).
Infix ">=n" := num_ge (at level 70, no associativity).

(** The value of a run of decimal digits, most significant first. *)
Definition digitsValue (ds : jsstring) : Z :=
  fold_left (fun acc d => (acc * 10 + Z.of_N (d - 48))%Z) ds 0%Z.

(** An optional sign: [true] for a leading minus. *)
Definition takeSign (s : jsstring) : bool * jsstring :=
  match s with
  | 43%N :: u => (false, u)
  | 45%N :: u => (true, u)
  | _ => (false, s)
  end.

Definition signed (neg : bool) (z : Z) : Z := if neg then (- z)%Z else z.

Definition isHexDigit (c : N) : bool :=
  (isDigit c || (65 <=? c) && (c <=? 70) || (97 <=? c) && (c <=? 102))%N.

Definition hexVal (c : N) : Z :=
  if isDigit c then Z.of_N (c - 48)
  else if (c <=? 70)%N then Z.of_N (c - 55) else Z.of_N (c - 87).

Definition hexValue (ds : jsstring) : Z :=
  fold_left (fun acc d => (acc * 16 + hexVal d)%Z) ds 0%Z.

(** [parseInt(s, 10)]: leading white space, an optional sign, then the
    longest run of decimal digits; [NaN] when that run is empty. *)
Definition parseInt10 (s : jsstring) : number :=
  let '(neg, u) := takeSign (trimStart s) in
  let '(ds, _) := span isDigit u in
  match ds with
  | [] => NaN
  | _ => ofZ (signed neg (digitsValue ds))
  end.

(** [parseInt(s)] without a radix: as above, except that a [0x] or [0X]
    prefix selects radix 16. *)
Definition parseInt (s : jsstring) : number :=
  let '(neg, u) := takeSign (trimStart s) in
  match u with
  | 48%N :: x :: h =>
      if ((x =? 120) || (x =? 88))%N then
        let '(ds, _) := span isHexDigit h in
        match ds with
        | [] => NaN
        | _ => ofZ (signed neg (hexValue ds))
        end
      else parseInt10 s
  | _ => parseInt10 s
  end.

(** The exponent part of a decimal literal, if a complete one is there. *)
Definition exponentPart (s : jsstring) : Z :=
  match s with
  | e :: r =>
      if ((e =? 101) || (e =? 69))%N then
        let '(neg, r') := takeSign r in
        let '(ds, _) := span isDigit r' in
        match ds with
        | [] => 0%Z
        | _ => signed neg (digitsValue ds)
        end
      else 0%Z
  | [] => 0%Z
  end.

(** [parseFloat(s)]: leading white space, then the longest prefix that is
    a StrDecimalLiteral: an optional sign followed by [Infinity], or by
    digits with an optional fraction, or by a fraction alone, each with an
    optional exponent; [NaN] when there is no such prefix. *)
Definition parseFloat (s : jsstring) : number :=
  let '(neg, u) := takeSign (trimStart s) in
  match stripPrefix (js "Infinity") u with
  | Some _ => if neg then NegInf else PosInf
  | None =>
      let '(ip, r1) := span isDigit u in
      let '(fp, r2) :=
        match r1 with
        | 46%N :: r => span isDigit r
        | _ => ([], r1)
        end in
      match ip, fp with
      | [], [] => NaN
      | _, _ =>
          let m := (inject_Z (digitsValue ip)
                    + inject_Z (digitsValue fp)
                      / inject_Z (10 ^ Z.of_nat (length fp)))%Q in
          let v := (m * Qpower 10 (exponentPart r2))%Q in
          fin (if neg then - v else v)
      end
  end.

(* ------------------------------------------------------------------ *)
(** ** Regular expressions *)
(* ------------------------------------------------------------------ *)

Inductive regex : Type :=
| Eps                          (* the empty pattern *)
| Chr (p : N -> bool)          (* one code unit of a class *)
| Seq (a b : regex)            (* ab *)
| Alt (a b : regex)            (* a|b, left first *)
| Star (a : regex)             (* a*, greedy *)
| Grp (g : nat) (a : regex)    (* capture group number g *)
| Bol.                         (* ^ *)

Definition Plus (a : regex) : regex := Seq a (Star a).
Definition Opt (a : regex) : regex := Alt a Eps.

(** A literal character under the [i] flag.  For an ASCII pattern
    character the canonicalisation of the [i] flag identifies exactly its
    two ASCII cases. *)
Definition chr_i (a : ascii) : regex :=
  Chr (fun c => (upperUnit c =? upperUnit (cu a))%N).

(** A literal character, case-sensitive. *)
Definition chr (a : ascii) : regex := Chr (fun c => (c =? cu a)%N).

(** A literal word under the [i] flag. *)
Fixpoint str_i (s : string) : regex :=
  match s with
  | EmptyString => Eps
  | String a EmptyString => chr_i a
  | String a s' => Seq (chr_i a) (str_i s')
  end.

Definition digit : regex := Chr isDigit.   (* \d *)
Definition space : regex := Chr isWhiteSpace.   (* \s *)

Declare Scope regex_scope.
Delimit Scope regex_scope with re.
Bind Scope regex_scope with regex.
Infix "·" := Seq (at level 41, right associativity) : regex_scope.

(** Captures: the most recent binding of a group comes first. *)
Definition captures : Type := list (nat * jsstring).

Fixpoint capture (g : nat) (c : captures) : option jsstring :=
  match c with
  | [] => None
  | (h, s) :: c' => if (h =? g)%nat then Some s else capture g c'
  end.

Section Matcher.
Context {R : Type}.

(** [a*]: up to [fuel] rounds of [body], most rounds first; a round
    that consumes nothing is refused, as the ECMAScript semantics does.
    Each round consumes at least one unit, so the length of the input
    left is fuel enough (lemma [starLoop_fuel]). *)
Fixpoint starLoop
    (body : nat -> jsstring -> captures ->
            (nat -> jsstring -> captures -> option R) -> option R)
    (k : nat -> jsstring -> captures -> option R)
    (fuel : nat) (i : nat) (s : jsstring) (c : captures) : option R :=
  match fuel with
  | O => k i s c
  | S fuel' =>
      match body i s c
              (fun i' s' c' =>
                 if (i <? i')%nat then starLoop body k fuel' i' s' c'
                 else None)
      with
      | Some res => Some res
      | None => k i s c
      end
  end.

(** [run r i s c k]: match [r] at offset [i], where [s] is the input
    from [i] on and [c] the captures so far; [k] continues after the
    match and may fail, which makes [run] try its next alternative. *)
Fixpoint run (r : regex) (i : nat) (s : jsstring) (c : captures)
    (k : nat -> jsstring -> captures -> option R) {struct r} : option R :=
  match r with
  | Eps => k i s c
  | Chr p =>
      match s with
      | x :: s' => if p x then k (S i) s' c else None
      | [] => None
      end
  | Seq a b => run a i s c (fun i' s' c' => run b i' s' c' k)
  | Alt a b =>
      match run a i s c k with
      | Some res => Some res
      | None => run b i s c k
      end
  | Star a => starLoop (run a) k (length s) i s c
  | Grp g a =>
      run a i s c (fun i' s' c' => k i' s' ((g, take (i' - i) s) :: c'))
  | Bol => if (i =? 0)%nat then k i s c else None
  end.
End Matcher.

(** The result of [String.prototype.match] with a non-global pattern. *)
Record regmatch : Type := RegMatch {
  m_index : nat;           (* match.index *)
  m_text : jsstring;       (* match[0] *)
  m_caps : captures;       (* match[1], match[2], ... *)
}.

Definition group (g : nat) (m : regmatch) : option jsstring :=
  capture g (m_caps m).

(** Try the start offsets from [i] on, leftmost first. *)
Fixpoint search (r : regex) (i : nat) (s : jsstring) : option regmatch :=
  match run r i s [] (fun i' _ c' => Some (i', c')) with
  | Some (e, c) => Some (RegMatch i (take (e - i) s) c)
  | None =>
      match s with
      | [] => None
      | _ :: s' => search r (S i) s'
      end
  end.

(** [s.match(r)] for a pattern without the [g] flag. *)
Definition matchRe (s : jsstring) (r : regex) : option regmatch :=
  search r 0 s.

(** [s.replace(r, "")] for a pattern without the [g] flag: the first
    match is cut out. *)
Definition removeFirst (s : jsstring) (r : regex) : jsstring :=
  match matchRe s r with
  | Some m => take (m_index m) s ++ drop (m_index m + length (m_text m)) s
  | None => s
  end.

(** [s.replace(/,/g, "")]. *)
Definition removeCommas (s : jsstring) : jsstring :=
  List.filter (fun c => negb (c =? 44)%N) s.

(* ------------------------------------------------------------------ *)
(** ** JavaScript values and completions *)
(* ------------------------------------------------------------------ *)

Inductive value : Type :=
| VUndefined
| VNull
| VBool (b : bool)
| VNumber (n : number)
| VString (s : jsstring)
| VArray (l : list value)
| VObject (o : list (string * value)).

(** ToBoolean. *)
Definition truthy (v : value) : bool :=
  match v with
  | VUndefined | VNull => false
  | VBool b => b
  | VNumber n => num_truthy n
  | VString s => match s with [] => false | _ => true end
  | VArray _ | VObject _ => true
  end.

Inductive completion (A : Type) : Type :=
| Normal (a : A)
| ThrowTypeError.
Arguments Normal {A} a.
Arguments ThrowTypeError {A}.

(** A string-valued field that may be [null]: [None] is [null] (or
    [undefined], which the code never tells apart from it). *)
Definition textValue (o : option jsstring) : value :=
  match o with
  | Some s => VString s
  | None => VNull
  end.

(** [a || b] on such fields: the first operand when truthy, else the
    second. *)
Definition orElse (a b : option jsstring) : option jsstring :=
  if truthy (textValue a) then a else b.

(* ------------------------------------------------------------------ *)
(** ** Quantity parsers ([content.js] section 1, [src/utils/utils.js]) *)
(* ------------------------------------------------------------------ *)

Module Parsers.

(** [/views?/i] *)
Definition re_views : regex := (str_i "view" · Opt (chr_i "s"))%re.

(** [/([\d\.]+)\s*([KMB]?)/i] *)
Definition re_count : regex :=
  (Grp 1 (Plus (Chr (fun c => isDigit c || (c =? 46)%N)))
   · Star space
   · Grp 2 (Opt (Alt (chr_i "K") (Alt (chr_i "M") (chr_i "B")))))%re.

(** [parseFloat(match[g])] and [parseInt(match[g])]: a group that did
    not take part is [undefined], which both read as ["undefined"] and
    answer with [NaN]. *)
Definition parseFloatGroup (g : nat) (m : regmatch) : number :=
  match group g m with
  | Some t => parseFloat t
  | None => NaN
  end.

Definition parseIntGroup (g : nat) (m : regmatch) : number :=
  match group g m with
  | Some t => parseInt t
  | None => NaN
  end.

(** [parseViewCount(text)].  A falsy argument gives [0] at the first
    line.  Past it the argument is truthy, and [text.replace] is a
    TypeError unless it is a string (no other value of the model
    carries the method); so is [match[2].toUpperCase()] should group 2
    be [undefined]. *)
Definition parseViewCount (text : value) : completion number :=
  if negb (truthy text) then Normal (ofZ 0)
  else
    match text with
    | VString text =>
        let cleaned := trim (removeCommas (removeFirst text re_views)) in
        match matchRe cleaned re_count with
        | Some m =>
            let number := parseFloatGroup 1 m in
            match group 2 m with
            | None => ThrowTypeError
            | Some m2 =>
                let suffix := toUpperCase m2 in
                if jsstring_eqb suffix (js "K") then
                  Normal (number *n ofZ 1000)
                else if jsstring_eqb suffix (js "M") then
                  Normal (number *n ofZ 1000000)
                else if jsstring_eqb suffix (js "B") then
                  Normal (number *n ofZ 1000000000)
                else Normal number
            end
        | None =>
            let directNumber := parseFloat cleaned in
            Normal (if isNaN directNumber then ofZ 0 else directNumber)
        end
    | _ => ThrowTypeError
    end.

(** [/(\d+)\s*h(our)?s?/i], [/(\d+)\s*m(in(ute)?)?s?/i] and
    [/(\d+)\s*s(ec(ond)?)?s?/i] *)
Definition re_hour : regex :=
  (Grp 1 (Plus digit) · Star space · chr_i "h"
   · Opt (Grp 2 (str_i "our")) · Opt (chr_i "s"))%re.
Definition re_min : regex :=
  (Grp 1 (Plus digit) · Star space · chr_i "m"
   · Opt (Grp 2 (str_i "in" · Opt (Grp 3 (str_i "ute"))))
   · Opt (chr_i "s"))%re.
Definition re_sec : regex :=
  (Grp 1 (Plus digit) · Star space · chr_i "s"
   · Opt (Grp 2 (str_i "ec" · Opt (Grp 3 (str_i "ond"))))
   · Opt (chr_i "s"))%re.

(** The text format of [parseDuration] ("1 hour 23 minutes"). *)
Definition parseDurationText (cleaned : jsstring) : number :=
  let totalSeconds := ofZ 0 in
  let hourMatch := matchRe cleaned re_hour in
  let minMatch := matchRe cleaned re_min in
  let secMatch := matchRe cleaned re_sec in
  let totalSeconds :=
    match hourMatch with
    | Some hourMatch => totalSeconds +n parseIntGroup 1 hourMatch *n ofZ 3600
    | None => totalSeconds
    end in
  let totalSeconds :=
    match minMatch with
    | Some minMatch => totalSeconds +n parseIntGroup 1 minMatch *n ofZ 60
    | None => totalSeconds
    end in
  let totalSeconds :=
    match secMatch with
    | Some secMatch => totalSeconds +n parseIntGroup 1 secMatch
    | None => totalSeconds
    end in
  totalSeconds.

(** [cleaned.split(":").map((part) => parseInt(part.trim(), 10))] *)
Definition colonParts (cleaned : jsstring) : list number :=
  map (fun part => parseInt10 (trim part)) (split (cu ":") cleaned).

(** [parseDuration(text)]; [text.trim] is a TypeError on a truthy
    argument that is not a string. *)
Definition parseDuration (text : value) : completion number :=
  if negb (truthy text) then Normal (ofZ 0)
  else
    match text with
    | VString text =>
        let cleaned := trim text in
        if includes cleaned (js ":") then
          let parts := colonParts cleaned in
          if existsb isNaN parts then Normal (ofZ 0)
          else
            match parts with
            | [p0; p1] => Normal (p0 *n ofZ 60 +n p1)
            | [p0; p1; p2] =>
                Normal (p0 *n ofZ 3600 +n p1 *n ofZ 60 +n p2)
            | _ => Normal (parseDurationText cleaned)
            end
        else Normal (parseDurationText cleaned)
    | _ => ThrowTypeError
    end.

(** [/(\d+)\s+year/i] *)
Definition re_year : regex :=
  (Grp 1 (Plus digit) · Plus space · str_i "year")%re.

(** [parseVideoAge(text)]; [text.match] is a TypeError on a truthy
    argument that is not a string. *)
Definition parseVideoAge (text : value) : completion number :=
  if negb (truthy text) then Normal (ofZ 0)
  else
    match text with
    | VString text =>
        match matchRe text re_year with
        | Some m => Normal (parseIntGroup 1 m)
        | None => Normal (ofZ 0)
        end
    | _ => ThrowTypeError
    end.

(** The number a call evaluates to.  The parsers never throw on a
    string (lemmas [parseViewCount_string_normal] and the like below),
    which is all the filter predicates hand them. *)
Definition returned (c : completion number) : number :=
  match c with
  | Normal n => n
  | ThrowTypeError => NaN
  end.

End Parsers.

Import Parsers.

(* ------------------------------------------------------------------ *)
(** ** The page: nodes, item containers, records, decisions *)
(* ------------------------------------------------------------------ *)

(** A descendant node, as far as the extractor reads it. *)
Record node : Type := Node {
  textContent : option jsstring;
  nodeInnerText : option jsstring;
  getAttribute : string -> option jsstring;
}.

(** An item container (video card).  [attributes] and [styleDisplay] are
    what the scan engine writes; [querySelector] and [innerText] are the
    content region, which the engine only reads. *)
Record element : Type := Element {
  attributes : gmap string jsstring;
  styleDisplay : jsstring;
  querySelector : string -> option node;
  innerText : option jsstring;
}.

Definition hasAttribute (el : element) (name : string) : bool :=
  bool_decide (is_Some (attributes el !! name)).

Definition setAttribute (name : string) (v : jsstring) (el : element)
  : element :=
  Element (<[name := v]> (attributes el)) (styleDisplay el)
          (querySelector el) (innerText el).

Definition setDisplay (v : jsstring) (el : element) : element :=
  Element (attributes el) v (querySelector el) (innerText el).

(** The normalized video record. *)
Record videoData : Type := VideoData {
  title : option jsstring;
  viewCount : option jsstring;
  duration : option jsstring;
  publishTime : option jsstring;
  videoId : option jsstring;
}.

(** The [details] template strings, kept as the template and the values
    spliced into it. *)
Inductive details : Type :=
| NoViewCount
    (* "No view count (likely Mix/Playlist)" *)
| LowViews (text : jsstring) (views : number)
    (* `Low views: ${viewCount} (${views})` *)
| DurationOutside (text : jsstring) (seconds lo : number) (hi : option number)
    (* `Duration: ${duration} (${seconds}s) outside range [${lo}, ${hi}]`,
       [hi = None] for the infinity sign *)
| TooOld (text : jsstring) (years : number)
    (* `Too old: ${publishTime} (${years} years)` *)
| BannedKeyword (keyword : jsstring).
    (* `Banned keyword: "${keyword}"` *)

(** A filter result; [{ shouldFilter: false }] has neither reason nor
    details. *)
Record filterResult : Type := FilterResult {
  shouldFilter : bool;
  reason : option string;
  details_of : option details;
}.

Definition pass : filterResult := FilterResult false None None.

Definition filterOut (r : string) (d : details) : filterResult :=
  FilterResult true (Some r) (Some d).

(** [toISOString()] of the date with time value [t] (milliseconds since
    the epoch): an ISO-8601 string by construction. *)
Inductive isoString : Type := ISOString (t : Z).

(** One entry of the filtered-videos log. *)
Record historyEntry : Type := HistoryEntry {
  h_title : jsstring;
  h_reason : option details;
  h_timestamp : isoString;
}.

(** Reading a counter of a statistics object: a missing key reads
    [undefined], which arithmetic turns into [NaN]. *)
Definition counter (stats : gmap string number) (key : string) : number :=
  default NaN (stats !! key).

(** [stats[key]++] *)
Definition increment (key : string) (stats : gmap string number)
  : gmap string number :=
  <[key := counter stats key +n ofZ 1]> stats.

(** The property name [obj[r]] uses for a reason that may be missing. *)
Definition propertyKey (r : option string) : string :=
  default "undefined"%string r.

(* ------------------------------------------------------------------ *)
(** ** Field extraction: the patterns shared by both extractors *)
(* ------------------------------------------------------------------ *)

Module Patterns.

(** [/^\d+:\d+/] and [/\d+:\d+/] *)
Definition re_clock : regex := (Plus digit · chr ":" · Plus digit)%re.
Definition re_clock_prefix : regex := (Bol · re_clock)%re.

(** [/(\d+(?:\.\d+)?[KMB]?)\s*views?/i] *)
Definition re_viewCount : regex :=
  (Grp 1 (Plus digit · Opt (chr "." · Plus digit)
          · Opt (Alt (chr_i "K") (Alt (chr_i "M") (chr_i "B"))))
   · Star space · str_i "view" · Opt (chr_i "s"))%re.

(** [/No views?/i] *)
Definition re_noViews : regex := (str_i "No view" · Opt (chr_i "s"))%re.

(** [second|minute|hour|day|week|month|year] *)
Definition re_unit : regex :=
  Alt (str_i "second") (Alt (str_i "minute") (Alt (str_i "hour")
    (Alt (str_i "day") (Alt (str_i "week") (Alt (str_i "month")
      (str_i "year")))))).

(** [/(\d+)\s*(second|...|year)s?\s*ago/i] *)
Definition re_ago : regex :=
  (Grp 1 (Plus digit) · Star space · Grp 2 re_unit · Opt (chr_i "s")
   · Star space · str_i "ago")%re.

(** [/streamed\s+(\d+)\s*(second|...|year)s?\s*ago/i] *)
Definition re_streamedTest : regex :=
  (str_i "streamed" · Plus space · re_ago)%re.

(** [/streamed\s+(\d+\s*(?:second|...|year)s?\s*ago)/i] *)
Definition re_streamed : regex :=
  (str_i "streamed" · Plus space
   · Grp 1 (Plus digit · Star space · re_unit · Opt (chr_i "s")
            · Star space · str_i "ago"))%re.

Definition durationSelectors : list string :=
  [ "badge-shape .yt-badge-shape__text";
    "badge-shape div";
    ".yt-badge-shape__text";
    "yt-thumbnail-badge-view-model";
    "ytd-thumbnail-overlay-time-status-renderer span";
    "span.ytd-thumbnail-overlay-time-status-renderer";
    "#time-status span";
    ".badge-style-type-simple" ]%string.

Definition titleSelectors : list string :=
  [ "#video-title";
    "a#video-title-link";
    "#video-title-link";
    "h3 a";
    "yt-formatted-string#video-title";
    "[aria-label*='by']" ]%string.

(** [el.querySelector(s1) || el.querySelector(s2) || ...]: the element
    of the first selector that finds one. *)
Fixpoint firstElement (el : element) (selectors : list string)
  : option node :=
  match selectors with
  | [] => None
  | selector :: rest =>
      match querySelector el selector with
      | Some n => Some n
      | None => firstElement el rest
      end
  end.

(** [s.split(sep)[0]]: what comes before the first [sep]. *)
Fixpoint splitHead (sep s : jsstring) : jsstring :=
  match stripPrefix sep s with
  | Some _ => []
  | None => match s with
            | [] => []
            | c :: s' => c :: splitHead sep s'
            end
  end.

(** [n.textContent?.trim() || n.getAttribute("title")?.trim() ||
    n.getAttribute("aria-label")?.split(" by ")[0]?.trim()] *)
Definition titleOf (n : node) : option jsstring :=
  orElse (trim <$> textContent n)
    (orElse (trim <$> getAttribute n "title")
       (trim <$> (splitHead (js " by ") <$> getAttribute n "aria-label"))).

(** The loop over [durationSelectors]: the first selector whose
    element has trimmed text starting with digits, a colon, digits. *)
Fixpoint durationBadge (el : element) (selectors : list string)
  : option jsstring :=
  match selectors with
  | [] => None
  | selector :: rest =>
      let text := trim <$> (querySelector el selector ≫= textContent) in
      match text with
      | Some t =>
          if truthy (VString t) && bool_decide (is_Some (matchRe t re_clock_prefix))
          then Some t
          else durationBadge el rest
      | None => durationBadge el rest
      end
  end.

(** The fallback on the thumbnail link's visible text. *)
Definition durationFromThumbnail (el : element) : option jsstring :=
  match querySelector el "a#thumbnail, a[href*='/watch']" with
  | Some thumbLink =>
      match trim <$> nodeInnerText thumbLink with
      | Some thumbText => m_text <$> matchRe thumbText re_clock
      | None => None
      end
  | None => None
  end.

(** Duration: the badge loop, then [if (!data.duration)] the fallback. *)
Definition extractDuration (el : element) : option jsstring :=
  let d := durationBadge el durationSelectors in
  if negb (truthy (textValue d)) then
    match durationFromThumbnail el with
    | Some t => Some t
    | None => d
    end
  else d.

(** View count from the full visible text. *)
Definition extractViewCount (fullText : jsstring) : option jsstring :=
  match matchRe fullText re_viewCount with
  | Some viewMatch => Some (m_text viewMatch)
  | None =>
      if bool_decide (is_Some (matchRe fullText re_noViews))
      then Some (js "No views")
      else None
  end.

(** Publish time from the full visible text. *)
Definition extractPublishTime (fullText : jsstring) : option jsstring :=
  match matchRe fullText re_ago with
  | Some timeMatch => Some (m_text timeMatch)
  | None =>
      if bool_decide (is_Some (matchRe fullText re_streamedTest))
      then matchRe fullText re_streamed ≫= group 1
      else None
  end.

(** [videoElement.innerText || ""] *)
Definition fullTextOf (el : element) : jsstring :=
  default [] (orElse (innerText el) (Some [])).

End Patterns.

(* ------------------------------------------------------------------ *)
(** ** The monolithic content script ([content.js]) *)
(* ------------------------------------------------------------------ *)

Module Content.
Import Patterns.

(** The settings object, with the property names [content.js] reads. *)
Record settings : Type := Settings {
  viewsFilterEnabled : bool;
  durationFilterEnabled : bool;
  ageFilterEnabled : bool;
  keywordsFilterEnabled : bool;
  minViews : number;
  minDuration : number;
  maxDuration : number;
  maxAge : number;
  bannedKeywords : list jsstring;
}.

(** [extractVideoData(videoElement)].  The DOM reads of the model do
    not throw, so the [catch] branch is not taken. *)
Definition extractVideoData (videoElement : element) : videoData :=
  let videoId :=
    match querySelector videoElement "[data-video-id]" with
    | Some videoData => getAttribute videoData "data-video-id"
    | None => None
    end in
  let titleElement := firstElement videoElement titleSelectors in
  let title :=
    match titleElement with
    | Some titleElement => titleOf titleElement
    | None => None
    end in
  let duration := extractDuration videoElement in
  let fullText := fullTextOf videoElement in
  let viewCount := extractViewCount fullText in
  let publishTime := extractPublishTime fullText in
  VideoData title viewCount duration publishTime videoId.

(** [checkViewsFilter(videoData, settings)] *)
Definition checkViewsFilter (videoData : videoData) (settings : settings)
  : filterResult :=
  if negb (viewsFilterEnabled settings) || (minViews settings <=n ofZ 0)
  then pass
  else if negb (truthy (textValue (viewCount videoData)))
  then filterOut "no-views" NoViewCount
  else
    let views := returned (parseViewCount (textValue (viewCount videoData))) in
    if views <n minViews settings
    then filterOut "views"
           (LowViews (default [] (viewCount videoData)) views)
    else pass.

(** [checkDurationFilter(videoData, settings)] *)
Definition checkDurationFilter (videoData : videoData) (settings : settings)
  : filterResult :=
  if negb (durationFilterEnabled settings) then pass
  else if negb (num_truthy (minDuration settings))
          && negb (num_truthy (maxDuration settings))
  then pass
  else if negb (truthy (textValue (duration videoData))) then pass
  else
    let durationSeconds :=
      returned (parseDuration (textValue (duration videoData))) in
    let minOk := negb (num_truthy (minDuration settings))
                 || (durationSeconds >=n minDuration settings) in
    let maxOk := negb (num_truthy (maxDuration settings))
                 || (durationSeconds <=n maxDuration settings) in
    if negb minOk || negb maxOk
    then filterOut "duration"
           (DurationOutside (default [] (duration videoData))
              durationSeconds
              (if num_truthy (minDuration settings)
               then minDuration settings else ofZ 0)
              (if num_truthy (maxDuration settings)
               then Some (maxDuration settings) else None))
    else pass.

(** [checkAgeFilter(videoData, settings)] *)
Definition checkAgeFilter (videoData : videoData) (settings : settings)
  : filterResult :=
  if negb (ageFilterEnabled settings) || (maxAge settings <=n ofZ 0)
  then pass
  else if negb (truthy (textValue (publishTime videoData))) then pass
  else
    let videoAge :=
      returned (parseVideoAge (textValue (publishTime videoData))) in
    if videoAge >n maxAge settings
    then filterOut "age"
           (TooOld (default [] (publishTime videoData)) videoAge)
    else pass.

(** The [for (const keyword of settings.bannedKeywords)] loop. *)
Fixpoint firstBanned (titleLower : jsstring) (keywords : list jsstring)
  : filterResult :=
  match keywords with
  | [] => pass
  | keyword :: rest =>
      if truthy (VString keyword)
         && includes titleLower (toLowerCase keyword)
      then filterOut "keyword" (BannedKeyword keyword)
      else firstBanned titleLower rest
  end.

(** [checkKeywordsFilter(videoData, settings)] *)
Definition checkKeywordsFilter (videoData : videoData) (settings : settings)
  : filterResult :=
  if negb (keywordsFilterEnabled settings)
     || bool_decide (length (bannedKeywords settings) = 0%nat)
  then pass
  else if negb (truthy (textValue (title videoData))) then pass
  else
    let titleLower := toLowerCase (default [] (title videoData)) in
    firstBanned titleLower (bannedKeywords settings).

(** The [filters] array of [runAllFilters], in its order, and
    [filters.find(f => f.shouldFilter)]. *)
Definition filters (videoData : videoData) (settings : settings)
  : list filterResult :=
  [ checkViewsFilter videoData settings;
    checkDurationFilter videoData settings;
    checkAgeFilter videoData settings;
    checkKeywordsFilter videoData settings ].

Definition triggeredFilter (videoData : videoData) (settings : settings)
  : option filterResult :=
  List.find shouldFilter (filters videoData settings).

(** The callback that [storeFilteredVideo(title, reason)] hands to
    [chrome.storage.local.get]: from [videos], the log the callback is
    handed ([result.filteredVideos || []]), to the log it writes back
    with [chrome.storage.local.set]; [now] is the time value its
    [new Date()] reads. *)
Definition storeFilteredVideo (title : jsstring) (reason : option details)
    (now : Z) (videos : list historyEntry) : list historyEntry :=
  let videos := videos ++ [HistoryEntry title reason (ISOString now)] in
  if (100 <? length videos)%nat
  then tail videos   (* videos.shift() *)
  else videos.

(** The state one pass of the [forEach] loop carries.  The loop is
    synchronous and [chrome.storage.local.get] is not: every request
    [storeFilteredVideo] makes during the pass is answered with the log
    as it is stored when the pass begins, [storedBefore], and the
    callbacks run after the loop, in the order of their requests, each
    writing over what the one before wrote.  [filteredVideos] is what
    [chrome.storage.local] holds once the callbacks of the requests made
    so far have run, and [dateCount] the clock readings they take. *)
Record pass_state : Type := PassState {
  currentStats : gmap string number;
  newFilters : bool;
  processedCount : nat;
  alreadyFilteredCount : nat;
  filteredVideos : list historyEntry;   (* chrome.storage.local *)
  dateCount : nat;                      (* [new Date()] calls so far *)
  storedBefore : list historyEntry;     (* what every [get] is answered *)
}.

Definition initialStats : gmap string number :=
  {[ "views" := ofZ 0; "keywords" := ofZ 0; "duration" := ofZ 0;
     "age" := ofZ 0; "total" := ofZ 0 ]}%string.

(** The body of the [videoCards.forEach] callback; [now k] is the
    time value the [k]-th [new Date()] reads.  The callback of
    [storeFilteredVideo] is applied to [storedBefore], not to what an
    earlier callback of the same pass writes. *)
Definition visit (now : nat -> Z) (filterSettings : settings)
    (st : pass_state) (videoElement : element) : pass_state * element :=
  if hasAttribute videoElement "data-filtered" then
    (PassState (currentStats st) (newFilters st) (processedCount st)
               (S (alreadyFilteredCount st)) (filteredVideos st)
               (dateCount st) (storedBefore st),
     videoElement)
  else
    let processedCount := S (processedCount st) in
    let videoData := extractVideoData videoElement in
    let title := default (js "Unknown title")
                   (orElse (title videoData) (Some (js "Unknown title"))) in
    match triggeredFilter videoData filterSettings with
    | Some triggeredFilter =>
        let videoElement := setDisplay (js "none") videoElement in
        let videoElement :=
          setAttribute "data-filtered" (js "true") videoElement in
        let videoElement :=
          setAttribute "data-filter-reason"
            (js (propertyKey (reason triggeredFilter))) videoElement in
        let currentStats :=
          increment (propertyKey (reason triggeredFilter))
                    (currentStats st) in
        let currentStats := increment "total" currentStats in
        (PassState currentStats true processedCount
                   (alreadyFilteredCount st)
                   (storeFilteredVideo title (details_of triggeredFilter)
                      (now (dateCount st)) (storedBefore st))
                   (S (dateCount st)) (storedBefore st),
         videoElement)
    | None =>
        (PassState (currentStats st) (newFilters st) processedCount
                   (alreadyFilteredCount st) (filteredVideos st)
                   (dateCount st) (storedBefore st),
         videoElement)
    end.

(** [videoCards.forEach(...)], in document order. *)
Fixpoint forEach (now : nat -> Z) (filterSettings : settings)
    (st : pass_state) (videoCards : list element)
  : pass_state * list element :=
  match videoCards with
  | [] => (st, [])
  | videoElement :: rest =>
      let '(st, videoElement) := visit now filterSettings st videoElement in
      let '(st, rest) := forEach now filterSettings st rest in
      (st, videoElement :: rest)
  end.

(** The content script's world: its two globals, the page's video
    cards, and what it keeps in [chrome.storage.local]. *)
Record world : Type := World {
  filterSettings : settings;
  filterStats : gmap string number;
  videoCards : list element;
  storedVideos : list historyEntry;
  storedStats : option (gmap string number);
  dates : nat;
}.

(** [filterStats.k += currentStats.k] for the five named counters. *)
Definition accumulate (filterStats currentStats : gmap string number)
  : gmap string number :=
  foldl (fun acc k => <[k := counter acc k +n counter currentStats k]> acc)
        filterStats
        [ "views"; "keywords"; "duration"; "age"; "total" ]%string.

(** One scan pass from a fresh per-run state. *)
Definition scan (now : nat -> Z) (w : world)
  : pass_state * list element :=
  forEach now (filterSettings w)
          (PassState initialStats false 0 0 (storedVideos w) (dates w)
                     (storedVideos w))
          (videoCards w).

(** [runAllFilters()], with the storage callbacks of the pass: they
    have all run by the time the next pass starts. *)
Definition runAllFilters (now : nat -> Z) (w : world) : world :=
  let s := filterSettings w in
  if negb (viewsFilterEnabled s) && negb (durationFilterEnabled s)
     && negb (keywordsFilterEnabled s) && negb (ageFilterEnabled s)
  then w
  else
    let '(st, cards) := scan now w in
    if newFilters st then
      let filterStats := accumulate (filterStats w) (currentStats st) in
      World s filterStats cards (filteredVideos st) (Some filterStats)
            (dateCount st)
    else
      World s (filterStats w) cards (filteredVideos st) (storedStats w)
            (dateCount st).

End Content.

(* ------------------------------------------------------------------ *)
(** ** The modular variant ([src/] and the filter modules) *)
(* ------------------------------------------------------------------ *)

Module Modular.
Import Patterns.

(** The settings object, with the property names the modules read. *)
Record settings : Type := Settings {
  viewsFilterEnabled : bool;
  durationFilterEnabled : bool;
  keywordFilterEnabled : bool;
  ageFilterEnabled : bool;
  minViews : number;
  minDuration : number;
  maxDuration : number;
  maxAge : number;
  bannedKeywords : list jsstring;
}.

(** *** [src/core/extractor.js] *)

(** The [for (const selector of titleSelectors)] loop: every element
    found assigns [data.title], and the loop stops at the first truthy
    title. *)
Fixpoint titleLoop (videoElement : element) (selectors : list string)
    (title : option jsstring) : option jsstring :=
  match selectors with
  | [] => title
  | selector :: rest =>
      match querySelector videoElement selector with
      | Some titleElement =>
          let title := titleOf titleElement in
          if truthy (textValue title) then title
          else titleLoop videoElement rest title
      | None => titleLoop videoElement rest title
      end
  end.

(** [YouTubeFilterUtils.getElementAttribute(element, selector, attribute)] *)
Definition getElementAttribute (el : element) (selector attribute : string)
  : option jsstring :=
  orElse (querySelector el selector ≫= fun n => getAttribute n attribute)
         None.

(** [extractVideoData(videoElement)] *)
Definition extractVideoData (videoElement : element) : videoData :=
  let videoId :=
    getElementAttribute videoElement "[data-video-id]" "data-video-id" in
  let title := titleLoop videoElement titleSelectors None in
  let duration := extractDuration videoElement in
  let fullText := fullTextOf videoElement in
  let viewCount := extractViewCount fullText in
  let publishTime := extractPublishTime fullText in
  VideoData title viewCount duration publishTime videoId.

(** *** The filter-functions module *)

Definition checkViewsFilter (videoData : videoData) (settings : settings)
  : filterResult :=
  if negb (viewsFilterEnabled settings) || (minViews settings <=n ofZ 0)
  then pass
  else if negb (truthy (textValue (viewCount videoData)))
  then filterOut "views" NoViewCount
  else
    let views := returned (parseViewCount (textValue (viewCount videoData))) in
    if views <n minViews settings
    then filterOut "views"
           (LowViews (default [] (viewCount videoData)) views)
    else pass.

Definition checkDurationFilter (videoData : videoData) (settings : settings)
  : filterResult :=
  if negb (durationFilterEnabled settings) then pass
  else if negb (num_truthy (minDuration settings))
          && negb (num_truthy (maxDuration settings))
  then pass
  else if negb (truthy (textValue (duration videoData))) then pass
  else
    let durationSeconds :=
      returned (parseDuration (textValue (duration videoData))) in
    let minOk := negb (num_truthy (minDuration settings))
                 || (durationSeconds >=n minDuration settings) in
    let maxOk := negb (num_truthy (maxDuration settings))
                 || (durationSeconds <=n maxDuration settings) in
    if negb minOk || negb maxOk
    then filterOut "duration"
           (DurationOutside (default [] (duration videoData))
              durationSeconds
              (if num_truthy (minDuration settings)
               then minDuration settings else ofZ 0)
              (if num_truthy (maxDuration settings)
               then Some (maxDuration settings) else None))
    else pass.

Definition checkAgeFilter (videoData : videoData) (settings : settings)
  : filterResult :=
  if negb (ageFilterEnabled settings) || (maxAge settings <=n ofZ 0)
  then pass
  else if negb (truthy (textValue (publishTime videoData))) then pass
  else
    let videoAge :=
      returned (parseVideoAge (textValue (publishTime videoData))) in
    if videoAge >n maxAge settings
    then filterOut "age"
           (TooOld (default [] (publishTime videoData)) videoAge)
    else pass.

Fixpoint firstBanned (titleLower : jsstring) (keywords : list jsstring)
  : filterResult :=
  match keywords with
  | [] => pass
  | keyword :: rest =>
      if truthy (VString keyword)
         && includes titleLower (toLowerCase keyword)
      then filterOut "keyword" (BannedKeyword keyword)
      else firstBanned titleLower rest
  end.

Definition checkKeywordsFilter (videoData : videoData) (settings : settings)
  : filterResult :=
  if negb (keywordFilterEnabled settings)
     || bool_decide (length (bannedKeywords settings) = 0%nat)
  then pass
  else if negb (truthy (textValue (title videoData))) then pass
  else
    let titleLower := toLowerCase (default [] (title videoData)) in
    firstBanned titleLower (bannedKeywords settings).

(** Placeholder for channel-based filtering. *)
Definition checkChannelFilter (videoData : videoData) (settings : settings)
  : filterResult := pass.

Definition getAllFilterFunctions
  : list (videoData -> settings -> filterResult) :=
  [ checkViewsFilter; checkDurationFilter; checkAgeFilter;
    checkKeywordsFilter; checkChannelFilter ].

(** The [for (const filterFunc of filterFunctions)] loop. *)
Fixpoint applyFilters
    (filterFunctions : list (videoData -> settings -> filterResult))
    (videoData : videoData) (settings : settings) : option filterResult :=
  match filterFunctions with
  | [] => None
  | filterFunc :: rest =>
      let result := filterFunc videoData settings in
      if shouldFilter result then Some result
      else applyFilters rest videoData settings
  end.

(** [applyAllFilters(videoData, settings)] *)
Definition applyAllFilters (videoData : videoData) (settings : settings)
  : option filterResult :=
  applyFilters getAllFilterFunctions videoData settings.

(** *** [src/content/dom-manager.js] *)

(** [hideVideoElement(videoElement, reason)] *)
Definition hideVideoElement (videoElement : element) (reason : option string)
  : element :=
  let videoElement := setDisplay (js "none") videoElement in
  let videoElement :=
    setAttribute "data-filtered" (js "true") videoElement in
  setAttribute "data-filter-reason" (js (propertyKey reason)) videoElement.

(** *** [src/core/settings-manager.js]: the history log *)

(** The continuation of [addFilteredVideo(title, reason)]: from
    [videos], the log [loadFilteredVideos()] resolves to, to the log it
    writes back with [chrome.storage.local.set]; [now] is the time value
    its [new Date()] reads. *)
Definition addFilteredVideo (title : jsstring) (reason : option details)
    (now : Z) (videos : list historyEntry) : list historyEntry :=
  let videos := videos ++ [HistoryEntry title reason (ISOString now)] in
  if (100 <? length videos)%nat
  then tail videos   (* videos.shift() *)
  else videos.

Definition DEFAULT_STATS : gmap string number :=
  {[ "views" := ofZ 0; "keywords" := ofZ 0; "duration" := ofZ 0;
     "age" := ofZ 0; "total" := ofZ 0 ]}%string.

(** *** The filter-engine module *)

(** The state of one pass.  As in [content.js], the storage reads that
    [addFilteredVideo] starts during the synchronous loop are all
    answered with the log as it is stored when the pass begins,
    [storedBefore], and the continuations run after the loop, in order,
    each writing over what the one before wrote. *)
Record pass_state : Type := PassState {
  currentRunStats : gmap string number;
  newFilters : bool;
  processedCount : nat;
  alreadyFilteredCount : nat;
  filteredVideos : list historyEntry;   (* chrome.storage.local *)
  dateCount : nat;                      (* [new Date()] calls so far *)
  storedBefore : list historyEntry;     (* what every read resolves to *)
}.

(** The body of the [videoCards.forEach] callback of [runFilters]; the
    continuation of [addFilteredVideo] is applied to [storedBefore]. *)
Definition visit (now : nat -> Z) (settings : settings)
    (st : pass_state) (videoElement : element) : pass_state * element :=
  if hasAttribute videoElement "data-filtered" then
    (PassState (currentRunStats st) (newFilters st) (processedCount st)
               (S (alreadyFilteredCount st)) (filteredVideos st)
               (dateCount st) (storedBefore st),
     videoElement)
  else
    let processedCount := S (processedCount st) in
    let videoData := extractVideoData videoElement in
    let title := default (js "Unknown title")
                   (orElse (title videoData) (Some (js "Unknown title"))) in
    match applyAllFilters videoData settings with
    | Some filterResult =>
        let videoElement :=
          hideVideoElement videoElement (reason filterResult) in
        let currentRunStats :=
          increment (propertyKey (reason filterResult))
                    (currentRunStats st) in
        let currentRunStats := increment "total" currentRunStats in
        (PassState currentRunStats true processedCount
                   (alreadyFilteredCount st)
                   (addFilteredVideo title (details_of filterResult)
                      (now (dateCount st)) (storedBefore st))
                   (S (dateCount st)) (storedBefore st),
         videoElement)
    | None =>
        (PassState (currentRunStats st) (newFilters st) processedCount
                   (alreadyFilteredCount st) (filteredVideos st)
                   (dateCount st) (storedBefore st),
         videoElement)
    end.

Fixpoint forEach (now : nat -> Z) (settings : settings)
    (st : pass_state) (videoCards : list element)
  : pass_state * list element :=
  match videoCards with
  | [] => (st, [])
  | videoElement :: rest =>
      let '(st, videoElement) := visit now settings st videoElement in
      let '(st, rest) := forEach now settings st rest in
      (st, videoElement :: rest)
  end.

(** The engine instance, the page's video cards and the storage. *)
Record world : Type := World {
  engineSettings : option settings;       (* this.settings *)
  engineStats : gmap string number;       (* this.stats *)
  isInitialized : bool;
  videoCards : list element;
  storedVideos : list historyEntry;
  storedStats : option (gmap string number);
  dates : nat;
}.

Definition accumulate (stats currentRunStats : gmap string number)
  : gmap string number :=
  foldl (fun acc k => <[k := counter acc k +n counter currentRunStats k]> acc)
        stats
        [ "views"; "keywords"; "duration"; "age"; "total" ]%string.

(** One scan pass from a fresh per-run state. *)
Definition scan (now : nat -> Z) (settings : settings) (w : world)
  : pass_state * list element :=
  forEach now settings
          (PassState DEFAULT_STATS false 0 0 (storedVideos w) (dates w)
                     (storedVideos w))
          (videoCards w).

(** [runFilters()], with the storage continuations of the pass: they
    have all run by the time the next pass starts. *)
Definition runFilters (now : nat -> Z) (w : world) : world :=
  match isInitialized w, engineSettings w with
  | true, Some s =>
      let hasEnabledFilters :=
        existsb (fun enabled => enabled)
          [ viewsFilterEnabled s; durationFilterEnabled s;
            keywordFilterEnabled s; ageFilterEnabled s ] in
      if negb hasEnabledFilters then w
      else
        let '(st, cards) := scan now s w in
        if newFilters st then
          let stats := accumulate (engineStats w) (currentRunStats st) in
          World (Some s) stats true cards (filteredVideos st) (Some stats)
                (dateCount st)
        else
          World (Some s) (engineStats w) true cards (filteredVideos st)
                (storedStats w) (dateCount st)
  | _, _ => w
  end.

(** *** [src/core/settings-manager.js]: validation *)

Definition DEFAULT_FILTER_SETTINGS : gmap string value :=
  {[ "viewsFilterEnabled" := VBool true;
     "durationFilterEnabled" := VBool true;
     "keywordFilterEnabled" := VBool true;
     "ageFilterEnabled" := VBool true;
     "minViews" := VNumber (ofZ 10000);
     "minDuration" := VNumber (ofZ 60);
     "maxDuration" := VNumber (ofZ 3600);
     "maxAge" := VNumber (ofZ 5);
     "bannedKeywords" :=
       VArray [ VString (js "spoiler"); VString (js "clickbait");
                VString (js "sponsor") ] ]}%string.

(** [obj.key]: a missing property reads [undefined]. *)
Definition prop (obj : gmap string value) (key : string) : value :=
  default VUndefined (obj !! key).

(** [if (typeof settings[key] === 'boolean') validated[key] = settings[key]] *)
Definition copyBoolean (settings : gmap string value)
    (validated : gmap string value) (key : string) : gmap string value :=
  match prop settings key with
  | VBool b => <[key := VBool b]> validated
  | _ => validated
  end.

(** [if (typeof settings[key] === 'number' && settings[key] >= 0 [&&
    settings[key] <= hi]) validated[key] = Math.floor(settings[key])] *)
Definition copyNumber (hi : option number) (settings : gmap string value)
    (key : string) (validated : gmap string value) : gmap string value :=
  match prop settings key with
  | VNumber n =>
      if (n >=n ofZ 0)
         && match hi with Some h => n <=n h | None => true end
      then <[key := VNumber (Math_floor n)]> validated
      else validated
  | _ => validated
  end.

(** [keyword => typeof keyword === 'string' && keyword.trim().length > 0] *)
Definition keepKeyword (keyword : value) : bool :=
  match keyword with
  | VString s => (0 <? length (trim s))%nat
  | _ => false
  end.

(** [keyword => keyword.trim().toLowerCase()], on what the filter kept. *)
Definition cleanKeyword (keyword : value) : value :=
  match keyword with
  | VString s => VString (toLowerCase (trim s))
  | _ => keyword
  end.

(** [validateAndSanitizeSettings(settings)] *)
Definition validateAndSanitizeSettings (settings : gmap string value)
  : gmap string value :=
  let validated := DEFAULT_FILTER_SETTINGS in
  let validated :=
    foldl (copyBoolean settings) validated
          [ "viewsFilterEnabled"; "durationFilterEnabled";
            "keywordFilterEnabled"; "ageFilterEnabled" ]%string in
  let validated := copyNumber None settings "minViews" validated in
  let validated := copyNumber None settings "minDuration" validated in
  let validated := copyNumber None settings "maxDuration" validated in
  let validated := copyNumber (Some (ofZ 20)) settings "maxAge" validated in
  let validated :=
    match prop settings "bannedKeywords" with
    | VArray bannedKeywords =>
        <["bannedKeywords" :=
            VArray (map cleanKeyword (List.filter keepKeyword bannedKeywords))]>
          validated
    | _ => validated
    end in
  (* Legacy settings compatibility *)
  let validated :=
    if truthy (prop settings "maxAgeYears")
       && negb (truthy (prop settings "maxAge"))
    then <["maxAge" := prop settings "maxAgeYears"]> validated
    else validated in
  let validated :=
    if truthy (prop settings "keywords")
       && negb (truthy (prop settings "bannedKeywords"))
    then <["bannedKeywords" := prop settings "keywords"]> validated
    else validated in
  validated.

End Modular.

(* ------------------------------------------------------------------ *)
(** ** Vocabulary of the statements *)
(* ------------------------------------------------------------------ *)

(** The arguments the parsers are documented for: a string, [null] or
    [undefined]. *)
Definition isText (v : value) : Prop :=
  match v with
  | VString _ | VNull | VUndefined => True
  | _ => False
  end.

(** A non-empty run of decimal digits. *)
Definition isDigits (s : jsstring) : bool :=
  match s with
  | [] => false
  | _ => forallb isDigit s
  end.


(** The first predicate to fire, in the order views, duration, age,
    keyword. *)
Definition firstInOrder (views dur age keyword : filterResult)
  : option filterResult :=
  if shouldFilter views then Some views
  else if shouldFilter dur then Some dur
  else if shouldFilter age then Some age
  else if shouldFilter keyword then Some keyword
  else None.

(** The containers a pass newly filters: not tagged yet, and some
    predicate fires on the extracted record. *)
Definition Content_filtersNow (s : Content.settings) (el : element) : bool :=
  negb (hasAttribute el "data-filtered")
  && bool_decide (is_Some (Content.triggeredFilter
                             (Content.extractVideoData el) s)).

Definition Modular_filtersNow (s : Modular.settings) (el : element) : bool :=
  negb (hasAttribute el "data-filtered")
  && bool_decide (is_Some (Modular.applyAllFilters
                             (Modular.extractVideoData el) s)).

(** The history entry of a newly filtered container: its title (or the
    placeholder), the details of the decision, the clock reading. *)
Definition Content_entry (s : Content.settings) (t : Z) (el : element)
  : historyEntry :=
  let record := Content.extractVideoData el in
  HistoryEntry
    (default (js "Unknown title")
       (orElse (title record) (Some (js "Unknown title"))))
    (Content.triggeredFilter record s ≫= details_of)
    (ISOString t).

Definition Modular_entry (s : Modular.settings) (t : Z) (el : element)
  : historyEntry :=
  let record := Modular.extractVideoData el in
  HistoryEntry
    (default (js "Unknown title")
       (orElse (title record) (Some (js "Unknown title"))))
    (Modular.applyAllFilters record s ≫= details_of)
    (ISOString t).

(** One entry per newly filtered container, in document order, stamped
    with the successive clock readings from the [k]-th on. *)
Fixpoint entriesFrom (filtersNow : element -> bool)
    (entry : Z -> element -> historyEntry) (now : nat -> Z) (k : nat)
    (cards : list element) : list historyEntry :=
  match cards with
  | [] => []
  | el :: rest =>
      if filtersNow el
      then entry (now k) el :: entriesFrom filtersNow entry now (S k) rest
      else entriesFrom filtersNow entry now k rest
  end.

(** Appending to the log under its cap of 100 entries. *)
Definition appendCapped (videos : list historyEntry) (e : historyEntry)
  : list historyEntry :=
  if (length videos <? 100)%nat then videos ++ [e] else tail videos ++ [e].

(** What the storage callbacks of a pass leave in the log.  Each of them
    is handed the log [old] and writes it back with its own entry, so
    the last write stands; without a callback the log stays [current]. *)
Definition afterCallbacks (old current : list historyEntry)
    (entries : list historyEntry) : list historyEntry :=
  match last entries with
  | Some e => appendCapped old e
  | None => current
  end.

Definition isBoolean (v : value) : Prop :=
  match v with
  | VBool _ => True
  | _ => False
  end.

(** A number that is a non-negative integer, at most [hi] when given. *)
Definition isCount (hi : option Z) (v : value) : Prop :=
  exists z : Z,
    v = VNumber (ofZ z) /\ (0 <= z)%Z
    /\ match hi with Some h => (z <= h)%Z | None => True end.

(** A keyword the steps of the sanitiser leave as it is: a non-empty
    string that trimming and lower-casing do not change. *)
Definition isSettledKeyword (v : value) : Prop :=
  exists s : jsstring,
    v = VString s /\ s <> [] /\ trim s = s /\ toLowerCase s = s.

(** A string of code units up to U+00FF, on which the lower-casing of
    the model is that of the source. *)
Definition isLatin1 (s : jsstring) : bool :=
  forallb (fun c => (c <? 256)%N) s.

(** A non-empty, trimmed, lower-case string, of code units up to U+00FF:
    there a string is in lower case exactly when lower-casing does not
    change it. *)
Definition isCleanKeyword (v : value) : Prop :=
  exists s : jsstring,
    v = VString s /\ s <> [] /\ trim s = s
    /\ isLatin1 s = true /\ toLowerCase s = s.

(** The strings of a settings value stay within U+00FF. *)
Fixpoint latin1Value (v : value) : Prop :=
  match v with
  | VString s => isLatin1 s = true
  | VArray l => (fix all (l : list value) : Prop :=
                   match l with
                   | [] => True
                   | x :: l' => latin1Value x /\ all l'
                   end) l
  | _ => True
  end.

(** The keywords given for sanitising stay within U+00FF. *)
Definition latin1Keywords (settings : gmap string value) : Prop :=
  latin1Value (Modular.prop settings "bannedKeywords").

Definition isKeywordArray (v : value) : Prop :=
  exists l : list value, v = VArray l /\ Forall isCleanKeyword l.

Definition field (P : value -> Prop) (obj : gmap string value)
    (key : string) : Prop :=
  exists v, obj !! key = Some v /\ P v.

(** The shape the sanitiser is meant to establish. *)
Definition sanitized (obj : gmap string value) : Prop :=
  field isBoolean obj "viewsFilterEnabled"
  /\ field isBoolean obj "durationFilterEnabled"
  /\ field isBoolean obj "keywordFilterEnabled"
  /\ field isBoolean obj "ageFilterEnabled"
  /\ field (isCount None) obj "minViews"
  /\ field (isCount None) obj "minDuration"
  /\ field (isCount None) obj "maxDuration"
  /\ field (isCount (Some 20%Z)) obj "maxAge"
  /\ field isKeywordArray obj "bannedKeywords".

(** What a field of the right type and range is sanitised to; [None]
    for a field of the wrong type or out of range. *)
Definition acceptedBoolean (v : value) : option value :=
  match v with
  | VBool b => Some (VBool b)
  | _ => None
  end.

Definition acceptedNumber (hi : option number) (v : value) : option value :=
  match v with
  | VNumber n =>
      if (n >=n ofZ 0) && match hi with Some h => n <=n h | None => true end
      then Some (VNumber (Math_floor n))
      else None
  | _ => None
  end.

Definition acceptedKeywords (v : value) : option value :=
  match v with
  | VArray l =>
      Some (VArray (map Modular.cleanKeyword (List.filter Modular.keepKeyword l)))
  | _ => None
  end.

(** The legacy fields [maxAgeYears] and [keywords] do not apply. *)
Definition legacyInactive (settings : gmap string value) : Prop :=
  truthy (Modular.prop settings "maxAgeYears")
    && negb (truthy (Modular.prop settings "maxAge")) = false
  /\ truthy (Modular.prop settings "keywords")
       && negb (truthy (Modular.prop settings "bannedKeywords")) = false.

(** No threshold without an upper bound is [Infinity]. *)
Definition finiteThresholds (settings : gmap string value) : Prop :=
  Modular.prop settings "minViews" <> VNumber PosInf
  /\ Modular.prop settings "minDuration" <> VNumber PosInf
  /\ Modular.prop settings "maxDuration" <> VNumber PosInf.

(** A field after validation: the accepted value, else the default. *)
Definition sanitizedField (accept : value -> option value)
    (settings : gmap string value) (key : string) : value :=
  default (Modular.prop Modular.DEFAULT_FILTER_SETTINGS key)
          (accept (Modular.prop settings key)).

(** The state after the visit of a tagged container: the count of
    containers already filtered has moved, nothing else. *)
Definition Content_skipped (st : Content.pass_state) : Content.pass_state :=
  Content.PassState (Content.currentStats st) (Content.newFilters st)
    (Content.processedCount st) (S (Content.alreadyFilteredCount st))
    (Content.filteredVideos st) (Content.dateCount st)
    (Content.storedBefore st).

Definition Modular_skipped (st : Modular.pass_state) : Modular.pass_state :=
  Modular.PassState (Modular.currentRunStats st) (Modular.newFilters st)
    (Modular.processedCount st) (S (Modular.alreadyFilteredCount st))
    (Modular.filteredVideos st) (Modular.dateCount st)
    (Modular.storedBefore st).

(** A statistics object whose counters are all 0. *)
Definition allZero (stats : gmap string number) : Prop :=
  map_Forall (fun _ v => v = ofZ 0) stats.

(** A video card with a title element and a visible text. *)
Definition sampleCard (titleText visibleText : string) : element :=
  Element ∅ []
    (fun selector =>
       if String.eqb selector "#video-title"
       then Some (Node (Some (js titleText)) (Some (js titleText))
                       (fun _ => None))
       else None)
    (Some (js visibleText)).


(** The suffix letters of a view count, in either case. *)
Definition isSuffixUnit (c : N) : bool :=
  existsb (fun x => (c =? x)%N) [75; 107; 77; 109; 66; 98]%N.

(** The units of a written view count: digits, the decimal point, a
    suffix letter. *)
Definition plainUnit (c : N) : bool :=
  isDigit c || (c =? 46)%N || isSuffixUnit c.

(** The factor a suffix stands for. *)
Definition multiplier (sfx : jsstring) : Z :=
  if jsstring_eqb (toUpperCase sfx) (js "K") then 1000
  else if jsstring_eqb (toUpperCase sfx) (js "M") then 1000000
  else if jsstring_eqb (toUpperCase sfx) (js "B") then 1000000000
  else 1.

(** The rational a decimal numeral denotes: integer digits [ip] and
    fraction digits [fp]. *)
Definition decimalValue (ip fp : jsstring) : Q :=
  (inject_Z (digitsValue ip)
   + inject_Z (digitsValue fp) / inject_Z (10 ^ Z.of_nat (length fp)))%Q.

(** The fraction as written: nothing, or a point and digits. *)
Definition fractionText (fp : jsstring) : jsstring :=
  match fp with
  | [] => []
  | _ => cu "." :: fp
  end.

(** The three ways a documented view count may end. *)
Definition isCountTail (tail : jsstring) : Prop :=
  tail = [] \/ tail = js " views" \/ tail = js " view".

(** A suffix as written: nothing, or one suffix letter. *)
Definition isSuffixText (sfx : jsstring) : Prop :=
  sfx = [] \/ exists c, sfx = [c] /\ isSuffixUnit c = true.

(* ------------------------------------------------------------------ *)
(** ** More of the modules: DOM manager, settings storage, text helper *)
(* ------------------------------------------------------------------ *)

(** *** [src/content/dom-manager.js] *)

(** [el.removeAttribute(name)] *)
Definition removeAttribute (name : string) (el : element) : element :=
  Element (delete name (attributes el)) (styleDisplay el)
          (querySelector el) (innerText el).

Module DomManager.

(** [showVideoElement(videoElement)]; the writes of the model do not
    throw, so the [catch] branch is not taken. *)
Definition showVideoElement (videoElement : element) : element :=
  let videoElement := setDisplay [] videoElement in
  let videoElement := removeAttribute "data-filtered" videoElement in
  removeAttribute "data-filter-reason" videoElement.

Record videoCounts : Type := VideoCounts {
  filtered : nat;
  visible : nat;
  total : nat;
}.

(** [getVideoCounts()], [allVideos] being what [findVideoCards()]
    returns. *)
Definition getVideoCounts (allVideos : list element) : videoCounts :=
  let '(filtered, visible) :=
    foldl (fun '(filtered, visible) video =>
             if hasAttribute video "data-filtered"
             then (S filtered, visible)
             else (filtered, S visible))
          (0, 0)%nat allVideos in
  VideoCounts filtered visible (length allVideos).

End DomManager.

(** *** [src/core/settings-manager.js]: loading and saving *)

Module SettingsManager.

(** [area.get(defaults, callback)] of [chrome.storage]: the object
    handed to the callback has the keys of [defaults], each with the
    value the area holds for it, or with its default when the area
    holds none. *)
Definition storageGet (defaults area : gmap string value)
  : gmap string value :=
  map_imap (fun key d => Some (default d (area !! key))) defaults.

(** [area.set(items, callback)]: the items are written over what the
    area holds.  The write is taken to succeed -- with
    [chrome.runtime.lastError] set the promise of the caller is
    rejected instead -- and the values to be ones that storage keeps as
    they are. *)
Definition storageSet (items area : gmap string value)
  : gmap string value :=
  items ∪ area.

(** [loadSettings()]: what the promise resolves to, [sync] being
    [chrome.storage.sync]. *)
Definition loadSettings (sync : gmap string value) : gmap string value :=
  let settings := storageGet Modular.DEFAULT_FILTER_SETTINGS sync in
  let validatedSettings := Modular.validateAndSanitizeSettings settings in
  validatedSettings.

(** [saveSettings(settings)]: [chrome.storage.sync] after the write. *)
Definition saveSettings (settings sync : gmap string value)
  : gmap string value :=
  let validatedSettings := Modular.validateAndSanitizeSettings settings in
  storageSet validatedSettings sync.

(** [resetToDefaults()] *)
Definition resetToDefaults (sync : gmap string value) : gmap string value :=
  saveSettings Modular.DEFAULT_FILTER_SETTINGS sync.

End SettingsManager.

(** *** [src/utils/utils.js]: DOM helpers *)

(** [YouTubeFilterUtils.getElementText(element, selector)]; a selector
    on which [querySelector] throws takes the [catch] branch and gives
    [null], as one that selects nothing does. *)
Definition getElementText (el : element) (selector : string)
  : option jsstring :=
  orElse (querySelector el selector ≫= fun n => trim <$> textContent n)
         None.

(** *** [setting.js], and the settings object the predicates are given *)

Module Setting.

(** [DEFAULT_SETTINGS] *)
Definition DEFAULT_SETTINGS : gmap string value :=
  {[ "viewsFilterEnabled" := VBool true;
     "durationFilterEnabled" := VBool true;
     "keywordFilterEnabled" := VBool true;
     "ageFilterEnabled" := VBool true;
     "minViews" := VNumber (ofZ 10000);
     "minDuration" := VNumber (ofZ 60);
     "maxDuration" := VNumber (ofZ 3600);
     "maxAgeYears" := VNumber (ofZ 5);
     "keywords" :=
       VArray [ VString (js "spoiler"); VString (js "clickbait");
                VString (js "sponsor") ] ]}%string.

End Setting.

(** The predicates take their settings as an object and read properties
    off it; the records [Content.settings] and [Modular.settings] hold
    what they read.  How a property is read: *)
Module SettingsObject.

(** a flag, through [!settings.key] only; *)
Definition flag (settings : gmap string value) (key : string) : bool :=
  truthy (Modular.prop settings key).

(** a threshold, through comparisons with numbers and through [!] and
    [||]: a number is read as it is, and a missing property,
    [undefined], acts in each of these as [NaN] does -- both are falsy
    and make every comparison false.  Values of other types are not
    modelled; *)
Definition threshold (settings : gmap string value) (key : string)
  : option number :=
  match Modular.prop settings key with
  | VNumber n => Some n
  | VUndefined => Some NaN
  | _ => None
  end.

Definition text (v : value) : option jsstring :=
  match v with
  | VString s => Some s
  | _ => None
  end.

(** the keywords, an array of strings: a missing property stops the
    keywords predicate at its guard as an empty array does. *)
Definition keywordList (settings : gmap string value) (key : string)
  : option (list jsstring) :=
  match Modular.prop settings key with
  | VArray l => mapM text l
  | VUndefined => Some []
  | _ => None
  end.

(** The properties the predicates of [content.js] read. *)
Definition forContent (settings : gmap string value)
  : option Content.settings :=
  minViews ← threshold settings "minViews";
  minDuration ← threshold settings "minDuration";
  maxDuration ← threshold settings "maxDuration";
  maxAge ← threshold settings "maxAge";
  bannedKeywords ← keywordList settings "bannedKeywords";
  Some (Content.Settings
          (flag settings "viewsFilterEnabled")
          (flag settings "durationFilterEnabled")
          (flag settings "ageFilterEnabled")
          (flag settings "keywordsFilterEnabled")
          minViews minDuration maxDuration maxAge bannedKeywords).

(** The properties the filter-functions module and the filter engine
    read. *)
Definition forModular (settings : gmap string value)
  : option Modular.settings :=
  minViews ← threshold settings "minViews";
  minDuration ← threshold settings "minDuration";
  maxDuration ← threshold settings "maxDuration";
  maxAge ← threshold settings "maxAge";
  bannedKeywords ← keywordList settings "bannedKeywords";
  Some (Modular.Settings
          (flag settings "viewsFilterEnabled")
          (flag settings "durationFilterEnabled")
          (flag settings "keywordFilterEnabled")
          (flag settings "ageFilterEnabled")
          minViews minDuration maxDuration maxAge bannedKeywords).

End SettingsObject.

(** [init()] of [content.js]: [filterSettings = settings], the object
    that [chrome.storage.sync.get(DEFAULT_SETTINGS, ...)] hands over,
    [sync] being [chrome.storage.sync].  No other assignment to the
    global follows; until this one it is [DEFAULT_SETTINGS] itself,
    which is what an empty storage area gives. *)
Module ContentInit.

Definition loadedSettings (sync : gmap string value) : gmap string value :=
  SettingsManager.storageGet Setting.DEFAULT_SETTINGS sync.

(** What the predicates of [content.js] read off it. *)
Definition filterSettings (sync : gmap string value)
  : option Content.settings :=
  SettingsObject.forContent (loadedSettings sync).

End ContentInit.

(* ------------------------------------------------------------------ *)
(** ** Vocabulary of the further statements *)
(* ------------------------------------------------------------------ *)

(** A rational that binary64 holds exactly: [n / 2^k] in lowest terms
    with [|n| < 2^53] and [k <= 1074].  (The doubles of larger
    magnitude are not needed here.)  The arithmetic of the source gives
    the exact result whenever that result is such a value, and so does
    the reading of a decimal numeral. *)
Definition isDouble (q : Q) : bool :=
  let r := Qred q in
  let k := Z.log2 (Zpos (Qden r)) in
  (Zpos (Qden r) =? 2 ^ k)%Z && (k <=? 1074)%Z
  && (Z.abs (Qnum r) <? 2 ^ 53)%Z.

(** How many decimal digits a string holds. *)
Definition digitCount (s : jsstring) : nat :=
  length (List.filter isDigit s).

(** The same for a value: [null] and [undefined] hold none. *)
Definition textDigits (v : value) : nat :=
  match v with
  | VString s => digitCount s
  | _ => 0
  end.

(** The strings a pattern accepts at offset [i]: the declarative reading
    of the syntax trees, against which the matcher is sound. *)
Inductive accepts : regex -> nat -> jsstring -> Prop :=
| accepts_Eps i : accepts Eps i []
| accepts_Chr p i x : p x = true -> accepts (Chr p) i [x]
| accepts_Seq a b i m1 m2 :
    accepts a i m1 -> accepts b (i + length m1) m2 ->
    accepts (Seq a b) i (m1 ++ m2)
| accepts_Alt_l a b i m : accepts a i m -> accepts (Alt a b) i m
| accepts_Alt_r a b i m : accepts b i m -> accepts (Alt a b) i m
| accepts_Star_nil a i : accepts (Star a) i []
| accepts_Star_cons a i m1 m2 :
    accepts a i m1 -> accepts (Star a) (i + length m1) m2 ->
    accepts (Star a) i (m1 ++ m2)
| accepts_Grp g a i m : accepts a i m -> accepts (Grp g a) i m
| accepts_Bol : accepts Bol 0 [].

(** The capture groups of a pattern. *)
Fixpoint groups (r : regex) : list nat :=
  match r with
  | Eps | Chr _ | Bol => []
  | Seq a b | Alt a b => groups a ++ groups b
  | Star a => groups a
  | Grp g a => g :: groups a
  end.

(** A word spelled as [lit] in any mix of ASCII cases: what the literal
    [lit] matches under the [i] flag. *)
Definition spelled (lit : string) (w : jsstring) : bool :=
  jsstring_eqb (map upperUnit w) (map upperUnit (js lit)).

(** The word a view count ends with on the page. *)
Definition isViewsWord (vw : jsstring) : bool :=
  spelled "view" vw || spelled "views" vw.

(** The units of a publish time, as the extractor's pattern lists them. *)
Definition timeUnits : list string :=
  [ "second"; "minute"; "hour"; "day"; "week"; "month"; "year" ]%string.

(** A publish time as the page writes it: a number, white space, a unit
    in any case, an optional plural "s", white space, "ago". *)
Record agoText : Type := AgoText {
  ago_number : jsstring;
  ago_gap : jsstring;
  ago_unit : jsstring;
  ago_plural : jsstring;
  ago_gap2 : jsstring;
  ago_word : jsstring;
}.

Definition agoString (a : agoText) : jsstring :=
  ago_number a ++ ago_gap a ++ ago_unit a ++ ago_plural a
  ++ ago_gap2 a ++ ago_word a.

Definition isAgoText (a : agoText) : Prop :=
  isDigits (ago_number a) = true
  /\ forallb isWhiteSpace (ago_gap a) = true
  /\ existsb (fun unit => spelled unit (ago_unit a)) timeUnits = true
  /\ (ago_plural a = [] \/ spelled "s" (ago_plural a) = true)
  /\ forallb isWhiteSpace (ago_gap2 a) = true
  /\ spelled "ago" (ago_word a) = true.

(** The age [parseVideoAge] is to find in a publish time: the number
    when the unit is the year and white space separates the two, else
    0. *)
Definition yearsOf (a : agoText) : Z :=
  if spelled "year" (ago_unit a) && (0 <? length (ago_gap a))%nat
  then digitsValue (ago_number a)
  else 0.

(** Is there white space followed directly by a "y" in either case? *)
Fixpoint spaceThenY (t : jsstring) : bool :=
  match t with
  | w :: t' =>
      match t' with
      | y :: _ => isWhiteSpace w && (upperUnit y =? upperUnit (cu "y"))%N
      | [] => false
      end || spaceThenY t'
  | [] => false
  end.



(** A keyword occurs in a title: it is not empty and, both in lower
    case, it is a part of the title. *)
Definition occursIn (title keyword : jsstring) : Prop :=
  keyword <> []
  /\ exists a b, toLowerCase title = a ++ toLowerCase keyword ++ b.

(** What a pass makes of one container: hidden and tagged with the
    reason when it is not tagged yet and a predicate fires, else left
    as it is. *)
Definition Content_outcome (s : Content.settings) (el : element) : element :=
  if hasAttribute el "data-filtered" then el
  else match Content.triggeredFilter (Content.extractVideoData el) s with
       | Some f => Modular.hideVideoElement el (reason f)
       | None => el
       end.

Definition Modular_outcome (s : Modular.settings) (el : element) : element :=
  if hasAttribute el "data-filtered" then el
  else match Modular.applyAllFilters (Modular.extractVideoData el) s with
       | Some f => Modular.hideVideoElement el (reason f)
       | None => el
       end.


Definition Modular_filteredFor (key : string) (s : Modular.settings)
    (el : element) : bool :=
  negb (hasAttribute el "data-filtered")
  && bool_decide (reason <$> Modular.applyAllFilters
                               (Modular.extractVideoData el) s
                  = Some (Some key)).


Definition Modular_counted (key : string) (s : Modular.settings)
    (cards : list element) : Z :=
  Z.of_nat (length (List.filter
                      (if String.eqb key "total" then Modular_filtersNow s
                       else Modular_filteredFor key s) cards)).



(** The properties of its argument that [validateAndSanitizeSettings]
    reads. *)
Definition settingsKeys : list string :=
  [ "viewsFilterEnabled"; "durationFilterEnabled"; "keywordFilterEnabled";
    "ageFilterEnabled"; "minViews"; "minDuration"; "maxDuration"; "maxAge";
    "bannedKeywords"; "maxAgeYears"; "keywords" ]%string.

(** The keys of the default settings. *)
Definition defaultKeys : list string :=
  [ "viewsFilterEnabled"; "durationFilterEnabled"; "keywordFilterEnabled";
    "ageFilterEnabled"; "minViews"; "minDuration"; "maxDuration"; "maxAge";
    "bannedKeywords" ]%string.

(* ================================================================== *)
(** * Properties *)
(* ================================================================== *)

(* ------------------------------------------------------------------ *)
(** ** The matcher *)
(* ------------------------------------------------------------------ *)

Section MatcherFacts.
Context {R : Type}.
Implicit Types (k : nat -> jsstring -> captures -> option R).

Lemma run_Seq a b i s c k :
  run (Seq a b) i s c k = run a i s c (fun i' s' c' => run b i' s' c' k).
Proof. reflexivity. Qed.

Lemma run_Grp g a i s c k :
  run (Grp g a) i s c k =
  run a i s c (fun i' s' c' => k i' s' ((g, take (i' - i) s) :: c')).
Proof. reflexivity. Qed.

(** A match only ever succeeds through its continuation. *)
Lemma run_through_continuation r :
  forall i s c k res,
    run r i s c k = Some res ->
    exists i' s' c', k i' s' c' = Some res.
Proof.
  induction r as [ | p | a IHa b IHb | a IHa b IHb | a IHa | g a IHa | ];
    intros i s c k res H; simpl in H.
  - eauto.
  - destruct s as [ | x s']; [discriminate | ].
    destruct (p x); [eauto | discriminate].
  - apply IHa in H as (i1 & s1 & c1 & H). eauto.
  - destruct (run a i s c k) eqn:Ha.
    + injection H as <-. eauto.
    + eauto.
  - set (fuel := length s) in H. clearbody fuel. revert i s c H.
    induction fuel as [ | fuel IH]; intros i s c H; cbn [starLoop] in H.
    + eauto.
    + match type of H with
      | match ?m with _ => _ end = _ => destruct m eqn:Ha
      end.
      * injection H as <-.
        apply IHa in Ha as (i1 & s1 & c1 & Ha).
        destruct (i <? i1)%nat; [eauto | discriminate].
      * eauto.
  - apply IHa in H as (i1 & s1 & c1 & H). eauto.
  - destruct (i =? 0)%nat; [eauto | discriminate].
Qed.
(** [run] calls its continuation only at offsets it has advanced to:
    two continuations that agree there give the same match. *)
Lemma run_ext r :
  forall i s c k k',
    (forall i' s' c',
        (i <= i')%nat -> ((i' - i) + length s' = length s)%nat ->
        k i' s' c' = k' i' s' c') ->
    run r i s c k = run r i s c k'.
Proof.
  induction r as [ | p | a IHa b IHb | a IHa b IHb | a IHa | g a IHa | ];
    intros i s c k k' H; cbn [run].
  - apply H; lia.
  - destruct s as [ | x s']; [reflexivity | ].
    destruct (p x); [ | reflexivity]. apply H; simpl; lia.
  - apply IHa. intros i1 s1 c1 Hi1 Hs1. apply IHb.
    intros i2 s2 c2 Hi2 Hs2. apply H; lia.
  - rewrite (IHa i s c k k' H), (IHb i s c k k' H). reflexivity.
  - assert (Hloop : forall fuel i1 s1 c1,
               (i <= i1)%nat -> ((i1 - i) + length s1 = length s)%nat ->
               starLoop (run a) k fuel i1 s1 c1
               = starLoop (run a) k' fuel i1 s1 c1).
    { induction fuel as [ | fuel IH]; intros i1 s1 c1 Hi1 Hs1;
        cbn [starLoop].
      - apply H; assumption.
      - rewrite (H i1 s1 c1 Hi1 Hs1).
        rewrite (IHa i1 s1 c1 _
                   (fun i' s' c' =>
                      if (i1 <? i')%nat
                      then starLoop (run a) k' fuel i' s' c' else None));
          [reflexivity | ].
        intros i2 s2 c2 Hi2 Hs2.
        destruct (i1 <? i2)%nat; [apply IH; lia | reflexivity]. }
    apply Hloop; lia.
  - apply IHa. intros i1 s1 c1 Hi1 Hs1. apply H; assumption.
  - destruct (i =? 0)%nat; [apply H; lia | reflexivity].
Qed.

Lemma run_no_continuation r i s c :
  run r i s c (fun _ _ _ => @None R) = None.
Proof.
  destruct (run r i s c (fun _ _ _ => None)) as [res | ] eqn:H;
    [ | reflexivity].
  apply run_through_continuation in H as (? & ? & ? & H). discriminate.
Qed.

(** On the empty input the loop makes no round. *)
Lemma starLoop_nil a k fuel i c :
  starLoop (run a) k fuel i [] c = k i [] c.
Proof.
  destruct fuel as [ | fuel]; cbn [starLoop]; [reflexivity | ].
  rewrite (run_ext a i [] c _ (fun _ _ _ => None)).
  - rewrite run_no_continuation. reflexivity.
  - intros i' s' c' Hi Hs. simpl in Hs.
    replace i' with i by lia. rewrite Nat.ltb_irrefl. reflexivity.
Qed.

(** The length of the input is fuel enough: more changes nothing. *)
Lemma starLoop_fuel a k :
  forall n m i s c,
    (length s <= n)%nat -> (length s <= m)%nat ->
    starLoop (run a) k n i s c = starLoop (run a) k m i s c.
Proof.
  induction n as [ | n IH]; intros m i s c Hn Hm.
  - destruct s; [ | simpl in Hn; lia]. rewrite !starLoop_nil. reflexivity.
  - destruct m as [ | m].
    + destruct s; [ | simpl in Hm; lia]. rewrite !starLoop_nil. reflexivity.
    + cbn [starLoop].
      rewrite (run_ext a i s c _
                 (fun i' s' c' =>
                    if (i <? i')%nat
                    then starLoop (run a) k m i' s' c' else None));
        [reflexivity | ].
      intros i' s' c' Hi Hs.
      destruct (i <? i')%nat eqn:Hlt; [ | reflexivity].
      apply Nat.ltb_lt in Hlt. apply IH; lia.
Qed.

Lemma run_Star_fuel a i s c k n :
  (length s <= n)%nat ->
  run (Star a) i s c k = starLoop (run a) k n i s c.
Proof. intros Hn. cbn [run]. apply starLoop_fuel; [lia | exact Hn]. Qed.

End MatcherFacts.

(** The captures a search reports are those of a successful run. *)
Lemma search_run r : forall s i m,
  search r i s = Some m ->
  exists j s' e,
    run r j s' [] (fun i' _ c' => Some (i', c')) = Some (e, m_caps m).
Proof.
  induction s as [ | x s IH]; intros i m H; simpl in H.
  - destruct (run r i [] [] _) as [[e c] | ] eqn:Hr; [ | discriminate].
    injection H as <-. simpl. eauto.
  - destruct (run r i (x :: s) [] _) as [[e c] | ] eqn:Hr.
    + injection H as <-. simpl. eauto.
    + eauto.
Qed.

(** Group 2 of the view-count pattern takes part in every match: the
    [match[2].toUpperCase()] of [parseViewCount] has a string to work on. *)
Lemma re_count_group2 cleaned m :
  matchRe cleaned re_count = Some m -> is_Some (group 2 m).
Proof.
  intros H. apply search_run in H as (j & s' & e & H).
  unfold re_count in H.
  rewrite run_Seq in H. apply run_through_continuation in H as (i1 & s1 & c1 & H).
  rewrite run_Seq in H. apply run_through_continuation in H as (i2 & s2 & c2 & H).
  rewrite run_Grp in H. apply run_through_continuation in H as (i3 & s3 & c3 & H).
  injection H as _ H. unfold group. rewrite <- H. simpl. eauto.
Qed.

(* ------------------------------------------------------------------ *)
(** ** The quantity parsers *)
(* ------------------------------------------------------------------ *)

Lemma parseViewCount_string_normal s :
  exists n, parseViewCount (VString s) = Normal n.
Proof.
  unfold parseViewCount.
  destruct (negb (truthy (VString s))); [eauto | ].
  destruct (matchRe _ re_count) as [m | ] eqn:Hm; [ | eauto].
  destruct (re_count_group2 _ _ Hm) as [m2 ->].
  repeat (destruct (jsstring_eqb _ _); [eauto | ]). eauto.
Qed.

Lemma parseDuration_string_normal s :
  exists n, parseDuration (VString s) = Normal n.
Proof.
  unfold parseDuration.
  destruct (negb (truthy (VString s))); [eauto | ].
  destruct (includes _ _); [ | eauto].
  destruct (existsb _ _); [eauto | ].
  destruct (colonParts _) as [ | p0 [ | p1 [ | p2 [ | p3 l]]]]; eauto.
Qed.

Lemma parseVideoAge_string_normal s :
  exists n, parseVideoAge (VString s) = Normal n.
Proof.
  unfold parseVideoAge.
  destruct (negb (truthy (VString s))); [eauto | ].
  destruct (matchRe _ _); eauto.
Qed.

(** C8.  [parseViewCount], [parseDuration] and [parseVideoAge] are total
    over a string, [null] or [undefined]: each call completes normally
    with a number, and never throws. *)
Theorem parsers_never_throw_on_text (text : value) :
  isText text ->
  (exists n, parseViewCount text = Normal n)
  /\ (exists n, parseDuration text = Normal n)
  /\ (exists n, parseVideoAge text = Normal n).
Proof.
  destruct text as [ | | b | n | s | l | o]; simpl; try contradiction; intros _.
  - repeat split; eexists; reflexivity.
  - repeat split; eexists; reflexivity.
  - auto using parseViewCount_string_normal, parseDuration_string_normal,
      parseVideoAge_string_normal.
Qed.

Lemma parsers_never_throw_on_text_witness :
  isText (VString (js "1.4K views"))
  /\ (exists n, parseViewCount (VString (js "1.4K views")) = Normal n)
  /\ (exists n, parseDuration (VString (js "1.4K views")) = Normal n)
  /\ (exists n, parseVideoAge (VString (js "1.4K views")) = Normal n).
Proof.
  split; [exact I | ].
  apply (parsers_never_throw_on_text (VString (js "1.4K views"))). exact I.
Defined.

(** Outside the documented arguments the first method call throws: the
    completion type is not there for show. *)
Example parseViewCount_on_a_number :
  parseViewCount (VNumber (ofZ 5)) = ThrowTypeError
  /\ parseDuration (VBool true) = ThrowTypeError
  /\ parseVideoAge (VArray []) = ThrowTypeError.
Proof. repeat split; reflexivity. Qed.

(** Integer-valued numbers add and multiply as integers. *)
Lemma ofZ_mul a b : ofZ a *n ofZ b = ofZ (a * b).
Proof.
  unfold ofZ, num_mul, fin. f_equal. unfold inject_Z, Qmult; simpl.
  apply Qred_identity. simpl. apply Z.gcd_1_r.
Qed.

Lemma ofZ_add a b : ofZ a +n ofZ b = ofZ (a + b).
Proof.
  unfold ofZ, num_add, fin. f_equal. unfold inject_Z, Qplus; simpl.
  rewrite !Z.mul_1_r.
  apply Qred_identity. simpl. apply Z.gcd_1_r.
Qed.

Lemma digit_range c : isDigit c = true -> (48 <= c <= 57)%N.
Proof.
  unfold isDigit. intros H. apply andb_true_iff in H as [H1 H2].
  apply N.leb_le in H1, H2. lia.
Qed.

(** Closing [isWhiteSpace c = false] from range facts on [c]. *)
Ltac not_space c :=
  unfold isWhiteSpace;
  repeat match goal with
         | |- context [(c =? ?k)%N] =>
             rewrite (proj2 (N.eqb_neq c k)) by lia
         end;
  rewrite (proj2 (N.leb_gt c 13)) by lia;
  rewrite (proj2 (N.leb_gt 8192 c)) by lia;
  rewrite andb_false_r; reflexivity.

Lemma digit_not_space c : isDigit c = true -> isWhiteSpace c = false.
Proof. intros H. apply digit_range in H. not_space c. Qed.

Lemma digit_not_colon c : isDigit c = true -> (c =? cu ":")%N = false.
Proof.
  intros H. apply digit_range in H. apply N.eqb_neq.
  change (cu ":") with 58%N. lia.
Qed.

Lemma digit_not_sign c s : isDigit c = true -> takeSign (c :: s) = (false, c :: s).
Proof.
  intros H. apply digit_range in H. unfold takeSign.
  destruct c as [ | p]; [lia | ].
  do 6 (destruct p as [p | p | ]; try reflexivity); lia.
Qed.

Lemma trimStart_app_keep l c :
  isWhiteSpace c = false -> exists l', trimStart (l ++ [c]) = l' ++ [c].
Proof.
  intros Hc. induction l as [ | x l IH]; simpl.
  - rewrite Hc. exists []. reflexivity.
  - destruct (isWhiteSpace x); [exact IH | ]. exists (x :: l). reflexivity.
Qed.

Lemma trimStart_fixed c s : isWhiteSpace c = false -> trimStart (c :: s) = c :: s.
Proof. intros H. simpl. rewrite H. reflexivity. Qed.

Lemma trimEnd_fixed s c :
  isWhiteSpace c = false -> trimEnd (s ++ [c]) = s ++ [c].
Proof.
  intros H. unfold trimEnd. rewrite rev_unit, (trimStart_fixed _ _ H).
  simpl. rewrite rev_involutive. reflexivity.
Qed.

(** What [trim] keeps of a string that starts with a non-space unit
    still starts with it. *)
Lemma trimEnd_head c s :
  isWhiteSpace c = false -> exists s', trimEnd (c :: s) = c :: s'.
Proof.
  intros H. unfold trimEnd. simpl.
  destruct (trimStart_app_keep (rev s) c H) as [l' ->].
  rewrite rev_unit. eauto.
Qed.

Lemma isDigits_cons s :
  isDigits s = true ->
  exists c s', s = c :: s' /\ isDigit c = true /\ forallb isDigit s' = true.
Proof.
  destruct s as [ | c s']; simpl; [discriminate | ].
  intros H. apply andb_true_iff in H as [H1 H2]. eauto.
Qed.

Lemma isDigits_snoc s :
  isDigits s = true ->
  exists s' c, s = s' ++ [c] /\ isDigit c = true.
Proof.
  intros H. destruct s as [ | x s] using rev_ind; [discriminate | ].
  exists s, x. split; [reflexivity | ].
  assert (Hall : forallb isDigit (s ++ [x]) = true).
  { destruct (s ++ [x]); [reflexivity | exact H]. }
  rewrite forallb_app in Hall. apply andb_true_iff in Hall as [_ Hx].
  simpl in Hx. rewrite andb_true_r in Hx. exact Hx.
Qed.

Lemma isDigits_all s : isDigits s = true -> forallb isDigit s = true.
Proof. destruct s; [discriminate | auto]. Qed.

(** A string that starts and ends with a digit is its own [trim]. *)
Lemma trim_between_digits a b :
  isDigits a = true -> isDigits b = true -> forall mid,
  trim (a ++ mid ++ b) = a ++ mid ++ b.
Proof.
  intros Ha Hb mid.
  apply isDigits_cons in Ha as (c & a' & -> & Hc & _).
  apply isDigits_snoc in Hb as (b' & d & -> & Hd).
  unfold trim. simpl. rewrite (digit_not_space _ Hc).
  replace (c :: a' ++ mid ++ b' ++ [d]) with ((c :: a' ++ mid ++ b') ++ [d])
    by (simpl; rewrite <- !app_assoc; reflexivity).
  apply trimEnd_fixed, digit_not_space, Hd.
Qed.

Lemma trim_digits a : isDigits a = true -> trim a = a.
Proof.
  intros Ha. destruct (isDigits_cons _ Ha) as (c & a' & -> & Hc & Ha').
  destruct a' as [ | x a'].
  - unfold trim. simpl. rewrite (digit_not_space _ Hc).
    apply (trimEnd_fixed [] c), digit_not_space, Hc.
  - assert (Hb : isDigits (x :: a') = true) by exact Ha'.
    change (c :: x :: a') with ([c] ++ [] ++ x :: a').
    apply trim_between_digits; [ | exact Hb].
    simpl. rewrite Hc. reflexivity.
Qed.

Lemma includes_colon a b : includes (a ++ cu ":" :: b) (js ":") = true.
Proof.
  change (js ":") with [58%N]. change (cu ":") with 58%N.
  induction a as [ | x a IH]; cbn [app includes stripPrefix].
  - reflexivity.
  - destruct (58 =? x)%N; [reflexivity | exact IH].
Qed.

Lemma split_no_colon s :
  forallb isDigit s = true -> split (cu ":") s = [s].
Proof.
  induction s as [ | c s IH]; cbn [split forallb]; [reflexivity | ].
  intros H. apply andb_true_iff in H as [Hc Hs].
  rewrite (digit_not_colon _ Hc), (IH Hs). reflexivity.
Qed.

Lemma split_at_colon a b :
  forallb isDigit a = true ->
  split (cu ":") (a ++ cu ":" :: b) = a :: split (cu ":") b.
Proof.
  induction a as [ | c a IH]; cbn [split forallb app].
  { rewrite N.eqb_refl. reflexivity. }
  intros H. apply andb_true_iff in H as [Hc Hs].
  rewrite (digit_not_colon _ Hc), (IH Hs). reflexivity.
Qed.

Lemma span_digits s : forallb isDigit s = true -> span isDigit s = (s, []).
Proof.
  induction s as [ | c s IH]; simpl; [reflexivity | ].
  intros H. apply andb_true_iff in H as [Hc Hs].
  rewrite Hc, (IH Hs). reflexivity.
Qed.

(** [parseInt(_, 10)] reads a run of digits as its decimal value. *)
Lemma parseInt10_digits a :
  isDigits a = true -> parseInt10 (trim a) = ofZ (digitsValue a).
Proof.
  intros Ha. rewrite (trim_digits _ Ha).
  destruct (isDigits_cons _ Ha) as (c & a' & -> & Hc & Ha').
  unfold parseInt10. rewrite (trimStart_fixed _ _ (digit_not_space _ Hc)).
  rewrite (digit_not_sign _ _ Hc).
  rewrite span_digits by (simpl; rewrite Hc; exact Ha').
  reflexivity.
Qed.

Lemma digitsValue_nonneg_step ds : forall acc,
  (0 <= acc)%Z ->
  (0 <= fold_left (fun acc d => acc * 10 + Z.of_N (d - 48)) ds acc)%Z.
Proof.
  induction ds as [ | d ds IH]; simpl; intros acc H; [exact H | ].
  apply IH. lia.
Qed.

Lemma isNaN_ofZ z : isNaN (ofZ z) = false.
Proof. reflexivity. Qed.

Lemma trimStart_head s c s' : trimStart s = c :: s' -> isWhiteSpace c = false.
Proof.
  induction s as [ | x s IH]; simpl; [discriminate | ].
  destruct (isWhiteSpace x) eqn:Hx; [exact IH | ].
  intros H. injection H as <- _. exact Hx.
Qed.

Lemma trimStart_trim s : trimStart (trim s) = trim s.
Proof.
  unfold trim. destruct (trimStart s) as [ | c x] eqn:Hx; [reflexivity | ].
  pose proof (trimStart_head _ _ _ Hx) as Hc.
  destruct (trimEnd_head c x Hc) as [s' ->].
  apply trimStart_fixed, Hc.
Qed.

Lemma span_head p c s : fst (span p (c :: s)) = [] <-> p c = false.
Proof.
  simpl. destruct (p c); [ | tauto].
  destruct (span p s). simpl. split; discriminate.
Qed.


Lemma trimStart_keeps c s :
  isWhiteSpace c = false -> In c s -> In c (trimStart s).
Proof.
  intros Hc. induction s as [ | x s IH]; simpl; [tauto | ].
  intros [-> | H].
  - rewrite Hc. left. reflexivity.
  - destruct (isWhiteSpace x); [auto | right; exact H].
Qed.

Lemma trim_keeps c s : isWhiteSpace c = false -> In c s -> In c (trim s).
Proof.
  intros Hc H. unfold trim, trimEnd.
  apply in_rev. rewrite rev_involutive.
  apply trimStart_keeps; [exact Hc | ].
  apply in_rev. rewrite rev_involutive.
  apply trimStart_keeps; assumption.
Qed.

Lemma includes_colon_In s : In (cu ":") s -> includes s (js ":") = true.
Proof.
  change (js ":") with [58%N]. change (cu ":") with 58%N.
  induction s as [ | x s IH]; cbn [includes stripPrefix]; [intros [] | ].
  intros [-> | H].
  - rewrite N.eqb_refl. reflexivity.
  - destruct (58 =? x)%N; [reflexivity | auto].
Qed.

Lemma contains_colon_truthy text :
  In (cu ":") text -> truthy (VString text) = true.
Proof. destruct text; [intros [] | reflexivity]. Qed.

Lemma parseDuration_colon text :
  In (cu ":") text ->
  parseDuration (VString text) =
  let parts := colonParts (trim text) in
  if existsb isNaN parts then Normal (ofZ 0)
  else match parts with
       | [p0; p1] => Normal (p0 *n ofZ 60 +n p1)
       | [p0; p1; p2] => Normal (p0 *n ofZ 3600 +n p1 *n ofZ 60 +n p2)
       | _ => Normal (parseDurationText (trim text))
       end.
Proof.
  intros H. unfold parseDuration.
  rewrite (contains_colon_truthy _ H). cbn [negb].
  rewrite includes_colon_In by (apply trim_keeps; [reflexivity | exact H]).
  reflexivity.
Qed.




(** *** The view-count parser on its documented inputs *)

Lemma plain_cases c :
  plainUnit c = true ->
  isWhiteSpace c = false
  /\ (c =? 44)%N = false
  /\ (upperUnit c =? upperUnit (cu "v"))%N = false.
Proof.
  unfold plainUnit, isSuffixUnit. intros H.
  assert (Hc : (48 <= c <= 57)%N \/ c = 46%N
               \/ In c [75; 107; 77; 109; 66; 98]%N).
  { apply orb_true_iff in H as [H | H];
      [apply orb_true_iff in H as [H | H] | ].
    - left. apply digit_range, H.
    - right. left. apply N.eqb_eq, H.
    - right. right. apply existsb_exists in H as (x & Hx & Hcx).
      apply N.eqb_eq in Hcx. subst x. exact Hx. }
  destruct Hc as [Hc | [-> | Hc]].
  - split; [not_space c | ]. split; [apply N.eqb_neq; lia | ].
    apply N.eqb_neq. unfold upperUnit, isLowerAscii.
    rewrite (proj2 (N.leb_gt 97 c)) by lia. simpl. change (cu "v") with 118%N.
    simpl. lia.
  - repeat split.
  - simpl in Hc.
    destruct Hc as [<- | [<- | [<- | [<- | [<- | [<- | []]]]]]]; repeat split.
Qed.

(** The search for [/views?/i] passes over units that are not a "v". *)
Lemma search_views_skip pre : forall rest i,
  Forall (fun c => (upperUnit c =? upperUnit (cu "v"))%N = false) pre ->
  search re_views i (pre ++ rest)
  = search re_views (i + length pre) rest.
Proof.
  induction pre as [ | c pre IH]; intros rest i Hpre.
  - simpl. rewrite Nat.add_0_r. reflexivity.
  - inversion Hpre as [ | ? ? Hc Hrest]; subst.
    cbn [app search].
    replace (run re_views i (c :: pre ++ rest) [] _) with (@None (nat * captures)).
    + rewrite (IH rest (S i) Hrest). cbn [length].
      rewrite Nat.add_succ_r. reflexivity.
    + unfold re_views. cbn [str_i]. rewrite !run_Seq.
      unfold chr_i at 1. cbn [run]. rewrite Hc. reflexivity.
Qed.

Lemma offset_back n i : (n + i - i)%nat = n.
Proof. lia. Qed.

(** Cutting the word out of a written count leaves the count and, if
    there was a word, the space before it. *)
Lemma removeFirst_views body tail :
  Forall (fun c => plainUnit c = true) body ->
  isCountTail tail ->
  removeFirst (body ++ tail) re_views
  = body ++ match tail with [] => [] | _ => js " " end.
Proof.
  intros Hbody Htail.
  assert (Hv : Forall (fun c => (upperUnit c =? upperUnit (cu "v"))%N = false)
                      body).
  { eapply Forall_impl; [exact Hbody | ]. intros c Hc. apply plain_cases, Hc. }
  assert (Hv' : Forall (fun c => (upperUnit c =? upperUnit (cu "v"))%N = false)
                       (body ++ js " ")).
  { apply Forall_app. split; [exact Hv | repeat constructor]. }
  unfold removeFirst, matchRe.
  destruct Htail as [-> | [-> | ->]].
  - rewrite (search_views_skip body [] 0 Hv). reflexivity.
  - change (js " views") with (js " " ++ js "views").
    rewrite app_assoc, (search_views_skip _ _ 0 Hv'). cbn [Nat.add].
    set (n := length (body ++ js " ")).
    replace (search re_views n (js "views"))
      with (Some (RegMatch n (take (5 + n - n) (js "views")) []))
      by reflexivity.
    rewrite offset_back. cbn [m_index m_text].
    subst n. rewrite take_app_length, drop_app_add.
    replace (drop (length (take 5 (js "views"))) (js "views"))
      with (@nil N) by reflexivity.
    rewrite app_nil_r. reflexivity.
  - change (js " view") with (js " " ++ js "view").
    rewrite app_assoc, (search_views_skip _ _ 0 Hv'). cbn [Nat.add].
    set (n := length (body ++ js " ")).
    replace (search re_views n (js "view"))
      with (Some (RegMatch n (take (4 + n - n) (js "view")) []))
      by reflexivity.
    rewrite offset_back. cbn [m_index m_text].
    subst n. rewrite take_app_length, drop_app_add.
    replace (drop (length (take 4 (js "view"))) (js "view"))
      with (@nil N) by reflexivity.
    rewrite app_nil_r. reflexivity.
Qed.

Lemma removeCommas_plain body :
  Forall (fun c => (c =? 44)%N = false) body -> removeCommas body = body.
Proof.
  unfold removeCommas. induction 1 as [ | c body Hc _ IH]; simpl;
    [reflexivity | ].
  rewrite Hc, IH. reflexivity.
Qed.

Lemma trimEnd_space s : trimEnd (s ++ js " ") = trimEnd s.
Proof. unfold trimEnd. rewrite rev_app_distr. reflexivity. Qed.

(** What [parseViewCount] is left with after its three clean-up steps. *)
Lemma cleaned_count c body tail :
  isDigit c = true ->
  Forall (fun c => plainUnit c = true) body ->
  isCountTail tail ->
  trim (removeCommas (removeFirst ((c :: body) ++ tail) re_views))
  = c :: body.
Proof.
  intros Hc Hbody Htail.
  assert (Hall : Forall (fun c => plainUnit c = true) (c :: body)).
  { constructor; [unfold plainUnit; rewrite Hc; reflexivity | exact Hbody]. }
  rewrite (removeFirst_views _ _ Hall Htail).
  assert (Hkeep : removeCommas ((c :: body)
                     ++ match tail with [] => [] | _ => js " " end)
                  = (c :: body) ++ match tail with [] => [] | _ => js " " end).
  { apply removeCommas_plain, Forall_app. split.
    - eapply Forall_impl; [exact Hall | ]. intros x Hx. apply plain_cases, Hx.
    - destruct tail; repeat constructor. }
  rewrite Hkeep. unfold trim.
  assert (Hstart : forall t, trimStart ((c :: body) ++ t) = (c :: body) ++ t).
  { intros t. apply (trimStart_fixed c (body ++ t)), digit_not_space, Hc. }
  rewrite Hstart.
  assert (Hend : trimEnd (c :: body) = c :: body).
  { destruct (exists_last (l := c :: body)) as (front & z & Hz);
      [discriminate | ].
    rewrite Hz. apply trimEnd_fixed.
    assert (Hin : In z (c :: body)) by (rewrite Hz; apply in_or_app; simpl; auto).
    rewrite Forall_forall in Hall. apply plain_cases, Hall.
    apply list_elem_of_In, Hin. }
  destruct tail; [rewrite app_nil_r | rewrite trimEnd_space]; exact Hend.
Qed.

Lemma run_Chr_cons {R} p x s i c
    (k : nat -> jsstring -> captures -> option R) :
  run (Chr p) i (x :: s) c k = if p x then k (S i) s c else None.
Proof. reflexivity. Qed.

Lemma run_Chr_nil {R} p i c (k : nat -> jsstring -> captures -> option R) :
  run (Chr p) i [] c k = None.
Proof. reflexivity. Qed.

(** A greedy loop over a character class takes the whole run of units
    of the class, as long as the rest of the pattern then succeeds. *)
Lemma starLoop_class {R} p (k : nat -> jsstring -> captures -> option R) :
  forall run_ rest fuel i c,
    forallb p run_ = true ->
    match rest with x :: _ => p x = false | [] => True end ->
    (length (run_ ++ rest) <= fuel)%nat ->
    is_Some (k (i + length run_)%nat rest c) ->
    starLoop (run (Chr p)) k fuel i (run_ ++ rest) c
    = k (i + length run_)%nat rest c.
Proof.
  induction run_ as [ | x run_ IH]; intros rest fuel i c Hrun Hrest Hfuel Hk.
  - cbn [app length] in *. rewrite Nat.add_0_r in *.
    destruct fuel as [ | fuel]; cbn [starLoop]; [reflexivity | ].
    destruct rest as [ | y rest];
      [rewrite run_Chr_nil | rewrite run_Chr_cons, Hrest]; reflexivity.
  - cbn [forallb] in Hrun. apply andb_true_iff in Hrun as [Hx Hrun].
    cbn [app length] in *. rewrite Nat.add_succ_r in *.
    destruct fuel as [ | fuel]; [lia | ]. cbn [starLoop].
    rewrite run_Chr_cons, Hx.
    rewrite (proj2 (Nat.ltb_lt i (S i))) by lia.
    rewrite (IH rest fuel (S i) c Hrun Hrest) by (try lia; exact Hk).
    cbn [Nat.add] in *. destruct Hk as [res Hk]. rewrite Hk. reflexivity.
Qed.

Lemma suffix_not_numeral c :
  isSuffixUnit c = true ->
  isDigit c || (c =? 46)%N = false /\ isWhiteSpace c = false.
Proof.
  unfold isSuffixUnit. intros H. apply existsb_exists in H as (x & Hx & Hcx).
  apply N.eqb_eq in Hcx. subst x. simpl in Hx.
  destruct Hx as [<- | [<- | [<- | [<- | [<- | [<- | []]]]]]]; split; reflexivity.
Qed.

(** The tail of the pattern, [\s*([KMB]?)], on a written suffix. *)
Lemma run_suffix i sfx c0 :
  isSuffixText sfx ->
  run (Seq (Star space)
         (Grp 2 (Opt (Alt (chr_i "K") (Alt (chr_i "M") (chr_i "B"))))))
      i sfx c0 (fun i' _ c' => Some (i', c'))
  = Some ((i + length sfx)%nat, (2%nat, sfx) :: c0).
Proof.
  intros [-> | (x & -> & Hx)].
  - rewrite run_Seq. cbn [run length starLoop Opt].
    rewrite Nat.sub_diag, Nat.add_0_r. reflexivity.
  - assert (Hone : (S i - i)%nat = 1%nat) by lia.
    unfold isSuffixUnit in Hx. apply existsb_exists in Hx as (y & Hy & Hxy).
    apply N.eqb_eq in Hxy. subst y. simpl in Hy. rewrite Nat.add_1_r.
    destruct Hy as [<- | [<- | [<- | [<- | [<- | [<- | []]]]]]];
      cbn; rewrite Hone; reflexivity.
Qed.

(** The match of [/([\d\.]+)\s*([KMB]?)/i] on a written count: group 1
    is the numeral, group 2 the suffix. *)
Lemma match_count c num sfx :
  isDigit c = true ->
  forallb (fun c => isDigit c || (c =? 46)%N) num = true ->
  isSuffixText sfx ->
  matchRe ((c :: num) ++ sfx) re_count
  = Some (RegMatch 0 ((c :: num) ++ sfx) [(2%nat, sfx); (1%nat, c :: num)]).
Proof.
  intros Hc Hnum Hsfx. unfold matchRe.
  assert (Hrun : run re_count 0 ((c :: num) ++ sfx) []
                   (fun i' _ c' => Some (i', c'))
                 = Some (length ((c :: num) ++ sfx),
                         [(2%nat, sfx); (1%nat, c :: num)])).
  { unfold re_count, Plus. rewrite run_Seq, run_Grp, run_Seq.
    cbn [app]. rewrite run_Chr_cons, Hc. cbn [orb].
    change (run (Star ?a) ?i ?s ?c0 ?k)
      with (starLoop (run a) k (length s) i s c0).
    match goal with
    | |- starLoop _ ?k0 _ _ _ _ = _ => set (k := k0)
    end.
    assert (Hk : k (1 + length num)%nat sfx []
                 = Some (length ((c :: num) ++ sfx),
                         [(2%nat, sfx); (1%nat, c :: num)])).
    { subst k. cbv beta. rewrite Nat.sub_0_r.
      change (c :: num ++ sfx) with ((c :: num) ++ sfx).
      replace (1 + length num)%nat with (length (c :: num)) by reflexivity.
      rewrite take_app_length, (run_suffix _ _ _ Hsfx), length_app.
      reflexivity. }
    rewrite (starLoop_class _ k num sfx (length (num ++ sfx)) 1 [] Hnum).
    - exact Hk.
    - destruct Hsfx as [-> | (x & -> & Hx)]; [exact I | ].
      apply suffix_not_numeral, Hx.
    - lia.
    - rewrite Hk. eauto. }
  destruct ((c :: num) ++ sfx) as [ | y whole] eqn:Hwhole; [discriminate | ].
  cbn [search]. rewrite Hrun. rewrite Nat.sub_0_r, firstn_all. reflexivity.
Qed.

Lemma span_digits_app a rest :
  forallb isDigit a = true ->
  span isDigit (a ++ rest)
  = (a ++ fst (span isDigit rest), snd (span isDigit rest)).
Proof.
  induction a as [ | c a IH]; cbn [app forallb span]; intros H.
  - destruct (span isDigit rest); reflexivity.
  - apply andb_true_iff in H as [Hc Ha]. rewrite Hc, (IH Ha). reflexivity.
Qed.

Lemma fin_eq x y : (x == y)%Q -> fin x = fin y.
Proof. intros H. unfold fin. f_equal. apply Qred_complete, H. Qed.

(** [parseFloat] reads a written numeral as the rational it denotes. *)
Lemma parseFloat_numeral ip fp :
  isDigits ip = true ->
  forallb isDigit fp = true ->
  parseFloat (ip ++ fractionText fp) = fin (decimalValue ip fp).
Proof.
  intros Hip Hfp.
  destruct (isDigits_cons _ Hip) as (c & ip' & -> & Hc & Hip').
  assert (Hall : forallb isDigit (c :: ip') = true)
    by (simpl; rewrite Hc; exact Hip').
  unfold parseFloat. cbn [app].
  rewrite (trimStart_fixed _ _ (digit_not_space _ Hc)).
  rewrite (digit_not_sign _ _ Hc).
  change (js "Infinity") with (73%N :: js "nfinity"). cbn [stripPrefix].
  rewrite (proj2 (N.eqb_neq 73 c)) by (apply digit_range in Hc; lia).
  change (c :: ip' ++ fractionText fp) with ((c :: ip') ++ fractionText fp).
  rewrite (span_digits_app _ _ Hall).
  destruct fp as [ | d fp].
  - cbn [fractionText span fst snd]. rewrite app_nil_r.
    apply fin_eq. unfold decimalValue. cbn [exponentPart Qpower].
    apply Qmult_1_r.
  - cbn [fractionText]. change (cu ".") with 46%N.
    replace (span isDigit (46%N :: d :: fp)) with ([] : jsstring, 46%N :: d :: fp)
      by reflexivity.
    cbn [fst snd]. rewrite app_nil_r, (span_digits _ Hfp).
    apply fin_eq. unfold decimalValue. cbn [exponentPart Qpower].
    apply Qmult_1_r.
Qed.

Lemma fraction_plain fp :
  forallb isDigit fp = true ->
  forallb (fun c => isDigit c || (c =? 46)%N) (fractionText fp) = true.
Proof.
  intros H. assert (Hfp : forallb (fun c => isDigit c || (c =? 46)%N) fp = true).
  { apply forallb_forall. intros x Hx.
    rewrite (proj1 (forallb_forall _ _) H x Hx). reflexivity. }
  destruct fp; [reflexivity | exact Hfp].
Qed.

Lemma numeral_units_plain l :
  forallb (fun c => isDigit c || (c =? 46)%N) l = true ->
  Forall (fun c => plainUnit c = true) l.
Proof.
  intros H. apply Forall_forall. intros x Hx.
  apply list_elem_of_In in Hx.
  unfold plainUnit. rewrite (proj1 (forallb_forall _ _) H x Hx). reflexivity.
Qed.

Lemma suffix_units_plain sfx :
  isSuffixText sfx -> Forall (fun c => plainUnit c = true) sfx.
Proof.
  intros [-> | (x & -> & Hx)]; [constructor | ].
  repeat constructor. unfold plainUnit. rewrite Hx. apply orb_true_r.
Qed.

(** On a view count as the page writes it -- digits, an optional
    fraction, an optional suffix K, M or B in either case, an optional
    " views" or " view" -- [parseViewCount] returns the number written,
    times 1e3, 1e6 or 1e9 for the suffix. *)
Lemma parseViewCount_written_count ip fp sfx tail :
  isDigits ip = true ->
  forallb isDigit fp = true ->
  isSuffixText sfx ->
  isCountTail tail ->
  parseViewCount (VString (ip ++ fractionText fp ++ sfx ++ tail))
  = Normal (fin (decimalValue ip fp * inject_Z (multiplier sfx))).
Proof.
  intros Hip Hfp Hsfx Htail.
  pose proof (parseFloat_numeral ip fp Hip Hfp) as Hfloat.
  destruct (isDigits_cons _ Hip) as (c & ip' & -> & Hc & Hip').
  set (num := ip' ++ fractionText fp) in *.
  assert (Hnum : forallb (fun c => isDigit c || (c =? 46)%N) num = true).
  { subst num. rewrite forallb_app, (fraction_plain _ Hfp), andb_true_r.
    apply forallb_forall. intros x Hx.
    rewrite (proj1 (forallb_forall _ _) Hip' x Hx). reflexivity. }
  replace ((c :: ip') ++ fractionText fp ++ sfx ++ tail)
    with ((c :: num ++ sfx) ++ tail)
    by (subst num; cbn [app]; rewrite <- !app_assoc; reflexivity).
  unfold parseViewCount. cbn [truthy app negb].
  change (c :: (num ++ sfx) ++ tail) with ((c :: num ++ sfx) ++ tail).
  rewrite (cleaned_count c (num ++ sfx) tail Hc)
    by first
         [ exact Htail
         | apply Forall_app; split;
           [apply numeral_units_plain, Hnum | apply suffix_units_plain, Hsfx] ].
  change (c :: num ++ sfx) with ((c :: num) ++ sfx).
  rewrite (match_count c num sfx Hc Hnum Hsfx).
  unfold parseFloatGroup, group. cbn [m_caps capture Nat.eqb].
  change (c :: num) with ((c :: ip') ++ fractionText fp). rewrite Hfloat.
  unfold multiplier.
  destruct (jsstring_eqb (toUpperCase sfx) (js "K"));
    [ | destruct (jsstring_eqb (toUpperCase sfx) (js "M"));
        [ | destruct (jsstring_eqb (toUpperCase sfx) (js "B"))]];
    cbn [num_mul fin ofZ]; f_equal; unfold fin; f_equal;
    try (apply Qred_complete; rewrite Qred_correct; reflexivity).
  apply Qred_complete. symmetry. apply Qmult_1_r.
Qed.

(** The two documented values, as instances. *)
Example parseViewCount_written_examples :
  parseViewCount (VString (js "1.4K views")) = Normal (ofZ 1400)
  /\ parseViewCount (VString (js "2.3M")) = Normal (ofZ 2300000).
Proof.
  split.
  - apply (parseViewCount_written_count (js "1") (js "4") (js "K")
             (js " views")); [reflexivity | reflexivity | | ].
    + right. exists 75%N. split; reflexivity.
    + right. left. reflexivity.
  - apply (parseViewCount_written_count (js "2") (js "3") (js "M") []);
      [reflexivity | reflexivity | | left; reflexivity].
    right. exists 77%N. split; reflexivity.
Qed.

(** The values the parser is documented with. *)
Example parseViewCount_examples :
  parseViewCount (VString (js "1.4K views")) = Normal (ofZ 1400)
  /\ parseViewCount (VString (js "2.3M")) = Normal (ofZ 2300000)
  /\ parseViewCount (VString (js "")) = Normal (ofZ 0)
  /\ parseViewCount (VString (js "No views")) = Normal (ofZ 0)
  /\ parseViewCount (VString (js "1,234,567 views")) = Normal (ofZ 1234567)
  /\ parseViewCount (VString (js "3.5b")) = Normal (ofZ 3500000000).
Proof. repeat split; vm_compute; reflexivity. Qed.

(** C5.  The documented values hold, but an input without a number is
    not always sent to 0: the pattern [[\d\.]+] accepts a lone dot,
    [parseFloat(".")] is [NaN], and the matching branch returns it as
    it is; only the branch after a failed match guards with [isNaN]. *)
Theorem parseViewCount_lone_dot :
  parseViewCount (VString (js ".")) = Normal NaN
  /\ parseViewCount (VString (js "Mr. Beast")) = Normal NaN
  /\ parseViewCount (VString (js "No views")) = Normal (ofZ 0)
  /\ parseViewCount (VString (js "1.4K views")) = Normal (ofZ 1400)
  /\ parseViewCount (VString (js "2.3M")) = Normal (ofZ 2300000)
  /\ parseViewCount (VString (js "")) = Normal (ofZ 0).
Proof. repeat split; vm_compute; reflexivity. Qed.

(* ------------------------------------------------------------------ *)
(** ** The filter predicates and their order *)
(* ------------------------------------------------------------------ *)

(** C2, as the filter-functions module has it: the missing view count
    is filtered there under the reason ["views"], not ["no-views"]. *)
Lemma modular_no_view_count_reason :
  let record := VideoData (Some (js "A mix")) None None None None in
  let s := Modular.Settings true false false false
             (ofZ 10000) (ofZ 0) (ofZ 0) (ofZ 0) [] in
  reason (Modular.checkViewsFilter record s) = Some "views"%string
  /\ reason (Modular.checkViewsFilter record s) <> Some "no-views"%string.
Proof. split; [reflexivity | discriminate]. Qed.

(** C2, amended.  With the views filter enabled and [minViews = 10000],
    a record without view-count text is filtered, with the details
    "No view count (likely Mix/Playlist)": under the reason ["no-views"]
    by [content.js], under the reason ["views"] by the filter-functions
    module.  With the duration filter enabled and a bound set, a record
    without duration text is not filtered, in both. *)
Theorem missing_data_asymmetry :
  (forall (record : videoData) (s : Content.settings),
      Content.viewsFilterEnabled s = true ->
      Content.minViews s = ofZ 10000 ->
      viewCount record = None ->
      Content.checkViewsFilter record s = filterOut "no-views" NoViewCount)
  /\ (forall (record : videoData) (s : Modular.settings),
      Modular.viewsFilterEnabled s = true ->
      Modular.minViews s = ofZ 10000 ->
      viewCount record = None ->
      Modular.checkViewsFilter record s = filterOut "views" NoViewCount)
  /\ (forall (record : videoData) (s : Content.settings),
      Content.durationFilterEnabled s = true ->
      num_truthy (Content.minDuration s) = true
      \/ num_truthy (Content.maxDuration s) = true ->
      duration record = None ->
      Content.checkDurationFilter record s = pass)
  /\ (forall (record : videoData) (s : Modular.settings),
      Modular.durationFilterEnabled s = true ->
      num_truthy (Modular.minDuration s) = true
      \/ num_truthy (Modular.maxDuration s) = true ->
      duration record = None ->
      Modular.checkDurationFilter record s = pass).
Proof.
  split; [ | split; [ | split]].
  - intros record s He Hm Hv. unfold Content.checkViewsFilter.
    rewrite He, Hm, Hv. reflexivity.
  - intros record s He Hm Hv. unfold Modular.checkViewsFilter.
    rewrite He, Hm, Hv. reflexivity.
  - intros record s He Hb Hd. unfold Content.checkDurationFilter.
    rewrite He, Hd. cbn [negb textValue truthy].
    destruct (_ && _); reflexivity.
  - intros record s He Hb Hd. unfold Modular.checkDurationFilter.
    rewrite He, Hd. cbn [negb textValue truthy].
    destruct (_ && _); reflexivity.
Qed.

Lemma missing_data_asymmetry_witness :
  let record := VideoData (Some (js "A mix")) None None None None in
  let c := Content.Settings true true false false
             (ofZ 10000) (ofZ 60) (ofZ 3600) (ofZ 0) [] in
  let m := Modular.Settings true true false false
             (ofZ 10000) (ofZ 60) (ofZ 3600) (ofZ 0) [] in
  Content.checkViewsFilter record c = filterOut "no-views" NoViewCount
  /\ Modular.checkViewsFilter record m = filterOut "views" NoViewCount
  /\ Content.checkDurationFilter record c = pass
  /\ Modular.checkDurationFilter record m = pass.
Proof.
  intros record c m.
  destruct missing_data_asymmetry as (Hcv & Hmv & Hcd & Hmd).
  split; [ | split; [ | split]].
  - apply Hcv; reflexivity.
  - apply Hmv; reflexivity.
  - apply Hcd; [reflexivity | left; reflexivity | reflexivity].
  - apply Hmd; [reflexivity | left; reflexivity | reflexivity].
Defined.

(** The reasons each variant's views predicate can give. *)
Lemma Content_views_reason record s :
  shouldFilter (Content.checkViewsFilter record s) = true ->
  reason (Content.checkViewsFilter record s) =
  Some (if truthy (textValue (viewCount record))
        then "views" else "no-views")%string.
Proof.
  unfold Content.checkViewsFilter.
  destruct (_ || _); [discriminate | ].
  destruct (truthy (textValue (viewCount record))); cbn [negb].
  - destruct (_ <n _); [reflexivity | discriminate].
  - reflexivity.
Qed.

Lemma Modular_views_reason record s :
  shouldFilter (Modular.checkViewsFilter record s) = true ->
  reason (Modular.checkViewsFilter record s) = Some "views"%string.
Proof.
  unfold Modular.checkViewsFilter.
  destruct (_ || _); [discriminate | ].
  destruct (negb _); [reflexivity | ].
  destruct (_ <n _); [reflexivity | discriminate].
Qed.

Lemma Content_duration_reason record s :
  shouldFilter (Content.checkDurationFilter record s) = true ->
  reason (Content.checkDurationFilter record s) = Some "duration"%string.
Proof.
  unfold Content.checkDurationFilter.
  repeat match goal with
         | |- context [if ?b then _ else _] =>
             destruct b; try discriminate; try reflexivity
         end.
Qed.

Lemma Content_triggeredFilter_order record s :
  Content.triggeredFilter record s =
  firstInOrder (Content.checkViewsFilter record s)
               (Content.checkDurationFilter record s)
               (Content.checkAgeFilter record s)
               (Content.checkKeywordsFilter record s).
Proof.
  unfold Content.triggeredFilter, Content.filters, firstInOrder.
  cbn [List.find]. reflexivity.
Qed.

Lemma Modular_applyAllFilters_order record s :
  Modular.applyAllFilters record s =
  firstInOrder (Modular.checkViewsFilter record s)
               (Modular.checkDurationFilter record s)
               (Modular.checkAgeFilter record s)
               (Modular.checkKeywordsFilter record s).
Proof.
  unfold Modular.applyAllFilters, Modular.getAllFilterFunctions, firstInOrder.
  cbn [Modular.applyFilters].
  repeat match goal with
         | |- context [shouldFilter ?r] =>
             lazymatch r with
             | Modular.checkChannelFilter _ _ => fail
             | _ => destruct (shouldFilter r); [reflexivity | ]
             end
         end.
  reflexivity.
Qed.

(** What [chrome.storage.sync.get(defaults, ...)] hands over holds the
    keys of the defaults and no other. *)
Lemma storageGet_lookup defaults area key :
  SettingsManager.storageGet defaults area !! key
  = (fun d => default d (area !! key)) <$> defaults !! key.
Proof.
  unfold SettingsManager.storageGet. rewrite map_lookup_imap.
  destruct (defaults !! key); reflexivity.
Qed.

Lemma loadedSettings_absent sync key :
  Setting.DEFAULT_SETTINGS !! key = None ->
  Modular.prop (ContentInit.loadedSettings sync) key = VUndefined.
Proof.
  intros H. unfold Modular.prop, ContentInit.loadedSettings.
  rewrite storageGet_lookup, H. reflexivity.
Qed.

(** The settings [content.js] holds have none of [keywordsFilterEnabled],
    [maxAge] and [bannedKeywords], the properties its keyword and age
    predicates read: the object has the keys of [setting.js], which
    names them [keywordFilterEnabled], [maxAgeYears] and [keywords]. *)
Lemma Content_filterSettings_read sync s :
  ContentInit.filterSettings sync = Some s ->
  Content.keywordsFilterEnabled s = false
  /\ Content.maxAge s = NaN
  /\ Content.bannedKeywords s = [].
Proof.
  unfold ContentInit.filterSettings, SettingsObject.forContent,
    SettingsObject.threshold, SettingsObject.keywordList,
    SettingsObject.flag.
  rewrite (loadedSettings_absent sync "keywordsFilterEnabled"),
    (loadedSettings_absent sync "maxAge"),
    (loadedSettings_absent sync "bannedKeywords") by reflexivity.
  intros H.
  destruct (match Modular.prop _ "minViews" with
            | VNumber n => Some n | VUndefined => Some NaN | _ => None
            end) as [x1 | ]; [ | discriminate].
  destruct (match Modular.prop _ "minDuration" with
            | VNumber n => Some n | VUndefined => Some NaN | _ => None
            end) as [x2 | ]; [ | discriminate].
  destruct (match Modular.prop _ "maxDuration" with
            | VNumber n => Some n | VUndefined => Some NaN | _ => None
            end) as [x3 | ]; [ | discriminate].
  cbn in H. injection H as <-. repeat split.
Qed.

(** So the keyword and the age predicate of [content.js] fail no
    record. *)
Lemma Content_keywords_never_fire sync s record :
  ContentInit.filterSettings sync = Some s ->
  Content.checkKeywordsFilter record s = pass.
Proof.
  intros H. destruct (Content_filterSettings_read _ _ H) as (Hk & _ & _).
  unfold Content.checkKeywordsFilter. rewrite Hk. reflexivity.
Qed.

Lemma Content_age_never_fires sync s record :
  ContentInit.filterSettings sync = Some s ->
  Content.checkAgeFilter record s = pass.
Proof.
  intros H. destruct (Content_filterSettings_read _ _ H) as (_ & Ha & _).
  unfold Content.checkAgeFilter. rewrite Ha.
  destruct (negb (Content.ageFilterEnabled s)); cbn [orb]; [reflexivity | ].
  change (NaN <=n ofZ 0) with false. cbv iota.
  destruct (negb (truthy _)); [reflexivity | ].
  destruct (returned _); reflexivity.
Qed.

(** C4.  Both orchestrators return the first decision with
    [shouldFilter = true] in the order views, duration, age, keyword, or
    none when all decline.  In the filter engine a record that fails
    both the views and the keyword predicate gets the decision of the
    views predicate, whose reason is ["views"], never ["keyword"].
    [content.js] holds the settings object that
    [chrome.storage.sync.get(DEFAULT_SETTINGS, ...)] hands over; its
    keyword predicate reads [keywordsFilterEnabled] off it, which that
    object does not have, so there the keyword predicate fails no
    record: a record that fails the views predicate gets its decision,
    and no decision has the reason ["keyword"]. *)
Theorem tie_break_views_first :
  (forall record s,
      Content.triggeredFilter record s =
      firstInOrder (Content.checkViewsFilter record s)
                   (Content.checkDurationFilter record s)
                   (Content.checkAgeFilter record s)
                   (Content.checkKeywordsFilter record s))
  /\ (forall record s,
      Modular.applyAllFilters record s =
      firstInOrder (Modular.checkViewsFilter record s)
                   (Modular.checkDurationFilter record s)
                   (Modular.checkAgeFilter record s)
                   (Modular.checkKeywordsFilter record s))
  /\ (forall record s,
      shouldFilter (Modular.checkViewsFilter record s) = true ->
      shouldFilter (Modular.checkKeywordsFilter record s) = true ->
      Modular.applyAllFilters record s = Some (Modular.checkViewsFilter record s)
      /\ reason (Modular.checkViewsFilter record s) = Some "views"%string
      /\ reason (Modular.checkViewsFilter record s) <> Some "keyword"%string)
  /\ (forall sync s record,
      ContentInit.filterSettings sync = Some s ->
      Content.checkKeywordsFilter record s = pass
      /\ (shouldFilter (Content.checkViewsFilter record s) = true ->
          Content.triggeredFilter record s
          = Some (Content.checkViewsFilter record s))
      /\ (forall f, Content.triggeredFilter record s = Some f ->
                    reason f <> Some "keyword"%string)).
Proof.
  split; [exact Content_triggeredFilter_order | ].
  split; [exact Modular_applyAllFilters_order | ].
  split.
  - intros record s Hv _.
    rewrite Modular_applyAllFilters_order. unfold firstInOrder. rewrite Hv.
    rewrite (Modular_views_reason _ _ Hv).
    repeat split. discriminate.
  - intros sync s record Hs.
    pose proof (Content_keywords_never_fire sync s record Hs) as Hk.
    pose proof (Content_age_never_fires sync s record Hs) as Ha.
    split; [exact Hk | ].
    rewrite Content_triggeredFilter_order. unfold firstInOrder.
    rewrite Hk, Ha. cbn [shouldFilter pass]. split.
    + intros ->. reflexivity.
    + intros f.
      destruct (shouldFilter (Content.checkViewsFilter record s)) eqn:Hv.
      * intros [= <-]. rewrite (Content_views_reason _ _ Hv).
        destruct (truthy _); discriminate.
      * destruct (shouldFilter (Content.checkDurationFilter record s))
          eqn:Hd; [ | discriminate].
        intros [= <-]. rewrite (Content_duration_reason _ _ Hd).
        discriminate.
Qed.

Lemma tie_break_views_first_witness :
  let record := VideoData (Some (js "Ending SPOILER Discussion"))
                          (Some (js "6K views")) None None None in
  let m := Modular.Settings true false true false
             (ofZ 10000) (ofZ 0) (ofZ 0) (ofZ 0) [js "spoiler"] in
  let c := Content.Settings true true true false
             (ofZ 10000) (ofZ 60) (ofZ 3600) NaN [] in
  (Modular.applyAllFilters record m = Some (Modular.checkViewsFilter record m)
   /\ reason (Modular.checkViewsFilter record m) = Some "views"%string
   /\ reason (Modular.checkViewsFilter record m) <> Some "keyword"%string)
  /\ ContentInit.filterSettings ∅ = Some c
  /\ Content.checkKeywordsFilter record c = pass
  /\ Content.triggeredFilter record c
     = Some (Content.checkViewsFilter record c).
Proof.
  intros record m c.
  destruct tie_break_views_first as (_ & _ & Hm & Hc).
  assert (Hs : ContentInit.filterSettings ∅ = Some c)
    by (vm_compute; reflexivity).
  split; [apply (Hm record m); vm_compute; reflexivity | ].
  split; [exact Hs | ].
  destruct (Hc ∅ c record Hs) as (Hk & Hv & _).
  split; [exact Hk | ]. apply Hv. vm_compute. reflexivity.
Defined.

(* ------------------------------------------------------------------ *)
(** ** The "No views" sentinel *)
(* ------------------------------------------------------------------ *)

Lemma positive_threshold m : (ofZ 0 <n m) = true -> (m <=n ofZ 0) = false.
Proof.
  destruct m as [ | | | y]; simpl; try discriminate; try reflexivity.
  intros H. apply negb_true_iff in H. exact H.
Qed.

(** C7, as [content.js] has it: the sentinel is a non-empty string, so
    [checkViewsFilter] does not take the "no view count" branch; it
    parses the sentinel to 0 and filters for low views. *)
Lemma no_views_sentinel_parsed_as_zero :
  let card := Element ∅ [] (fun _ => None)
                (Some (js "Lofi beats to relax to No views 2 days ago")) in
  let s := Content.Settings true false false false
             (ofZ 10000) (ofZ 0) (ofZ 0) (ofZ 0) [] in
  let record := Content.extractVideoData card in
  viewCount record = Some (js "No views")
  /\ Content.checkViewsFilter record s
     = filterOut "views" (LowViews (js "No views") (ofZ 0))
  /\ Content.checkViewsFilter record s
     <> Content.checkViewsFilter
          (VideoData (title record) None (duration record)
                     (publishTime record) (videoId record)) s.
Proof. vm_compute. repeat split; discriminate. Qed.

(** C7, amended.  When the visible text matches no numeric view-count
    pattern but contains "No views", the extractor records the string
    ["No views"], not [null].  Downstream the sentinel is an ordinary
    non-empty view-count text: with the views filter enabled and a
    positive [minViews], [checkViewsFilter] parses it to 0 and filters
    the record for low views, under the reason ["views"]. *)
Theorem no_views_sentinel :
  (forall card : element,
      matchRe (Patterns.fullTextOf card) Patterns.re_viewCount = None ->
      is_Some (matchRe (Patterns.fullTextOf card) Patterns.re_noViews) ->
      viewCount (Content.extractVideoData card) = Some (js "No views")
      /\ viewCount (Content.extractVideoData card) <> None)
  /\ (forall (record : videoData) (s : Content.settings),
      viewCount record = Some (js "No views") ->
      Content.viewsFilterEnabled s = true ->
      (ofZ 0 <n Content.minViews s) = true ->
      Content.checkViewsFilter record s
      = filterOut "views" (LowViews (js "No views") (ofZ 0))).
Proof.
  split.
  - intros card Hnum Hno.
    unfold Content.extractVideoData, Patterns.extractViewCount.
    cbn [viewCount]. rewrite Hnum.
    rewrite bool_decide_eq_true_2 by exact Hno.
    split; [reflexivity | discriminate].
  - intros record s Hv He Hm. unfold Content.checkViewsFilter.
    rewrite He, Hv, (positive_threshold _ Hm).
    cbn [negb orb textValue truthy js].
    change (returned (parseViewCount (VString (js "No views")))) with (ofZ 0).
    rewrite Hm. reflexivity.
Qed.

Lemma no_views_sentinel_witness :
  let card := Element ∅ [] (fun _ => None)
                (Some (js "Lofi beats to relax to No views 2 days ago")) in
  let s := Content.Settings true false false false
             (ofZ 10000) (ofZ 0) (ofZ 0) (ofZ 0) [] in
  (viewCount (Content.extractVideoData card) = Some (js "No views")
   /\ viewCount (Content.extractVideoData card) <> None)
  /\ Content.checkViewsFilter (Content.extractVideoData card) s
     = filterOut "views" (LowViews (js "No views") (ofZ 0)).
Proof.
  intros card s. destruct no_views_sentinel as [Hx Hf]. split.
  - apply Hx; [vm_compute; reflexivity | vm_compute; eauto].
  - apply Hf; vm_compute; reflexivity.
Defined.

(* ------------------------------------------------------------------ *)
(** ** The filtered-videos log *)
(* ------------------------------------------------------------------ *)

Lemma entriesFrom_length filtersNow entry now cards : forall k,
  length (entriesFrom filtersNow entry now k cards)
  = length (List.filter filtersNow cards).
Proof.
  induction cards as [ | el rest IH]; intros k; simpl; [reflexivity | ].
  destruct (filtersNow el); simpl; rewrite IH; reflexivity.
Qed.

Lemma storeFilteredVideo_capped title reason now videos :
  (length videos <= 100)%nat ->
  Content.storeFilteredVideo title reason now videos
  = appendCapped videos (HistoryEntry title reason (ISOString now)).
Proof.
  intros Hlen. unfold Content.storeFilteredVideo, appendCapped.
  rewrite length_app. cbn [length].
  destruct (Nat.ltb_spec 100 (length videos + 1));
    destruct (Nat.ltb_spec (length videos) 100); try lia; try reflexivity.
  destruct videos as [ | v videos]; [simpl in *; lia | reflexivity].
Qed.

Lemma addFilteredVideo_capped title reason now videos :
  (length videos <= 100)%nat ->
  Modular.addFilteredVideo title reason now videos
  = appendCapped videos (HistoryEntry title reason (ISOString now)).
Proof. exact (storeFilteredVideo_capped title reason now videos). Qed.

Lemma appendCapped_spec videos e :
  (length videos <= 100)%nat ->
  (length (appendCapped videos e) <= 100)%nat
  /\ last (appendCapped videos e) = Some e
  /\ ((length videos < 100)%nat -> appendCapped videos e = videos ++ [e])
  /\ (length videos = 100%nat ->
      appendCapped videos e = tail videos ++ [e]
      /\ length (appendCapped videos e) = 100%nat).
Proof.
  intros Hlen. unfold appendCapped.
  destruct (Nat.ltb_spec (length videos) 100) as [Hlt | Hge].
  - rewrite length_app, last_snoc. cbn [length].
    repeat split; try lia; intros; lia.
  - rewrite length_app, last_snoc. cbn [length].
    destruct videos as [ | v videos]; [simpl in *; lia | ].
    cbn [tail length] in *. repeat split; try lia; intros; lia.
Qed.

Lemma appendCapped_length videos e :
  (length videos <= 100)%nat -> (length (appendCapped videos e) <= 100)%nat.
Proof. intros H. apply (appendCapped_spec videos e H). Qed.

(** What one visit does to the log and to the clock: the callback of a
    newly filtered container is handed the log as stored before the
    pass. *)
Lemma Content_visit_log now s st el :
  let st' := fst (Content.visit now s st el) in
  Content.storedBefore st' = Content.storedBefore st
  /\ if Content_filtersNow s el then
       Content.filteredVideos st'
       = Content.storeFilteredVideo
           (h_title (Content_entry s (now (Content.dateCount st)) el))
           (h_reason (Content_entry s (now (Content.dateCount st)) el))
           (now (Content.dateCount st)) (Content.storedBefore st)
       /\ Content.dateCount st' = S (Content.dateCount st)
     else
       Content.filteredVideos st' = Content.filteredVideos st
       /\ Content.dateCount st' = Content.dateCount st.
Proof.
  unfold Content_filtersNow, Content.visit, Content_entry.
  destruct (hasAttribute el "data-filtered"); cbn [negb andb fst];
    [repeat split | ].
  destruct (Content.triggeredFilter _ s) as [f | ] eqn:Hf; cbn [fst].
  - rewrite bool_decide_eq_true_2 by eauto. repeat split.
  - rewrite bool_decide_eq_false_2 by (intros [? ?]; discriminate).
    repeat split.
Qed.

Lemma Modular_visit_log now s st el :
  let st' := fst (Modular.visit now s st el) in
  Modular.storedBefore st' = Modular.storedBefore st
  /\ if Modular_filtersNow s el then
       Modular.filteredVideos st'
       = Modular.addFilteredVideo
           (h_title (Modular_entry s (now (Modular.dateCount st)) el))
           (h_reason (Modular_entry s (now (Modular.dateCount st)) el))
           (now (Modular.dateCount st)) (Modular.storedBefore st)
       /\ Modular.dateCount st' = S (Modular.dateCount st)
     else
       Modular.filteredVideos st' = Modular.filteredVideos st
       /\ Modular.dateCount st' = Modular.dateCount st.
Proof.
  unfold Modular_filtersNow, Modular.visit, Modular_entry.
  destruct (hasAttribute el "data-filtered"); cbn [negb andb fst];
    [repeat split | ].
  destruct (Modular.applyAllFilters _ s) as [f | ] eqn:Hf; cbn [fst].
  - rewrite bool_decide_eq_true_2 by eauto. repeat split.
  - rewrite bool_decide_eq_false_2 by (intros [? ?]; discriminate).
    repeat split.
Qed.

Lemma afterCallbacks_cons old current e entries :
  afterCallbacks old current (e :: entries)
  = afterCallbacks old (appendCapped old e) entries.
Proof.
  unfold afterCallbacks. rewrite last_cons.
  destruct (last entries); reflexivity.
Qed.

(** The log after the callbacks of a pass: every one of them was handed
    the log as stored before the pass, so only the last write stands. *)
Lemma Content_forEach_log now s cards : forall st,
  (length (Content.storedBefore st) <= 100)%nat ->
  let entries :=
    entriesFrom (Content_filtersNow s) (Content_entry s) now
      (Content.dateCount st) cards in
  let st' := fst (Content.forEach now s st cards) in
  Content.filteredVideos st'
  = afterCallbacks (Content.storedBefore st) (Content.filteredVideos st)
      entries
  /\ Content.dateCount st' = (Content.dateCount st + length entries)%nat
  /\ Content.storedBefore st' = Content.storedBefore st.
Proof.
  induction cards as [ | el rest IH]; intros st Hlen; cbv zeta.
  - cbn [Content.forEach entriesFrom fst length]. rewrite Nat.add_0_r.
    repeat split.
  - cbn [Content.forEach entriesFrom].
    pose proof (Content_visit_log now s st el) as Hv. cbv zeta in Hv.
    destruct (Content.visit now s st el) as [st1 el1]. cbn [fst] in Hv.
    destruct Hv as [Hold Hv].
    specialize (IH st1). cbv zeta in IH. rewrite Hold in IH.
    specialize (IH Hlen).
    destruct (Content.forEach now s st1 rest) as [st2 rest2]. cbn [fst] in *.
    destruct IH as (IHlog & IHclock & IHold).
    destruct (Content_filtersNow s el); destruct Hv as [Hlog Hclock].
    + rewrite storeFilteredVideo_capped in Hlog by exact Hlen.
      rewrite afterCallbacks_cons, IHlog, IHclock, IHold, Hlog, Hclock.
      cbn [length]. repeat split. lia.
    + rewrite IHlog, IHclock, IHold, Hlog, Hclock. repeat split.
Qed.

Lemma Modular_forEach_log now s cards : forall st,
  (length (Modular.storedBefore st) <= 100)%nat ->
  let entries :=
    entriesFrom (Modular_filtersNow s) (Modular_entry s) now
      (Modular.dateCount st) cards in
  let st' := fst (Modular.forEach now s st cards) in
  Modular.filteredVideos st'
  = afterCallbacks (Modular.storedBefore st) (Modular.filteredVideos st)
      entries
  /\ Modular.dateCount st' = (Modular.dateCount st + length entries)%nat
  /\ Modular.storedBefore st' = Modular.storedBefore st.
Proof.
  induction cards as [ | el rest IH]; intros st Hlen; cbv zeta.
  - cbn [Modular.forEach entriesFrom fst length]. rewrite Nat.add_0_r.
    repeat split.
  - cbn [Modular.forEach entriesFrom].
    pose proof (Modular_visit_log now s st el) as Hv. cbv zeta in Hv.
    destruct (Modular.visit now s st el) as [st1 el1]. cbn [fst] in Hv.
    destruct Hv as [Hold Hv].
    specialize (IH st1). cbv zeta in IH. rewrite Hold in IH.
    specialize (IH Hlen).
    destruct (Modular.forEach now s st1 rest) as [st2 rest2]. cbn [fst] in *.
    destruct IH as (IHlog & IHclock & IHold).
    destruct (Modular_filtersNow s el); destruct Hv as [Hlog Hclock].
    + rewrite addFilteredVideo_capped in Hlog by exact Hlen.
      rewrite afterCallbacks_cons, IHlog, IHclock, IHold, Hlog, Hclock.
      cbn [length]. repeat split. lia.
    + rewrite IHlog, IHclock, IHold, Hlog, Hclock. repeat split.
Qed.

(** One call on its own: the entry goes last, and on a full log the
    oldest entry goes first out. *)
Lemma history_append_capped title reason now videos :
  (length videos <= 100)%nat ->
  let e := HistoryEntry title reason (ISOString now) in
  let videos' := Content.storeFilteredVideo title reason now videos in
  videos' = Modular.addFilteredVideo title reason now videos
  /\ (length videos' <= 100)%nat
  /\ last videos' = Some e
  /\ ((length videos < 100)%nat -> videos' = videos ++ [e])
  /\ (length videos = 100%nat ->
      videos' = tail videos ++ [e] /\ length videos' = 100%nat).
Proof.
  intros Hlen e videos'. subst videos'.
  split; [reflexivity | ].
  rewrite storeFilteredVideo_capped by exact Hlen.
  apply appendCapped_spec, Hlen.
Qed.

(** C9.  Two cards without a view count on a page, the settings those of
    a fresh install (nothing stored: the views filter is on), the log
    empty: the pass filters both, and each of them has its history
    entry stored by a callback that runs after the pass.  Both
    callbacks are handed the log as it was when they were requested --
    empty --, each pushes its own entry and writes the log back, and the
    second write replaces the first: one entry is in the log where two
    items were filtered.  So it is in [content.js] and in the filter
    engine.  A single call appends its entry under the cap of 100
    ([history_append_capped]). *)
Theorem history_log_loses_entries :
  let now := fun k : nat => Z.of_nat k in
  let first := sampleCard "Mix - Lofi beats" "Mix - Lofi beats" in
  let second := sampleCard "Mix - Jazz classics" "Mix - Jazz classics" in
  let c := Content.Settings true true true false
             (ofZ 10000) (ofZ 60) (ofZ 3600) NaN [] in
  let m := Modular.Settings true true true true
             (ofZ 10000) (ofZ 60) (ofZ 3600) (ofZ 5)
             [js "spoiler"; js "clickbait"; js "sponsor"] in
  let wc := Content.World c Content.initialStats [first; second] [] None 0 in
  let wm := Modular.World (Some m) Modular.DEFAULT_STATS true
              [first; second] [] None 0 in
  let entry :=
    HistoryEntry (js "Mix - Jazz classics") (Some NoViewCount)
                 (ISOString 1) in
  (ContentInit.filterSettings ∅ = Some c
   /\ SettingsObject.forModular (SettingsManager.loadSettings ∅) = Some m)
  /\ (Forall (fun el => hasAttribute el "data-filtered" = true)
             (Content.videoCards (Content.runAllFilters now wc))
      /\ counter (Content.filterStats (Content.runAllFilters now wc)) "total"
         = ofZ 2
      /\ Content.storedVideos (Content.runAllFilters now wc) = [entry])
  /\ (Forall (fun el => hasAttribute el "data-filtered" = true)
             (Modular.videoCards (Modular.runFilters now wm))
      /\ counter (Modular.engineStats (Modular.runFilters now wm)) "total"
         = ofZ 2
      /\ Modular.storedVideos (Modular.runFilters now wm) = [entry]).
Proof.
  intros now first second c m wc wm entry.
  split; [split; vm_compute; reflexivity | ].
  split; (split; [ | split]);
    try (repeat constructor; vm_compute; reflexivity);
    vm_compute; reflexivity.
Qed.

(* ------------------------------------------------------------------ *)
(** ** Settings validation *)
(* ------------------------------------------------------------------ *)

Lemma upper_range c :
  isUpperAscii c || isUpperLatin1 c = true ->
  (65 <= c <= 90)%N \/ (192 <= c <= 222)%N /\ c <> 215%N.
Proof.
  unfold isUpperAscii, isUpperLatin1. intros H.
  apply orb_true_iff in H as [H | H].
  - apply andb_true_iff in H as [H1 H2]. apply N.leb_le in H1, H2. lia.
  - apply andb_true_iff in H as [H H3]. apply andb_true_iff in H as [H1 H2].
    apply N.leb_le in H1, H2. apply negb_true_iff, N.eqb_neq in H3. lia.
Qed.

Lemma lowerUnit_space c : isWhiteSpace (lowerUnit c) = isWhiteSpace c.
Proof.
  unfold lowerUnit. destruct (isUpperAscii c || isUpperLatin1 c) eqn:Hu;
    [ | reflexivity].
  apply upper_range in Hu.
  assert (H1 : isWhiteSpace c = false) by (not_space c).
  rewrite H1. remember (c + 32)%N as d eqn:Hd.
  assert (Hr : (97 <= d <= 122)%N \/ (224 <= d <= 254)%N) by lia. clear Hd.
  not_space d.
Qed.

Lemma lowerUnit_idem c : lowerUnit (lowerUnit c) = lowerUnit c.
Proof.
  unfold lowerUnit. destruct (isUpperAscii c || isUpperLatin1 c) eqn:Hu;
    [ | rewrite Hu; reflexivity].
  apply upper_range in Hu.
  replace (isUpperAscii (c + 32) || isUpperLatin1 (c + 32)) with false;
    [reflexivity | ].
  symmetry. apply orb_false_iff. unfold isUpperAscii, isUpperLatin1. split.
  - apply andb_false_iff. right. apply N.leb_gt. lia.
  - apply andb_false_iff. left. destruct Hu as [Hu | [Hu Hne]].
    + apply andb_false_iff. left. apply N.leb_gt. lia.
    + apply andb_false_iff. right. apply N.leb_gt. lia.
Qed.

Lemma toLowerCase_idem s : toLowerCase (toLowerCase s) = toLowerCase s.
Proof.
  unfold toLowerCase. rewrite map_map. apply map_ext. exact lowerUnit_idem.
Qed.

Lemma trimStart_toLowerCase s :
  trimStart (toLowerCase s) = toLowerCase (trimStart s).
Proof.
  unfold toLowerCase. induction s as [ | c s IH]; simpl; [reflexivity | ].
  rewrite lowerUnit_space. destruct (isWhiteSpace c); [exact IH | reflexivity].
Qed.

Lemma trim_toLowerCase s : trim (toLowerCase s) = toLowerCase (trim s).
Proof.
  unfold trim, trimEnd. rewrite trimStart_toLowerCase.
  unfold toLowerCase at 1. rewrite <- map_rev.
  fold (toLowerCase (rev (trimStart s))). rewrite trimStart_toLowerCase.
  unfold toLowerCase. rewrite map_rev. reflexivity.
Qed.

Lemma trimStart_idem s : trimStart (trimStart s) = trimStart s.
Proof.
  destruct (trimStart s) as [ | c x] eqn:Hx; [reflexivity | ].
  apply trimStart_fixed, (trimStart_head _ _ _ Hx).
Qed.

Lemma trim_idem s : trim (trim s) = trim s.
Proof.
  unfold trim at 1. rewrite trimStart_trim.
  unfold trim, trimEnd. rewrite rev_involutive, trimStart_idem. reflexivity.
Qed.

(** What the keyword filter keeps, cleaned, is settled. *)
Lemma cleanKeyword_clean v :
  Modular.keepKeyword v = true -> isSettledKeyword (Modular.cleanKeyword v).
Proof.
  destruct v as [ | | b | n | s | l | o]; simpl; try discriminate.
  intros H. apply Nat.ltb_lt in H.
  exists (toLowerCase (trim s)). split; [reflexivity | ]. split; [ | split].
  - intros Hnil. apply (f_equal length) in Hnil.
    unfold toLowerCase in Hnil. rewrite length_map in Hnil.
    simpl in Hnil. lia.
  - rewrite trim_toLowerCase, trim_idem. reflexivity.
  - apply toLowerCase_idem.
Qed.

Lemma cleaned_keywords l :
  Forall isSettledKeyword
         (map Modular.cleanKeyword (List.filter Modular.keepKeyword l)).
Proof.
  induction l as [ | v l IH]; simpl; [constructor | ].
  destruct (Modular.keepKeyword v) eqn:Hk; [ | exact IH].
  simpl. constructor; [apply cleanKeyword_clean, Hk | exact IH].
Qed.

(** Trimming and lower-casing stay within U+00FF. *)
Lemma isLatin1_trimStart s : isLatin1 s = true -> isLatin1 (trimStart s) = true.
Proof.
  induction s as [ | c s IH]; cbn [trimStart]; [reflexivity | ].
  intros H. destruct (isWhiteSpace c); [ | exact H].
  cbn [isLatin1 forallb] in H. apply andb_true_iff in H as [_ H].
  apply IH, H.
Qed.

Lemma isLatin1_rev s : isLatin1 (rev s) = isLatin1 s.
Proof.
  unfold isLatin1. induction s as [ | c s IH]; [reflexivity | ].
  cbn [rev forallb]. rewrite forallb_app, IH. cbn [forallb].
  rewrite andb_true_r. apply andb_comm.
Qed.

Lemma isLatin1_trim s : isLatin1 s = true -> isLatin1 (trim s) = true.
Proof.
  intros H. unfold trim, trimEnd. rewrite isLatin1_rev.
  apply isLatin1_trimStart. rewrite isLatin1_rev.
  apply isLatin1_trimStart, H.
Qed.

Lemma lowerUnit_latin1 c : (c <? 256)%N = true -> (lowerUnit c <? 256)%N = true.
Proof.
  intros H. apply N.ltb_lt in H. apply N.ltb_lt. unfold lowerUnit.
  destruct (isUpperAscii c || isUpperLatin1 c) eqn:E; [ | exact H].
  apply orb_true_iff in E as [E | E].
  - unfold isUpperAscii in E. apply andb_true_iff in E as [_ E].
    apply N.leb_le in E. lia.
  - unfold isUpperLatin1 in E. apply andb_true_iff in E as [E _].
    apply andb_true_iff in E as [_ E]. apply N.leb_le in E. lia.
Qed.

Lemma isLatin1_toLowerCase s :
  isLatin1 s = true -> isLatin1 (toLowerCase s) = true.
Proof.
  unfold isLatin1, toLowerCase. induction s as [ | c s IH]; [reflexivity | ].
  cbn [map forallb]. intros H. apply andb_true_iff in H as [Hc H].
  rewrite (lowerUnit_latin1 _ Hc), IH by exact H. reflexivity.
Qed.

(** Within U+00FF, what the keyword filter keeps, cleaned, is clean. *)
Lemma cleaned_keywords_latin1 l :
  latin1Value (VArray l) ->
  Forall isCleanKeyword
         (map Modular.cleanKeyword (List.filter Modular.keepKeyword l)).
Proof.
  induction l as [ | v l IH]; cbn [List.filter map]; [constructor | ].
  intros [Hv Hl]. specialize (IH Hl).
  destruct (Modular.keepKeyword v) eqn:Hk; [ | exact IH].
  cbn [map]. constructor; [ | exact IH].
  destruct (cleanKeyword_clean v Hk) as (t & Ht & Hne & Htrim & Hlow).
  exists t. repeat split; try assumption.
  destruct v as [ | | b | n | s | l' | o]; try discriminate.
  cbn [Modular.cleanKeyword] in Ht. injection Ht as <-.
  apply isLatin1_toLowerCase, isLatin1_trim, Hv.
Qed.

Lemma floor_count n :
  (n >=n ofZ 0) = true -> n <> PosInf ->
  isCount None (VNumber (Math_floor n)).
Proof.
  destruct n as [ | | | x]; simpl; try discriminate; [congruence | ].
  intros H _. exists (Qfloor x). split; [reflexivity | ]. split; [ | exact I].
  apply Qle_bool_iff in H. apply Qfloor_resp_le in H. exact H.
Qed.

Lemma floor_count_bounded n :
  (n >=n ofZ 0) = true -> (n <=n ofZ 20) = true ->
  isCount (Some 20%Z) (VNumber (Math_floor n)).
Proof.
  destruct n as [ | | | x]; simpl; try discriminate.
  intros H0 H20. exists (Qfloor x). split; [reflexivity | ].
  apply Qle_bool_iff in H0, H20. apply Qfloor_resp_le in H0, H20.
  split; assumption.
Qed.

(** How each step of the sanitiser reads back. *)
Lemma copyBoolean_lookup settings validated key k :
  Modular.copyBoolean settings validated key !! k
  = if decide (key = k)
    then from_option Some (validated !! k)
           (acceptedBoolean (Modular.prop settings key))
    else validated !! k.
Proof.
  unfold Modular.copyBoolean, acceptedBoolean.
  destruct (Modular.prop settings key); case_decide; subst;
    simplify_map_eq; reflexivity.
Qed.

Lemma copyNumber_lookup hi settings validated key k :
  Modular.copyNumber hi settings key validated !! k
  = if decide (key = k)
    then from_option Some (validated !! k)
           (acceptedNumber hi (Modular.prop settings key))
    else validated !! k.
Proof.
  unfold Modular.copyNumber, acceptedNumber.
  destruct (Modular.prop settings key) as [ | | b | n | s | l | o];
    try (case_decide; reflexivity).
  destruct (_ && _); case_decide; subst; simplify_map_eq; reflexivity.
Qed.

Lemma copyBoolean_other settings validated key k :
  key <> k -> Modular.copyBoolean settings validated key !! k = validated !! k.
Proof. intros H. rewrite copyBoolean_lookup, decide_False by exact H. reflexivity. Qed.

Lemma copyBoolean_same settings validated key :
  Modular.copyBoolean settings validated key !! key
  = from_option Some (validated !! key)
      (acceptedBoolean (Modular.prop settings key)).
Proof. rewrite copyBoolean_lookup, decide_True by reflexivity. reflexivity. Qed.

Lemma copyNumber_other hi settings validated key k :
  key <> k ->
  Modular.copyNumber hi settings key validated !! k = validated !! k.
Proof. intros H. rewrite copyNumber_lookup, decide_False by exact H. reflexivity. Qed.

Lemma copyNumber_same hi settings validated key :
  Modular.copyNumber hi settings key validated !! key
  = from_option Some (validated !! key)
      (acceptedNumber hi (Modular.prop settings key)).
Proof. rewrite copyNumber_lookup, decide_True by reflexivity. reflexivity. Qed.

(** The sanitiser without its two legacy assignments. *)
Lemma validate_without_legacy settings :
  legacyInactive settings ->
  Modular.validateAndSanitizeSettings settings
  = let validated :=
      Modular.copyNumber (Some (ofZ 20)) settings "maxAge"
        (Modular.copyNumber None settings "maxDuration"
           (Modular.copyNumber None settings "minDuration"
              (Modular.copyNumber None settings "minViews"
                 (foldl (Modular.copyBoolean settings)
                    Modular.DEFAULT_FILTER_SETTINGS
                    [ "viewsFilterEnabled"; "durationFilterEnabled";
                      "keywordFilterEnabled"; "ageFilterEnabled" ]%string)))) in
    from_option (fun v => <["bannedKeywords" := v]> validated) validated
      (acceptedKeywords (Modular.prop settings "bannedKeywords")).
Proof.
  intros [Hage Hkw]. unfold Modular.validateAndSanitizeSettings.
  rewrite Hage, Hkw. cbv zeta.
  destruct (Modular.prop settings "bannedKeywords"); reflexivity.
Qed.

Ltac peel_steps :=
  cbn [foldl];
  repeat first
    [ rewrite copyNumber_other by discriminate
    | rewrite copyBoolean_other by discriminate
    | rewrite lookup_insert_ne by discriminate ].

Lemma validate_flag settings key :
  legacyInactive settings ->
  In key [ "viewsFilterEnabled"; "durationFilterEnabled";
           "keywordFilterEnabled"; "ageFilterEnabled" ]%string ->
  Modular.validateAndSanitizeSettings settings !! key
  = Some (sanitizedField acceptedBoolean settings key).
Proof.
  intros Hleg Hin. rewrite (validate_without_legacy _ Hleg). cbv zeta.
  unfold sanitizedField.
  simpl in Hin. destruct Hin as [<- | [<- | [<- | [<- | []]]]];
    (destruct (acceptedKeywords _); cbn [from_option]; peel_steps;
     rewrite copyBoolean_same; peel_steps;
     destruct (acceptedBoolean _); reflexivity).
Qed.

Lemma validate_threshold settings key :
  legacyInactive settings ->
  In key [ "minViews"; "minDuration"; "maxDuration" ]%string ->
  Modular.validateAndSanitizeSettings settings !! key
  = Some (sanitizedField (acceptedNumber None) settings key).
Proof.
  intros Hleg Hin. rewrite (validate_without_legacy _ Hleg). cbv zeta.
  unfold sanitizedField.
  simpl in Hin. destruct Hin as [<- | [<- | [<- | []]]];
    (destruct (acceptedKeywords _); cbn [from_option]; peel_steps;
     rewrite copyNumber_same; peel_steps;
     destruct (acceptedNumber _ _); reflexivity).
Qed.

Lemma validate_maxAge settings :
  legacyInactive settings ->
  Modular.validateAndSanitizeSettings settings !! "maxAge"
  = Some (sanitizedField (acceptedNumber (Some (ofZ 20))) settings "maxAge").
Proof.
  intros Hleg. rewrite (validate_without_legacy _ Hleg). cbv zeta.
  unfold sanitizedField.
  destruct (acceptedKeywords _); cbn [from_option]; peel_steps;
    rewrite copyNumber_same; peel_steps;
    destruct (acceptedNumber _ _); reflexivity.
Qed.

Lemma validate_bannedKeywords settings :
  legacyInactive settings ->
  Modular.validateAndSanitizeSettings settings !! "bannedKeywords"
  = Some (sanitizedField acceptedKeywords settings "bannedKeywords").
Proof.
  intros Hleg. rewrite (validate_without_legacy _ Hleg). cbv zeta.
  unfold sanitizedField.
  destruct (acceptedKeywords _); cbn [from_option].
  - apply lookup_insert_eq.
  - peel_steps. reflexivity.
Qed.

Lemma sanitized_boolean settings key :
  In key [ "viewsFilterEnabled"; "durationFilterEnabled";
           "keywordFilterEnabled"; "ageFilterEnabled" ]%string ->
  isBoolean (sanitizedField acceptedBoolean settings key).
Proof.
  intros Hin. unfold sanitizedField.
  destruct (Modular.prop settings key); cbn [acceptedBoolean default];
    try exact I;
    simpl in Hin; destruct Hin as [<- | [<- | [<- | [<- | []]]]]; exact I.
Qed.

Lemma default_count key z :
  Modular.prop Modular.DEFAULT_FILTER_SETTINGS key = VNumber (ofZ z) ->
  (0 <= z)%Z -> forall hi,
  match hi with Some h => (z <= h)%Z | None => True end ->
  isCount hi (Modular.prop Modular.DEFAULT_FILTER_SETTINGS key).
Proof. intros -> Hz hi Hhi. exists z. auto. Qed.

Lemma sanitized_threshold settings key :
  In key [ "minViews"; "minDuration"; "maxDuration" ]%string ->
  Modular.prop settings key <> VNumber PosInf ->
  isCount None (sanitizedField (acceptedNumber None) settings key).
Proof.
  intros Hin Hfin.
  assert (Hdef : isCount None (Modular.prop Modular.DEFAULT_FILTER_SETTINGS key)).
  { simpl in Hin. destruct Hin as [<- | [<- | [<- | []]]].
    - apply (default_count _ 10000); [reflexivity | lia | exact I].
    - apply (default_count _ 60); [reflexivity | lia | exact I].
    - apply (default_count _ 3600); [reflexivity | lia | exact I]. }
  unfold sanitizedField.
  destruct (Modular.prop settings key) as [ | | b | n | s | l | o];
    cbn [acceptedNumber default]; try exact Hdef.
  destruct (n >=n ofZ 0) eqn:Hge; cbn [andb default]; [ | exact Hdef].
  apply floor_count; [exact Hge | congruence].
Qed.

Lemma sanitized_maxAge settings :
  isCount (Some 20%Z)
    (sanitizedField (acceptedNumber (Some (ofZ 20))) settings "maxAge").
Proof.
  assert (Hdef : isCount (Some 20%Z)
                   (Modular.prop Modular.DEFAULT_FILTER_SETTINGS "maxAge")).
  { apply (default_count _ 5); [reflexivity | lia | simpl; lia]. }
  unfold sanitizedField.
  destruct (Modular.prop settings "maxAge") as [ | | b | n | s | l | o];
    cbn [acceptedNumber default]; try exact Hdef.
  destruct (n >=n ofZ 0) eqn:Hge; cbn [andb]; [ | exact Hdef].
  destruct (n <=n ofZ 20) eqn:Hle; cbn [default]; [ | exact Hdef].
  apply floor_count_bounded; assumption.
Qed.

Lemma default_keywords_clean :
  isKeywordArray (Modular.prop Modular.DEFAULT_FILTER_SETTINGS "bannedKeywords").
Proof.
  exists [ VString (js "spoiler"); VString (js "clickbait");
           VString (js "sponsor") ].
  split; [reflexivity | ].
  repeat constructor;
    (eexists; split; [reflexivity | ];
     split; [discriminate | repeat split; reflexivity]).
Qed.

Lemma sanitized_keywords settings :
  latin1Keywords settings ->
  isKeywordArray (sanitizedField acceptedKeywords settings "bannedKeywords").
Proof.
  unfold sanitizedField, latin1Keywords.
  destruct (Modular.prop settings "bannedKeywords") as [ | | b | n | s | l | o];
    cbn [acceptedKeywords default]; try (intros _; exact default_keywords_clean).
  intros Hl. eexists. split; [reflexivity | ].
  apply cleaned_keywords_latin1, Hl.
Qed.

(** The shape the sanitiser establishes when the legacy fields do not
    apply, no threshold is [Infinity] and the keywords stay within
    U+00FF. *)
Lemma validate_sanitized settings :
  legacyInactive settings -> finiteThresholds settings ->
  latin1Keywords settings ->
  sanitized (Modular.validateAndSanitizeSettings settings).
Proof.
  intros Hleg (Hviews & Hmin & Hmax) Hlatin.
  pose proof (validate_flag settings) as Hflag.
  pose proof (validate_threshold settings) as Hthr.
  unfold sanitized, field.
  repeat split;
    try (eexists; split;
         [apply Hflag; [exact Hleg | simpl; tauto]
         | apply sanitized_boolean; simpl; tauto]).
  - eexists. split; [apply Hthr; [exact Hleg | simpl; tauto] | ].
    apply sanitized_threshold; [simpl; tauto | exact Hviews].
  - eexists. split; [apply Hthr; [exact Hleg | simpl; tauto] | ].
    apply sanitized_threshold; [simpl; tauto | exact Hmin].
  - eexists. split; [apply Hthr; [exact Hleg | simpl; tauto] | ].
    apply sanitized_threshold; [simpl; tauto | exact Hmax].
  - eexists. split; [apply validate_maxAge, Hleg | apply sanitized_maxAge].
  - eexists. split; [apply validate_bannedKeywords, Hleg | ].
    apply sanitized_keywords, Hlatin.
Qed.

(** [Infinity] passes the checks of the unbounded thresholds, and
    [Math.floor] keeps it. *)
Example infinite_threshold_kept :
  Modular.validateAndSanitizeSettings
    {[ "minViews" := VNumber PosInf ]}%string !! "minViews"%string
  = Some (VNumber PosInf).
Proof. vm_compute. reflexivity. Qed.

(** C10.  A settings object in the legacy spelling carries the age
    limit as [maxAgeYears] and the keywords as [keywords], the names the
    popup saves them under.  The "Legacy settings compatibility" block
    of [validateAndSanitizeSettings] copies the two into the result as
    they are: an age limit of 50 comes out as [maxAge = 50], above the
    bound of 20, and a keyword comes out untrimmed and in upper case.
    Under their current names the same two values go through the
    checks: the age limit falls back to the default and the keyword is
    trimmed and lowered. *)
Theorem legacy_fields_bypass_validation :
  let legacy : gmap string value :=
    {[ "maxAgeYears" := VNumber (ofZ 50);
       "keywords" := VArray [VString (js " SPOILER ")] ]}%string in
  let current : gmap string value :=
    {[ "maxAge" := VNumber (ofZ 50);
       "bannedKeywords" := VArray [VString (js " SPOILER ")] ]}%string in
  (Modular.validateAndSanitizeSettings legacy !! "maxAge"%string
   = Some (VNumber (ofZ 50))
   /\ Modular.validateAndSanitizeSettings legacy !! "bannedKeywords"%string
      = Some (VArray [VString (js " SPOILER ")]))
  /\ (Modular.validateAndSanitizeSettings current !! "maxAge"%string
      = Some (VNumber (ofZ 5))
      /\ Modular.validateAndSanitizeSettings current
           !! "bannedKeywords"%string
         = Some (VArray [VString (js "spoiler")])).
Proof.
  intros legacy current.
  split; split; vm_compute; reflexivity.
Qed.

(* ------------------------------------------------------------------ *)
(** ** The scan engine: tagged containers are skipped *)
(* ------------------------------------------------------------------ *)

Lemma hasAttribute_set name v el :
  hasAttribute (setAttribute name v el) name = true.
Proof.
  unfold hasAttribute, setAttribute. cbn [attributes].
  apply bool_decide_eq_true_2. rewrite lookup_insert_eq. eauto.
Qed.

Lemma hasAttribute_set_other name name' v el :
  hasAttribute el name = true ->
  hasAttribute (setAttribute name' v el) name = true.
Proof.
  unfold hasAttribute, setAttribute. cbn [attributes]. intros H.
  apply bool_decide_eq_true_1 in H. apply bool_decide_eq_true_2.
  destruct (decide (name' = name)) as [-> | Hne].
  - rewrite lookup_insert_eq. eauto.
  - rewrite lookup_insert_ne by exact Hne. exact H.
Qed.

(** A tagged container is never one the pass filters now. *)
Lemma Content_tagged_quiet s el :
  hasAttribute el "data-filtered" = true -> Content_filtersNow s el = false.
Proof. intros H. unfold Content_filtersNow. rewrite H. reflexivity. Qed.

(** The visit of a tagged container: one counter moves, nothing else. *)
Lemma Content_visit_tagged now s st el :
  hasAttribute el "data-filtered" = true ->
  Content.visit now s st el
  = (Content.PassState (Content.currentStats st) (Content.newFilters st)
       (Content.processedCount st) (S (Content.alreadyFilteredCount st))
       (Content.filteredVideos st) (Content.dateCount st)
       (Content.storedBefore st),
     el).
Proof. intros H. unfold Content.visit. rewrite H. reflexivity. Qed.

(** The visit of a container no predicate fires on: it is extracted and
    evaluated, and left as it is. *)
Lemma Content_visit_quiet now s st el :
  Content_filtersNow s el = false ->
  Content.visit now s st el
  = (Content.PassState (Content.currentStats st) (Content.newFilters st)
       (if hasAttribute el "data-filtered"
        then Content.processedCount st else S (Content.processedCount st))
       (if hasAttribute el "data-filtered"
        then S (Content.alreadyFilteredCount st)
        else Content.alreadyFilteredCount st)
       (Content.filteredVideos st) (Content.dateCount st)
       (Content.storedBefore st),
     el).
Proof.
  unfold Content_filtersNow, Content.visit.
  destruct (hasAttribute el "data-filtered"); cbn [negb andb]; [reflexivity | ].
  destruct (Content.triggeredFilter _ s) as [f | ]; [ | reflexivity].
  intros H. apply bool_decide_eq_false_1 in H. exfalso. apply H. eauto.
Qed.

(** Whatever a visit leaves behind is tagged or fires no predicate. *)
Lemma Content_visit_leaves_quiet now s st el :
  Content_filtersNow s (snd (Content.visit now s st el)) = false.
Proof.
  destruct (Content_filtersNow s el) eqn:Hq.
  - unfold Content_filtersNow in Hq. apply andb_true_iff in Hq as [Htag Hf].
    apply negb_true_iff in Htag. unfold Content.visit. rewrite Htag.
    destruct (Content.triggeredFilter _ s) as [f | ].
    + cbn [snd]. apply Content_tagged_quiet.
      apply hasAttribute_set_other, hasAttribute_set.
    + apply bool_decide_eq_true_1 in Hf. destruct Hf as [? Hf]. discriminate.
  - rewrite (Content_visit_quiet _ _ _ _ Hq). exact Hq.
Qed.

Lemma Content_forEach_leaves_quiet now s cards : forall st,
  Forall (fun el => Content_filtersNow s el = false)
         (snd (Content.forEach now s st cards)).
Proof.
  induction cards as [ | el rest IH]; intros st; cbn [Content.forEach].
  - constructor.
  - pose proof (Content_visit_leaves_quiet now s st el) as Hv.
    destruct (Content.visit now s st el) as [st1 el1]. cbn [snd] in Hv.
    specialize (IH st1).
    destruct (Content.forEach now s st1 rest) as [st2 rest2].
    cbn [snd] in *. constructor; assumption.
Qed.

(** A pass over containers that are all tagged or fire no predicate
    changes no container, counts nothing and stores nothing. *)
Lemma Content_forEach_quiet now s cards : forall st,
  Forall (fun el => Content_filtersNow s el = false) cards ->
  let st' := fst (Content.forEach now s st cards) in
  snd (Content.forEach now s st cards) = cards
  /\ Content.currentStats st' = Content.currentStats st
  /\ Content.newFilters st' = Content.newFilters st
  /\ Content.filteredVideos st' = Content.filteredVideos st
  /\ Content.dateCount st' = Content.dateCount st.
Proof.
  induction cards as [ | el rest IH]; intros st Hq; cbn [Content.forEach].
  - repeat split.
  - inversion Hq as [ | ? ? Hel Hrest]; subst.
    rewrite (Content_visit_quiet _ _ _ _ Hel).
    match goal with
    | |- context [Content.forEach now s ?st1 rest] =>
        specialize (IH st1 Hrest); cbv zeta in IH;
        destruct (Content.forEach now s st1 rest) as [st2 rest2]
    end.
    cbn [fst snd] in *. destruct IH as (-> & IH). exact (conj eq_refl IH).
Qed.

Lemma Content_visit_skipped now s st el :
  Content.visit now s (Content_skipped st) el
  = (Content_skipped (fst (Content.visit now s st el)),
     snd (Content.visit now s st el)).
Proof.
  unfold Content.visit, Content_skipped.
  destruct (hasAttribute el "data-filtered"); [reflexivity | ].
  destruct (Content.triggeredFilter _ s); reflexivity.
Qed.

Lemma Content_forEach_skipped now s cards : forall st,
  Content.forEach now s (Content_skipped st) cards
  = (Content_skipped (fst (Content.forEach now s st cards)),
     snd (Content.forEach now s st cards)).
Proof.
  induction cards as [ | el rest IH]; intros st; cbn [Content.forEach];
    [reflexivity | ].
  rewrite Content_visit_skipped.
  destruct (Content.visit now s st el) as [st1 el1]. cbn [fst snd].
  rewrite IH. destruct (Content.forEach now s st1 rest); reflexivity.
Qed.

Lemma Content_forEach_app now s l1 l2 : forall st,
  Content.forEach now s st (l1 ++ l2)
  = let '(st1, c1) := Content.forEach now s st l1 in
    let '(st2, c2) := Content.forEach now s st1 l2 in
    (st2, c1 ++ c2).
Proof.
  induction l1 as [ | el l1 IH]; intros st; cbn [app Content.forEach].
  - destruct (Content.forEach now s st l2); reflexivity.
  - destruct (Content.visit now s st el) as [st1 el1]. rewrite IH.
    destruct (Content.forEach now s st1 l1) as [st2 c1].
    destruct (Content.forEach now s st2 l2); reflexivity.
Qed.

(** A tagged container in the middle of the page: it comes out as it
    went in, and the rest of the pass is the pass without it, up to the
    count of skipped containers. *)
Lemma Content_forEach_skip now s before el after st :
  hasAttribute el "data-filtered" = true ->
  let without := Content.forEach now s st (before ++ after) in
  let cards1 := snd (Content.forEach now s st before) in
  Content.forEach now s st (before ++ el :: after)
  = (Content_skipped (fst without),
     cards1 ++ el :: drop (length cards1) (snd without)).
Proof.
  intros Htag without cards1. subst without cards1.
  rewrite !Content_forEach_app.
  destruct (Content.forEach now s st before) as [st1 c1]. cbn [snd].
  cbn [Content.forEach]. rewrite (Content_visit_tagged _ _ _ _ Htag).
  fold (Content_skipped st1). rewrite Content_forEach_skipped.
  destruct (Content.forEach now s st1 after) as [st2 c2]. cbn [fst snd].
  rewrite drop_app_length. reflexivity.
Qed.

(** The same facts for the filter engine of the modular variant. *)

(** A tagged container is never one the pass filters now. *)
Lemma Modular_tagged_quiet s el :
  hasAttribute el "data-filtered" = true -> Modular_filtersNow s el = false.
Proof. intros H. unfold Modular_filtersNow. rewrite H. reflexivity. Qed.

(** The visit of a tagged container: one counter moves, nothing else. *)
Lemma Modular_visit_tagged now s st el :
  hasAttribute el "data-filtered" = true ->
  Modular.visit now s st el
  = (Modular.PassState (Modular.currentRunStats st) (Modular.newFilters st)
       (Modular.processedCount st) (S (Modular.alreadyFilteredCount st))
       (Modular.filteredVideos st) (Modular.dateCount st)
       (Modular.storedBefore st),
     el).
Proof. intros H. unfold Modular.visit. rewrite H. reflexivity. Qed.

(** The visit of a container no predicate fires on: it is extracted and
    evaluated, and left as it is. *)
Lemma Modular_visit_quiet now s st el :
  Modular_filtersNow s el = false ->
  Modular.visit now s st el
  = (Modular.PassState (Modular.currentRunStats st) (Modular.newFilters st)
       (if hasAttribute el "data-filtered"
        then Modular.processedCount st else S (Modular.processedCount st))
       (if hasAttribute el "data-filtered"
        then S (Modular.alreadyFilteredCount st)
        else Modular.alreadyFilteredCount st)
       (Modular.filteredVideos st) (Modular.dateCount st)
       (Modular.storedBefore st),
     el).
Proof.
  unfold Modular_filtersNow, Modular.visit.
  destruct (hasAttribute el "data-filtered"); cbn [negb andb]; [reflexivity | ].
  destruct (Modular.applyAllFilters _ s) as [f | ]; [ | reflexivity].
  intros H. apply bool_decide_eq_false_1 in H. exfalso. apply H. eauto.
Qed.

(** Whatever a visit leaves behind is tagged or fires no predicate. *)
Lemma Modular_visit_leaves_quiet now s st el :
  Modular_filtersNow s (snd (Modular.visit now s st el)) = false.
Proof.
  destruct (Modular_filtersNow s el) eqn:Hq.
  - unfold Modular_filtersNow in Hq. apply andb_true_iff in Hq as [Htag Hf].
    apply negb_true_iff in Htag. unfold Modular.visit. rewrite Htag.
    destruct (Modular.applyAllFilters _ s) as [f | ].
    + cbn [snd]. apply Modular_tagged_quiet. unfold Modular.hideVideoElement.
      apply hasAttribute_set_other, hasAttribute_set.
    + apply bool_decide_eq_true_1 in Hf. destruct Hf as [? Hf]. discriminate.
  - rewrite (Modular_visit_quiet _ _ _ _ Hq). exact Hq.
Qed.

Lemma Modular_forEach_leaves_quiet now s cards : forall st,
  Forall (fun el => Modular_filtersNow s el = false)
         (snd (Modular.forEach now s st cards)).
Proof.
  induction cards as [ | el rest IH]; intros st; cbn [Modular.forEach].
  - constructor.
  - pose proof (Modular_visit_leaves_quiet now s st el) as Hv.
    destruct (Modular.visit now s st el) as [st1 el1]. cbn [snd] in Hv.
    specialize (IH st1).
    destruct (Modular.forEach now s st1 rest) as [st2 rest2].
    cbn [snd] in *. constructor; assumption.
Qed.

(** A pass over containers that are all tagged or fire no predicate
    changes no container, counts nothing and stores nothing. *)
Lemma Modular_forEach_quiet now s cards : forall st,
  Forall (fun el => Modular_filtersNow s el = false) cards ->
  let st' := fst (Modular.forEach now s st cards) in
  snd (Modular.forEach now s st cards) = cards
  /\ Modular.currentRunStats st' = Modular.currentRunStats st
  /\ Modular.newFilters st' = Modular.newFilters st
  /\ Modular.filteredVideos st' = Modular.filteredVideos st
  /\ Modular.dateCount st' = Modular.dateCount st.
Proof.
  induction cards as [ | el rest IH]; intros st Hq; cbn [Modular.forEach].
  - repeat split.
  - inversion Hq as [ | ? ? Hel Hrest]; subst.
    rewrite (Modular_visit_quiet _ _ _ _ Hel).
    match goal with
    | |- context [Modular.forEach now s ?st1 rest] =>
        specialize (IH st1 Hrest); cbv zeta in IH;
        destruct (Modular.forEach now s st1 rest) as [st2 rest2]
    end.
    cbn [fst snd] in *. destruct IH as (-> & IH). exact (conj eq_refl IH).
Qed.

Lemma Modular_visit_skipped now s st el :
  Modular.visit now s (Modular_skipped st) el
  = (Modular_skipped (fst (Modular.visit now s st el)),
     snd (Modular.visit now s st el)).
Proof.
  unfold Modular.visit, Modular_skipped.
  destruct (hasAttribute el "data-filtered"); [reflexivity | ].
  destruct (Modular.applyAllFilters _ s); reflexivity.
Qed.

Lemma Modular_forEach_skipped now s cards : forall st,
  Modular.forEach now s (Modular_skipped st) cards
  = (Modular_skipped (fst (Modular.forEach now s st cards)),
     snd (Modular.forEach now s st cards)).
Proof.
  induction cards as [ | el rest IH]; intros st; cbn [Modular.forEach];
    [reflexivity | ].
  rewrite Modular_visit_skipped.
  destruct (Modular.visit now s st el) as [st1 el1]. cbn [fst snd].
  rewrite IH. destruct (Modular.forEach now s st1 rest); reflexivity.
Qed.

Lemma Modular_forEach_app now s l1 l2 : forall st,
  Modular.forEach now s st (l1 ++ l2)
  = let '(st1, c1) := Modular.forEach now s st l1 in
    let '(st2, c2) := Modular.forEach now s st1 l2 in
    (st2, c1 ++ c2).
Proof.
  induction l1 as [ | el l1 IH]; intros st; cbn [app Modular.forEach].
  - destruct (Modular.forEach now s st l2); reflexivity.
  - destruct (Modular.visit now s st el) as [st1 el1]. rewrite IH.
    destruct (Modular.forEach now s st1 l1) as [st2 c1].
    destruct (Modular.forEach now s st2 l2); reflexivity.
Qed.

(** A tagged container in the middle of the page: it comes out as it
    went in, and the rest of the pass is the pass without it, up to the
    count of skipped containers. *)
Lemma Modular_forEach_skip now s before el after st :
  hasAttribute el "data-filtered" = true ->
  let without := Modular.forEach now s st (before ++ after) in
  let cards1 := snd (Modular.forEach now s st before) in
  Modular.forEach now s st (before ++ el :: after)
  = (Modular_skipped (fst without),
     cards1 ++ el :: drop (length cards1) (snd without)).
Proof.
  intros Htag without cards1. subst without cards1.
  rewrite !Modular_forEach_app.
  destruct (Modular.forEach now s st before) as [st1 c1]. cbn [snd].
  cbn [Modular.forEach]. rewrite (Modular_visit_tagged _ _ _ _ Htag).
  fold (Modular_skipped st1). rewrite Modular_forEach_skipped.
  destruct (Modular.forEach now s st1 after) as [st2 c2]. cbn [fst snd].
  rewrite drop_app_length. reflexivity.
Qed.

Lemma initial_stats_allZero :
  allZero Content.initialStats /\ allZero Modular.DEFAULT_STATS.
Proof.
  split; apply map_Forall_to_list; vm_compute; repeat constructor.
Qed.

(** A second pass over what a pass left behind: no container changes,
    nothing is counted, nothing is stored. *)
Lemma Content_second_pass now now' s st st' cards :
  let cards1 := snd (Content.forEach now s st cards) in
  let again := Content.forEach now' s st' cards1 in
  snd again = cards1
  /\ Content.currentStats (fst again) = Content.currentStats st'
  /\ Content.newFilters (fst again) = Content.newFilters st'
  /\ Content.filteredVideos (fst again) = Content.filteredVideos st'
  /\ Content.dateCount (fst again) = Content.dateCount st'.
Proof.
  intros cards1 again. subst again cards1.
  apply Content_forEach_quiet, Content_forEach_leaves_quiet.
Qed.

Lemma Modular_second_pass now now' s st st' cards :
  let cards1 := snd (Modular.forEach now s st cards) in
  let again := Modular.forEach now' s st' cards1 in
  snd again = cards1
  /\ Modular.currentRunStats (fst again) = Modular.currentRunStats st'
  /\ Modular.newFilters (fst again) = Modular.newFilters st'
  /\ Modular.filteredVideos (fst again) = Modular.filteredVideos st'
  /\ Modular.dateCount (fst again) = Modular.dateCount st'.
Proof.
  intros cards1 again. subst again cards1.
  apply Modular_forEach_quiet, Modular_forEach_leaves_quiet.
Qed.

(** [runAllFilters] run twice is [runAllFilters] run once. *)
Lemma Content_runAllFilters_idempotent now now' w :
  Content.runAllFilters now' (Content.runAllFilters now w)
  = Content.runAllFilters now w.
Proof.
  remember (Content.runAllFilters now w) as w1 eqn:Hw1.
  unfold Content.runAllFilters in Hw1.
  destruct (negb (Content.viewsFilterEnabled (Content.filterSettings w))
            && negb (Content.durationFilterEnabled (Content.filterSettings w))
            && negb (Content.keywordsFilterEnabled (Content.filterSettings w))
            && negb (Content.ageFilterEnabled (Content.filterSettings w)))
    eqn:Hoff.
  - subst w1. unfold Content.runAllFilters. rewrite Hoff. reflexivity.
  - unfold Content.scan in Hw1.
    pose proof (fun st' =>
      Content_second_pass now now' (Content.filterSettings w)
        (Content.PassState Content.initialStats false 0 0
           (Content.storedVideos w) (Content.dates w)
                     (Content.storedVideos w))
        st' (Content.videoCards w)) as Hagain.
    cbv zeta in Hagain.
    destruct (Content.forEach now (Content.filterSettings w) _
                (Content.videoCards w)) as [st cards].
    cbn [snd] in Hagain.
    destruct (Content.newFilters st); subst w1;
      unfold Content.runAllFilters, Content.scan;
      cbn [Content.filterSettings Content.videoCards Content.storedVideos
           Content.dates Content.filterStats Content.storedStats];
      rewrite Hoff;
      match goal with
      | |- context [Content.forEach now' _ ?st0 cards] =>
          specialize (Hagain st0);
          destruct (Content.forEach now' (Content.filterSettings w) st0 cards)
            as [st2 cards2]
      end;
      cbn [fst snd Content.newFilters Content.filteredVideos
           Content.dateCount] in Hagain;
      destruct Hagain as (-> & _ & -> & -> & ->); reflexivity.
Qed.

Lemma Modular_runFilters_idempotent now now' w :
  Modular.runFilters now' (Modular.runFilters now w)
  = Modular.runFilters now w.
Proof.
  remember (Modular.runFilters now w) as w1 eqn:Hw1.
  unfold Modular.runFilters in Hw1.
  destruct (Modular.isInitialized w) eqn:Hinit;
    [ | subst w1; unfold Modular.runFilters; rewrite Hinit; reflexivity].
  destruct (Modular.engineSettings w) as [s | ] eqn:Hs;
    [ | subst w1; unfold Modular.runFilters; rewrite Hinit, Hs; reflexivity].
  destruct (negb (existsb (fun enabled : bool => enabled)
                    [ Modular.viewsFilterEnabled s;
                      Modular.durationFilterEnabled s;
                      Modular.keywordFilterEnabled s;
                      Modular.ageFilterEnabled s ])) eqn:Hoff.
  - subst w1. unfold Modular.runFilters. rewrite Hinit, Hs, Hoff. reflexivity.
  - unfold Modular.scan in Hw1.
    pose proof (fun st' =>
      Modular_second_pass now now' s
        (Modular.PassState Modular.DEFAULT_STATS false 0 0
           (Modular.storedVideos w) (Modular.dates w)
                     (Modular.storedVideos w))
        st' (Modular.videoCards w)) as Hagain.
    cbv zeta in Hagain.
    destruct (Modular.forEach now s _ (Modular.videoCards w)) as [st cards].
    cbn [snd] in Hagain.
    destruct (Modular.newFilters st); subst w1;
      unfold Modular.runFilters, Modular.scan;
      cbn [Modular.engineSettings Modular.isInitialized Modular.videoCards
           Modular.storedVideos Modular.dates Modular.engineStats
           Modular.storedStats];
      rewrite Hoff;
      match goal with
      | |- context [Modular.forEach now' _ ?st0 cards] =>
          specialize (Hagain st0);
          destruct (Modular.forEach now' s st0 cards) as [st2 cards2]
      end;
      cbn [fst snd Modular.newFilters Modular.filteredVideos
           Modular.dateCount] in Hagain;
      destruct Hagain as (-> & _ & -> & -> & ->); reflexivity.
Qed.

Lemma Content_forEach_length now s cards : forall st,
  length (snd (Content.forEach now s st cards)) = length cards.
Proof.
  induction cards as [ | el rest IH]; intros st; cbn [Content.forEach];
    [reflexivity | ].
  destruct (Content.visit now s st el) as [st1 el1]. specialize (IH st1).
  destruct (Content.forEach now s st1 rest). cbn [snd length] in *.
  rewrite IH. reflexivity.
Qed.

Lemma Modular_forEach_length now s cards : forall st,
  length (snd (Modular.forEach now s st cards)) = length cards.
Proof.
  induction cards as [ | el rest IH]; intros st; cbn [Modular.forEach];
    [reflexivity | ].
  destruct (Modular.visit now s st el) as [st1 el1]. specialize (IH st1).
  destruct (Modular.forEach now s st1 rest). cbn [snd length] in *.
  rewrite IH. reflexivity.
Qed.

(** With every filter switched off no predicate fires. *)
Lemma Content_all_off record s :
  negb (Content.viewsFilterEnabled s) && negb (Content.durationFilterEnabled s)
  && negb (Content.keywordsFilterEnabled s) && negb (Content.ageFilterEnabled s)
  = true ->
  Content.triggeredFilter record s = None.
Proof.
  intros H.
  apply andb_true_iff in H as [H Hage]. apply andb_true_iff in H as [H Hkw].
  apply andb_true_iff in H as [Hviews Hdur].
  rewrite Content_triggeredFilter_order.
  unfold Content.checkViewsFilter, Content.checkDurationFilter,
    Content.checkAgeFilter, Content.checkKeywordsFilter.
  rewrite Hviews, Hdur, Hage, Hkw. reflexivity.
Qed.

(** The scan that follows a run of [runAllFilters]: every container
    comes out as it went in and the delta stays at its start. *)
Lemma Content_scan_after_run now now' w :
  let w1 := Content.runAllFilters now w in
  snd (Content.scan now' w1) = Content.videoCards w1
  /\ Content.currentStats (fst (Content.scan now' w1)) = Content.initialStats
  /\ Content.newFilters (fst (Content.scan now' w1)) = false
  /\ Content.filteredVideos (fst (Content.scan now' w1))
     = Content.storedVideos w1.
Proof.
  intros w1.
  assert (Hquiet : Forall (fun el => Content_filtersNow (Content.filterSettings w1) el = false)
                          (Content.videoCards w1)).
  { subst w1. unfold Content.runAllFilters.
    destruct (negb (Content.viewsFilterEnabled (Content.filterSettings w))
              && negb (Content.durationFilterEnabled (Content.filterSettings w))
              && negb (Content.keywordsFilterEnabled (Content.filterSettings w))
              && negb (Content.ageFilterEnabled (Content.filterSettings w)))
      eqn:Hoff.
    - apply Forall_forall. intros el _. unfold Content_filtersNow.
      rewrite (Content_all_off _ _ Hoff).
      rewrite bool_decide_eq_false_2 by (intros [? ?]; discriminate).
      apply andb_false_r.
    - unfold Content.scan.
      pose proof (Content_forEach_leaves_quiet now (Content.filterSettings w)
                    (Content.videoCards w)
                    (Content.PassState Content.initialStats false 0 0
                       (Content.storedVideos w) (Content.dates w)
                     (Content.storedVideos w))) as Hq.
      destruct (Content.forEach now (Content.filterSettings w) _
                  (Content.videoCards w)) as [st cards].
      destruct (Content.newFilters st); exact Hq. }
  unfold Content.scan.
  destruct (Content_forEach_quiet now' (Content.filterSettings w1)
              (Content.videoCards w1)
              (Content.PassState Content.initialStats false 0 0
                 (Content.storedVideos w1) (Content.dates w1)
                     (Content.storedVideos w1)) Hquiet)
    as (Hcards & Hstats & Hnew & Hlog & _).
  auto.
Qed.

Lemma Modular_scan_after_run now now' w s :
  Modular.isInitialized w = true ->
  Modular.engineSettings w = Some s ->
  existsb (fun enabled : bool => enabled)
    [ Modular.viewsFilterEnabled s; Modular.durationFilterEnabled s;
      Modular.keywordFilterEnabled s; Modular.ageFilterEnabled s ] = true ->
  let w1 := Modular.runFilters now w in
  snd (Modular.scan now' s w1) = Modular.videoCards w1
  /\ Modular.currentRunStats (fst (Modular.scan now' s w1))
     = Modular.DEFAULT_STATS
  /\ Modular.newFilters (fst (Modular.scan now' s w1)) = false
  /\ Modular.filteredVideos (fst (Modular.scan now' s w1))
     = Modular.storedVideos w1.
Proof.
  intros Hinit Hs Hon w1.
  assert (Hquiet : Forall (fun el => Modular_filtersNow s el = false)
                          (Modular.videoCards w1)).
  { subst w1. unfold Modular.runFilters. rewrite Hinit, Hs, Hon.
    cbn [negb]. unfold Modular.scan.
    pose proof (Modular_forEach_leaves_quiet now s (Modular.videoCards w)
                  (Modular.PassState Modular.DEFAULT_STATS false 0 0
                     (Modular.storedVideos w) (Modular.dates w)
                     (Modular.storedVideos w))) as Hq.
    destruct (Modular.forEach now s _ (Modular.videoCards w)) as [st cards].
    destruct (Modular.newFilters st); exact Hq. }
  unfold Modular.scan.
  destruct (Modular_forEach_quiet now' s (Modular.videoCards w1)
              (Modular.PassState Modular.DEFAULT_STATS false 0 0
                 (Modular.storedVideos w1) (Modular.dates w1)
                     (Modular.storedVideos w1)) Hquiet)
    as (Hcards & Hstats & Hnew & Hlog & _).
  auto.
Qed.

(** C1.  A container that carries the [data-filtered] attribute is
    skipped by every pass: its visit moves the already-filtered counter
    and nothing else -- the container is returned as it was, and the
    processed counter, which counts the extractions and evaluations,
    the statistics delta, the log and the clock stay put.  With such a
    container anywhere on the page, the pass is the pass without it.  A
    second pass over what a pass left behind, with the same settings,
    changes no container and leaves the delta at its all-zero start;
    running the whole scan twice is running it once. *)
Theorem tagged_containers_skipped :
  (forall now s st el,
      hasAttribute el "data-filtered" = true ->
      Content.visit now s st el = (Content_skipped st, el))
  /\ (forall now s st el,
      hasAttribute el "data-filtered" = true ->
      Modular.visit now s st el = (Modular_skipped st, el))
  /\ (forall now s st before el after,
      hasAttribute el "data-filtered" = true ->
      let pass := Content.forEach now s st (before ++ el :: after) in
      let without := Content.forEach now s st (before ++ after) in
      fst pass = Content_skipped (fst without)
      /\ snd pass !! length before = Some el)
  /\ (forall now s st before el after,
      hasAttribute el "data-filtered" = true ->
      let pass := Modular.forEach now s st (before ++ el :: after) in
      let without := Modular.forEach now s st (before ++ after) in
      fst pass = Modular_skipped (fst without)
      /\ snd pass !! length before = Some el)
  /\ (forall now now' s st st' cards,
      let cards1 := snd (Content.forEach now s st cards) in
      let again := Content.forEach now' s st' cards1 in
      snd again = cards1
      /\ Content.currentStats (fst again) = Content.currentStats st'
      /\ Content.newFilters (fst again) = Content.newFilters st'
      /\ Content.filteredVideos (fst again) = Content.filteredVideos st'
      /\ Content.dateCount (fst again) = Content.dateCount st')
  /\ (forall now now' s st st' cards,
      let cards1 := snd (Modular.forEach now s st cards) in
      let again := Modular.forEach now' s st' cards1 in
      snd again = cards1
      /\ Modular.currentRunStats (fst again) = Modular.currentRunStats st'
      /\ Modular.newFilters (fst again) = Modular.newFilters st'
      /\ Modular.filteredVideos (fst again) = Modular.filteredVideos st'
      /\ Modular.dateCount (fst again) = Modular.dateCount st')
  /\ (forall now now' w,
      let w1 := Content.runAllFilters now w in
      Content.runAllFilters now' w1 = w1
      /\ snd (Content.scan now' w1) = Content.videoCards w1
      /\ allZero (Content.currentStats (fst (Content.scan now' w1))))
  /\ (forall now now' w s,
      Modular.isInitialized w = true ->
      Modular.engineSettings w = Some s ->
      existsb (fun enabled : bool => enabled)
        [ Modular.viewsFilterEnabled s; Modular.durationFilterEnabled s;
          Modular.keywordFilterEnabled s; Modular.ageFilterEnabled s ]
      = true ->
      let w1 := Modular.runFilters now w in
      Modular.runFilters now' w1 = w1
      /\ snd (Modular.scan now' s w1) = Modular.videoCards w1
      /\ allZero (Modular.currentRunStats (fst (Modular.scan now' s w1))))
  /\ (forall now now' w,
      Modular.runFilters now' (Modular.runFilters now w)
      = Modular.runFilters now w).
Proof.
  split; [exact Content_visit_tagged | ].
  split; [exact Modular_visit_tagged | ].
  split.
  { intros now s st before el after Htag pass without. subst pass without.
    rewrite (Content_forEach_skip now s before el after st Htag).
    cbn [fst snd]. split; [reflexivity | ].
    apply list_lookup_middle. rewrite Content_forEach_length. reflexivity. }
  split.
  { intros now s st before el after Htag pass without. subst pass without.
    rewrite (Modular_forEach_skip now s before el after st Htag).
    cbn [fst snd]. split; [reflexivity | ].
    apply list_lookup_middle. rewrite Modular_forEach_length. reflexivity. }
  split; [exact Content_second_pass | ].
  split; [exact Modular_second_pass | ].
  split.
  { intros now now' w w1. subst w1.
    split; [apply Content_runAllFilters_idempotent | ].
    destruct (Content_scan_after_run now now' w) as (Hcards & Hstats & _).
    split; [exact Hcards | ]. rewrite Hstats. apply initial_stats_allZero. }
  split; [ | exact Modular_runFilters_idempotent].
  intros now now' w s Hinit Hs Hon w1. subst w1.
  split; [apply Modular_runFilters_idempotent | ].
  destruct (Modular_scan_after_run now now' w s Hinit Hs Hon)
    as (Hcards & Hstats & _).
  split; [exact Hcards | ]. rewrite Hstats. apply initial_stats_allZero.
Qed.

Lemma tagged_containers_skipped_witness :
  let tagged :=
    Element {[ "data-filtered" := js "true" ]} (js "none") (fun _ => None)
            (Some (js "A mix without a view count")) in
  let untouched :=
    Element ∅ [] (fun _ => None) (Some (js "Another mix")) in
  let now := fun _ : nat => 0%Z in
  let c := Content.Settings true false false false
             (ofZ 10000) (ofZ 0) (ofZ 0) (ofZ 0) [] in
  let m := Modular.Settings true false false false
             (ofZ 10000) (ofZ 0) (ofZ 0) (ofZ 0) [] in
  let stc := Content.PassState Content.initialStats false 0 0 [] 0 [] in
  let stm := Modular.PassState Modular.DEFAULT_STATS false 0 0 [] 0 [] in
  let wm := Modular.World (Some m) Modular.DEFAULT_STATS true
              [untouched; tagged] [] None 0 in
  hasAttribute tagged "data-filtered" = true
  /\ Content.visit now c stc tagged = (Content_skipped stc, tagged)
  /\ Modular.visit now m stm tagged = (Modular_skipped stm, tagged)
  /\ (fst (Content.forEach now c stc [untouched; tagged])
      = Content_skipped (fst (Content.forEach now c stc [untouched]))
      /\ snd (Content.forEach now c stc [untouched; tagged]) !! 1%nat
         = Some tagged)
  /\ (fst (Modular.forEach now m stm [untouched; tagged])
      = Modular_skipped (fst (Modular.forEach now m stm [untouched]))
      /\ snd (Modular.forEach now m stm [untouched; tagged]) !! 1%nat
         = Some tagged)
  /\ (Modular.runFilters now (Modular.runFilters now wm)
      = Modular.runFilters now wm
      /\ snd (Modular.scan now m (Modular.runFilters now wm))
         = Modular.videoCards (Modular.runFilters now wm)
      /\ allZero (Modular.currentRunStats
                    (fst (Modular.scan now m (Modular.runFilters now wm))))).
Proof.
  intros tagged untouched now c m stc stm wm.
  assert (Htag : hasAttribute tagged "data-filtered" = true)
    by (vm_compute; reflexivity).
  destruct tagged_containers_skipped
    as (Hvisit & Hvisit' & Hpass & Hpass' & _ & _ & _ & Hagain & _).
  split; [exact Htag | ]. split; [apply Hvisit, Htag | ].
  split; [apply Hvisit', Htag | ].
  split; [exact (Hpass now c stc [untouched] tagged [] Htag) | ].
  split; [exact (Hpass' now m stm [untouched] tagged [] Htag) | ].
  apply (Hagain now now wm m); reflexivity.
Defined.

(* ------------------------------------------------------------------ *)
(** ** The statistics delta *)
(* ------------------------------------------------------------------ *)

(** C3.  One card whose title holds a banned keyword, keyword filter on:
    the card is newly filtered for the reason ["keyword"], but the delta
    is initialised with the key ["keywords"], so [stats[reason]++] finds
    no counter, makes a sixth key ["keyword"] holding [NaN], and the
    keyword count stays 0, in the delta and in the running totals.  In
    [content.js] the reason ["no-views"] misses its counter the same
    way.  Only [total] counts the card. *)
Theorem keyword_reason_misses_its_counter :
  let now := fun _ : nat => 0%Z in
  let card := sampleCard "Ending SPOILER Discussion"
                "Ending SPOILER Discussion 50K views 2 days ago" in
  let mix := sampleCard "Mix - Lofi beats" "Mix - Lofi beats" in
  let c := Content.Settings false false false true
             (ofZ 10000) (ofZ 0) (ofZ 0) (ofZ 0) [js "spoiler"] in
  let cv := Content.Settings true false false false
             (ofZ 10000) (ofZ 0) (ofZ 0) (ofZ 0) [] in
  let m := Modular.Settings false false true false
             (ofZ 10000) (ofZ 0) (ofZ 0) (ofZ 0) [js "spoiler"] in
  let wc := Content.World c Content.initialStats [card] [] None 0 in
  let wv := Content.World cv Content.initialStats [mix] [] None 0 in
  let wm := Modular.World (Some m) Modular.DEFAULT_STATS true [card] [] None 0 in
  let delta := Content.currentStats (fst (Content.scan now wc)) in
  let deltaV := Content.currentStats (fst (Content.scan now wv)) in
  let deltaM := Modular.currentRunStats (fst (Modular.scan now m wm)) in
  (* content.js, keyword *)
  (reason <$> Content.triggeredFilter (Content.extractVideoData card) c)
    = Some (Some "keyword"%string)
  /\ delta = {[ "views" := ofZ 0; "keywords" := ofZ 0; "duration" := ofZ 0;
                "age" := ofZ 0; "total" := ofZ 1; "keyword" := NaN ]}%string
  /\ Content.filterStats (Content.runAllFilters now wc) !! "keywords"%string
     = Some (ofZ 0)
  (* content.js, no view count *)
  /\ (reason <$> Content.triggeredFilter (Content.extractVideoData mix) cv)
     = Some (Some "no-views"%string)
  /\ deltaV = {[ "views" := ofZ 0; "keywords" := ofZ 0; "duration" := ofZ 0;
                 "age" := ofZ 0; "total" := ofZ 1; "no-views" := NaN ]}%string
  /\ Content.filterStats (Content.runAllFilters now wv) !! "views"%string
     = Some (ofZ 0)
  (* the filter engine, keyword *)
  /\ (reason <$> Modular.applyAllFilters (Modular.extractVideoData card) m)
     = Some (Some "keyword"%string)
  /\ deltaM = {[ "views" := ofZ 0; "keywords" := ofZ 0; "duration" := ofZ 0;
                 "age" := ofZ 0; "total" := ofZ 1; "keyword" := NaN ]}%string
  /\ Modular.engineStats (Modular.runFilters now wm) !! "keywords"%string
     = Some (ofZ 0).
Proof.
  intros now card mix c cv m wc wv wm delta deltaV deltaM.
  repeat split; vm_compute; reflexivity.
Qed.




Lemma Modular_duration_reason record s :
  shouldFilter (Modular.checkDurationFilter record s) = true ->
  reason (Modular.checkDurationFilter record s) = Some "duration"%string.
Proof.
  unfold Modular.checkDurationFilter.
  repeat match goal with
         | |- context [if ?b then _ else _] =>
             destruct b; try discriminate; try reflexivity
         end.
Qed.














(* ================================================================== *)
(** * Further properties *)
(* ================================================================== *)

(** ** The matcher against the patterns it runs *)

Section MatcherSound.
Context {R : Type}.
Implicit Types (k : nat -> jsstring -> captures -> option R).

(** What a successful run has done by the time it calls its
    continuation: it has consumed a prefix the pattern accepts, and has
    bound no group but its own. *)
Lemma run_sound r :
  forall i s c k res,
    run r i s c k = Some res ->
    exists m s' c',
      s = m ++ s' /\ accepts r i m
      /\ (forall g, g ∉ groups r -> capture g c' = capture g c)
      /\ k (i + length m)%nat s' c' = Some res.
Proof.
  induction r as [ | p | a IHa b IHb | a IHa b IHb | a IHa | g a IHa | ];
    intros i s c k res H; cbn [run] in H.
  - exists [], s, c. rewrite Nat.add_0_r. repeat split; [constructor | exact H].
  - destruct s as [ | x s']; [discriminate | ].
    destruct (p x) eqn:Hp; [ | discriminate].
    exists [x], s', c. simpl. replace (i + 1)%nat with (S i) by lia.
    repeat split; [constructor; exact Hp | exact H].
  - apply IHa in H as (m1 & s1 & c1 & -> & Ha & Hc1 & H).
    apply IHb in H as (m2 & s2 & c2 & -> & Hb & Hc2 & H).
    exists (m1 ++ m2), s2, c2. rewrite length_app, Nat.add_assoc.
    split; [rewrite app_assoc; reflexivity | ].
    split; [constructor; assumption | ].
    split; [ | exact H].
    intros g Hg. cbn [groups] in Hg. rewrite not_elem_of_app in Hg.
    rewrite Hc2, Hc1; tauto.
  - destruct (run a i s c k) as [res' | ] eqn:Ha.
    + injection H as <-.
      apply IHa in Ha as (m & s' & c' & -> & Hm & Hc & H).
      exists m, s', c'. repeat split; [constructor; exact Hm | | exact H].
      intros g Hg. cbn [groups] in Hg. rewrite not_elem_of_app in Hg.
      apply Hc; tauto.
    + apply IHb in H as (m & s' & c' & -> & Hm & Hc & H).
      exists m, s', c'.
      repeat split; [apply accepts_Alt_r; exact Hm | | exact H].
      intros g Hg. cbn [groups] in Hg. rewrite not_elem_of_app in Hg.
      apply Hc; tauto.
  - set (fuel := length s) in H. clearbody fuel. revert i s c H.
    induction fuel as [ | fuel IH]; intros i s c H; cbn [starLoop] in H.
    + exists [], s, c. rewrite Nat.add_0_r.
      repeat split; [constructor | exact H].
    + match type of H with
      | match ?m with _ => _ end = _ => destruct m as [res' | ] eqn:Ha
      end.
      * injection H as <-.
        apply IHa in Ha as (m1 & s1 & c1 & -> & Hm1 & Hc1 & Ha).
        destruct (i <? i + length m1)%nat; [ | discriminate].
        apply IH in Ha as (m2 & s2 & c2 & -> & Hm2 & Hc2 & Ha).
        exists (m1 ++ m2), s2, c2. rewrite length_app, Nat.add_assoc.
        split; [rewrite app_assoc; reflexivity | ].
        split; [econstructor; eassumption | ].
        split; [ | exact Ha].
        intros g Hg. rewrite Hc2, Hc1; [reflexivity | exact Hg | exact Hg].
      * exists [], s, c. rewrite Nat.add_0_r.
        repeat split; [constructor | exact H].
  - apply IHa in H as (m & s' & c' & -> & Hm & Hc & H).
    exists m, s', ((g, m) :: c').
    replace (i + length m - i)%nat with (length m) in H by lia.
    rewrite take_app_length in H.
    repeat split; [constructor; exact Hm | | exact H].
    intros g' Hg'. cbn [groups] in Hg'. rewrite not_elem_of_cons in Hg'.
    cbn [capture]. destruct (Nat.eqb_spec g g') as [-> | _]; [tauto | ].
    apply Hc; tauto.
  - destruct (Nat.eqb_spec i 0) as [-> | _]; [ | discriminate].
    exists [], s, c. repeat split; [constructor | exact H].
Qed.

(** A group that has matched holds what its body consumed. *)
Lemma run_Grp_sound g a i s c k res :
  run (Grp g a) i s c k = Some res ->
  exists m s' c',
    s = m ++ s' /\ accepts a i m
    /\ (forall g', g' ∉ groups a -> capture g' c' = capture g' c)
    /\ k (i + length m)%nat s' ((g, m) :: c') = Some res.
Proof.
  intros H. cbn [run] in H.
  apply run_sound in H as (m & s' & c' & -> & Hm & Hc & H).
  replace (i + length m - i)%nat with (length m) in H by lia.
  rewrite take_app_length in H. eauto 10.
Qed.

End MatcherSound.

(** The match a search reports: where it starts, what it covers, and
    the run that produced it. *)
Lemma search_sound r : forall s i m,
  search r i s = Some m ->
  exists pre rest e,
    s = pre ++ rest
    /\ m_index m = (i + length pre)%nat
    /\ run r (m_index m) rest [] (fun i' _ c' => Some (i', c'))
       = Some (e, m_caps m)
    /\ m_text m = take (e - m_index m) rest.
Proof.
  induction s as [ | x s IH]; intros i m H; cbn [search] in H.
  - destruct (run r i [] [] _) as [[e c] | ] eqn:Hr; [ | discriminate].
    injection H as <-. exists [], [], e. simpl. rewrite Nat.add_0_r.
    repeat split. exact Hr.
  - destruct (run r i (x :: s) [] _) as [[e c] | ] eqn:Hr.
    + injection H as <-. exists [], (x :: s), e. cbn [m_index m_caps m_text].
      simpl length. rewrite Nat.add_0_r. repeat split. exact Hr.
    + apply IH in H as (pre & rest & e & -> & Hi & Hrun & Ht).
      exists (x :: pre), rest, e. simpl length.
      repeat split; [lia | exact Hrun | exact Ht].
Qed.

(** The text of a match is a part of the input that the pattern
    accepts at the offset of the match. *)
Lemma search_accepts r s i m :
  search r i s = Some m ->
  exists pre post,
    s = pre ++ m_text m ++ post
    /\ m_index m = (i + length pre)%nat
    /\ accepts r (m_index m) (m_text m).
Proof.
  intros H. apply search_sound in H as (pre & rest & e & -> & Hi & Hrun & Ht).
  apply run_sound in Hrun as (t & post & c' & -> & Hacc & _ & Hk).
  injection Hk as <- _.
  replace (m_index m + length t - m_index m)%nat with (length t) in Ht by lia.
  rewrite take_app_length in Ht. rewrite Ht. eauto 10.
Qed.

(** What a loop over a character class accepts. *)
Lemma accepts_Star_class p i m :
  accepts (Star (Chr p)) i m -> forallb p m = true.
Proof.
  intros H. remember (Star (Chr p)) as r eqn:Hr. revert Hr.
  induction H as [ | | | | | | a i m1 m2 H1 _ H2 IH2 | | ];
    intros Hr; try discriminate.
  - reflexivity.
  - injection Hr as ->. inversion H1; subst. simpl.
    rewrite IH2 by reflexivity. rewrite andb_true_r. assumption.
Qed.

Lemma accepts_Plus_class p i m :
  accepts (Plus (Chr p)) i m ->
  exists x m', m = x :: m' /\ p x = true /\ forallb p m' = true.
Proof.
  intros H. unfold Plus in H. inversion H as [ | | a b j m1 m2 H1 H2 | | | | | | ]; subst.
  inversion H1; subst. apply accepts_Star_class in H2. simpl. eauto.
Qed.

Lemma accepts_Plus_digit i m : accepts (Plus digit) i m -> isDigits m = true.
Proof.
  intros H. apply accepts_Plus_class in H as (x & m' & -> & Hx & Hm).
  simpl. rewrite Hx, Hm. reflexivity.
Qed.

(** ** The ranges of the parsers *)

(** *** What the parsers can return *)

Lemma digitsValue_nonneg ds : (0 <= digitsValue ds)%Z.
Proof. apply digitsValue_nonneg_step. lia. Qed.

(** [parseInt] without a radix reads a run of digits in base 10. *)
Lemma parseInt_digits ds :
  isDigits ds = true -> parseInt ds = ofZ (digitsValue ds).
Proof.
  intros Hds. pose proof (parseInt10_digits _ Hds) as H10.
  rewrite (trim_digits _ Hds) in H10.
  destruct (isDigits_cons _ Hds) as (c & ds' & -> & Hc & Hds').
  unfold parseInt. rewrite (trimStart_fixed _ _ (digit_not_space _ Hc)).
  rewrite (digit_not_sign _ _ Hc).
  destruct (N.eq_dec c 48%N) as [-> | Hc0].
  - destruct ds' as [ | x h]; [exact H10 | ].
    cbn [forallb] in Hds'. apply andb_true_iff in Hds' as [Hx _].
    apply digit_range in Hx.
    rewrite (proj2 (N.eqb_neq x 120)), (proj2 (N.eqb_neq x 88)) by lia.
    exact H10.
  - destruct c as [ | p]; [exact H10 | ].
    repeat (destruct p as [p | p | ]; try exact H10); congruence.
Qed.

(** In a pattern that opens with [(\d+)] and has no other group 1,
    group 1 of every match is a non-empty run of digits. *)
Lemma leading_digits_group rest s i m :
  1%nat ∉ groups rest ->
  search (Seq (Grp 1 (Plus digit)) rest) i s = Some m ->
  exists ds, group 1 m = Some ds /\ isDigits ds = true.
Proof.
  intros Hrest H.
  apply search_sound in H as (pre & s' & e & _ & _ & Hrun & _).
  rewrite run_Seq in Hrun.
  apply run_Grp_sound in Hrun as (ds & s1 & c1 & _ & Hds & _ & Hrun).
  apply run_sound in Hrun as (m2 & s2 & c2 & _ & _ & Hc2 & Hk).
  injection Hk as _ Hcaps. exists ds. unfold group.
  rewrite <- Hcaps, (Hc2 1%nat Hrest). cbn [capture Nat.eqb].
  split; [reflexivity | apply (accepts_Plus_digit _ _ Hds)].
Qed.

Lemma parseIntGroup_leading_digits rest s m :
  1%nat ∉ groups rest ->
  matchRe s (Seq (Grp 1 (Plus digit)) rest) = Some m ->
  exists z, (0 <= z)%Z /\ parseIntGroup 1 m = ofZ z.
Proof.
  intros Hrest H.
  destruct (leading_digits_group _ _ _ _ Hrest H) as (ds & Hg & Hds).
  exists (digitsValue ds). split; [apply digitsValue_nonneg | ].
  unfold parseIntGroup. rewrite Hg. apply parseInt_digits, Hds.
Qed.

Ltac not_a_group :=
  let H := fresh in
  intros H; apply list_elem_of_In in H; vm_compute in H;
  intuition discriminate.

Lemma re_year_groups : 1%nat ∉ groups (Plus space · str_i "year")%re.
Proof. not_a_group. Qed.

(** *** Digit runs of bounded length *)

Lemma digitCount_app a b :
  digitCount (a ++ b) = (digitCount a + digitCount b)%nat.
Proof. unfold digitCount. rewrite List.filter_app, length_app. reflexivity. Qed.

Lemma digitCount_cons c s : (digitCount s <= digitCount (c :: s))%nat.
Proof. unfold digitCount. simpl. destruct (isDigit c); simpl; lia. Qed.

Lemma digitCount_digits ds :
  forallb isDigit ds = true -> digitCount ds = length ds.
Proof.
  unfold digitCount. induction ds as [ | d ds IH]; simpl; [reflexivity | ].
  intros H. apply andb_true_iff in H as [Hd Hds].
  rewrite Hd. simpl. rewrite (IH Hds). reflexivity.
Qed.

Lemma digitCount_trimStart s : (digitCount (trimStart s) <= digitCount s)%nat.
Proof.
  induction s as [ | c s IH]; simpl; [lia | ].
  destruct (isWhiteSpace c); [ | lia].
  pose proof (digitCount_cons c s). lia.
Qed.

Lemma digitCount_rev s : digitCount (rev s) = digitCount s.
Proof.
  induction s as [ | c s IH]; [reflexivity | ].
  simpl rev. rewrite digitCount_app, IH.
  change (c :: s) with ([c] ++ s). rewrite digitCount_app. lia.
Qed.

Lemma digitCount_trim s : (digitCount (trim s) <= digitCount s)%nat.
Proof.
  unfold trim, trimEnd. rewrite digitCount_rev.
  pose proof (digitCount_trimStart (rev (trimStart s))) as H.
  rewrite digitCount_rev in H.
  pose proof (digitCount_trimStart s). lia.
Qed.

Lemma digitCount_split part sep s :
  In part (split sep s) -> (digitCount part <= digitCount s)%nat.
Proof.
  revert part. induction s as [ | c s IH]; intros part Hpart; simpl in Hpart.
  - destruct Hpart as [<- | []]. lia.
  - pose proof (digitCount_cons c s) as Hc.
    destruct (c =? sep)%N.
    + destruct Hpart as [<- | Hpart]; [unfold digitCount; simpl; lia | ].
      specialize (IH _ Hpart). lia.
    + destruct (split sep s) as [ | p ps] eqn:Hs.
      * destruct Hpart as [<- | []].
        change [c] with ([c] ++ []). change (c :: s) with ([c] ++ s).
        rewrite !digitCount_app. unfold digitCount at 2. simpl. lia.
      * destruct Hpart as [<- | Hpart].
        -- specialize (IH p (or_introl eq_refl)).
           change (c :: p) with ([c] ++ p). change (c :: s) with ([c] ++ s).
           rewrite !digitCount_app. lia.
        -- specialize (IH part (or_intror Hpart)). lia.
Qed.

Lemma digitCount_takeSign s :
  (digitCount (snd (takeSign s)) <= digitCount s)%nat.
Proof.
  unfold takeSign. destruct s as [ | c t]; [simpl; lia | ].
  pose proof (digitCount_cons c t).
  destruct c as [ | q]; [simpl; lia | ].
  repeat (destruct q as [q | q | ]; try (simpl snd; lia)).
Qed.

Lemma span_digits_count s :
  forallb isDigit (fst (span isDigit s)) = true
  /\ (length (fst (span isDigit s)) <= digitCount s)%nat.
Proof.
  induction s as [ | c s [IH1 IH2]]; [split; [reflexivity | simpl; lia] | ].
  change (c :: s) with ([c] ++ s) at 3. rewrite digitCount_app.
  cbn [span]. destruct (isDigit c) eqn:Hc.
  - destruct (span isDigit s) as [a b]. cbn [fst forallb length] in *.
    rewrite Hc, IH1. split; [reflexivity | ].
    unfold digitCount at 1. cbn [List.filter]. rewrite Hc. simpl length. lia.
  - split; [reflexivity | simpl; lia].
Qed.

(** A run of [n] digits reads as a number below [10^n]. *)
Lemma digitsValue_below_step ds : forall acc,
  forallb isDigit ds = true ->
  (0 <= acc)%Z ->
  (fold_left (fun acc d => acc * 10 + Z.of_N (d - 48)) ds acc
   < (acc + 1) * 10 ^ Z.of_nat (length ds))%Z.
Proof.
  induction ds as [ | d ds IH]; intros acc Hds Hacc.
  - simpl. lia.
  - cbn [forallb] in Hds. apply andb_true_iff in Hds as [Hd Hds].
    apply digit_range in Hd. cbn [fold_left length].
    eapply Z.lt_le_trans; [apply IH; [exact Hds | lia] | ].
    rewrite Nat2Z.inj_succ, Z.pow_succ_r by lia.
    assert (0 < 10 ^ Z.of_nat (length ds))%Z by (apply Z.pow_pos_nonneg; lia).
    nia.
Qed.

Lemma digitsValue_below ds n :
  forallb isDigit ds = true ->
  (length ds <= n)%nat ->
  (digitsValue ds < 10 ^ Z.of_nat n)%Z.
Proof.
  intros Hds Hn. unfold digitsValue.
  eapply Z.lt_le_trans; [apply digitsValue_below_step; [exact Hds | lia] | ].
  rewrite Z.mul_1_l. apply Z.pow_le_mono_r; lia.
Qed.

Lemma ofZ_inj a b : ofZ a = ofZ b -> a = b.
Proof. unfold ofZ, inject_Z. intros H. injection H as H. exact H. Qed.

(** As [leading_digits_group], with the length of the run. *)
Lemma leading_digits_group_count rest s i m :
  1%nat ∉ groups rest ->
  search (Seq (Grp 1 (Plus digit)) rest) i s = Some m ->
  exists ds, group 1 m = Some ds /\ isDigits ds = true
             /\ (length ds <= digitCount s)%nat.
Proof.
  intros Hrest H.
  apply search_sound in H as (pre & s' & e & -> & _ & Hrun & _).
  rewrite run_Seq in Hrun.
  apply run_Grp_sound in Hrun as (ds & s1 & c1 & -> & Hds & _ & Hrun).
  apply run_sound in Hrun as (m2 & s2 & c2 & _ & _ & Hc2 & Hk).
  injection Hk as _ Hcaps. exists ds. unfold group.
  rewrite <- Hcaps, (Hc2 1%nat Hrest). cbn [capture Nat.eqb].
  pose proof (accepts_Plus_digit _ _ Hds) as Hdigits.
  split; [reflexivity | split; [exact Hdigits | ]].
  rewrite !digitCount_app, (digitCount_digits ds (isDigits_all _ Hdigits)).
  lia.
Qed.

Lemma parseIntGroup_leading_digits_below rest s m n :
  1%nat ∉ groups rest ->
  (digitCount s <= n)%nat ->
  matchRe s (Seq (Grp 1 (Plus digit)) rest) = Some m ->
  exists z, (0 <= z < 10 ^ Z.of_nat n)%Z /\ parseIntGroup 1 m = ofZ z.
Proof.
  intros Hrest Hn H.
  destruct (leading_digits_group_count _ _ _ _ Hrest H)
    as (ds & Hg & Hds & Hlen).
  exists (digitsValue ds). split.
  - split; [apply digitsValue_nonneg | ].
    apply digitsValue_below; [apply isDigits_all, Hds | lia].
  - unfold parseIntGroup. rewrite Hg. apply parseInt_digits, Hds.
Qed.

(** The digits a value holds when it is a string. *)
Lemma textDigits_string s : textDigits (VString s) = digitCount s.
Proof. reflexivity. Qed.

(** X22.  [parseVideoAge] returns a whole number of years, never
    negative and never [NaN], on [null], on [undefined] and on every
    string that holds at most 15 digits; the number is below 10^15, so
    that [parseInt] has read its digits without rounding. *)
Theorem parseVideoAge_whole_years (text : value) :
  isText text ->
  (textDigits text <= 15)%nat ->
  exists z, (0 <= z < 10 ^ 15)%Z /\ parseVideoAge text = Normal (ofZ z).
Proof.
  intros Htext Hdigits. unfold parseVideoAge.
  destruct text as [ | | | | s | | ]; try contradiction;
    try (exists 0%Z; split; [lia | reflexivity]).
  destruct (negb (truthy (VString s)));
    [exists 0%Z; split; [lia | reflexivity] | ].
  destruct (matchRe s re_year) as [m | ] eqn:Hm;
    [ | exists 0%Z; split; [lia | reflexivity]].
  destruct (parseIntGroup_leading_digits_below _ _ _ 15 re_year_groups
              Hdigits Hm) as (z & Hz & ->).
  eauto.
Qed.

Lemma parseVideoAge_whole_years_witness :
  isText (VString (js "Streamed 12 years ago"))
  /\ exists z, (0 <= z < 10 ^ 15)%Z
       /\ parseVideoAge (VString (js "Streamed 12 years ago")) = Normal (ofZ z).
Proof.
  split; [exact I | ].
  apply (parseVideoAge_whole_years (VString (js "Streamed 12 years ago")));
    [exact I | vm_compute; lia].
Defined.

Lemma In_trimStart x s : In x (trimStart s) -> In x s.
Proof.
  induction s as [ | c s IH]; simpl; [tauto | ].
  destruct (isWhiteSpace c); simpl; tauto.
Qed.

Lemma In_trim x s : In x (trim s) -> In x s.
Proof.
  unfold trim, trimEnd. intros H. apply In_trimStart.
  apply in_rev in H. apply In_trimStart in H. apply in_rev, H.
Qed.

Lemma In_split x part sep s :
  In part (split sep s) -> In x part -> In x s.
Proof.
  revert part. induction s as [ | c s IH]; intros part Hpart Hx; simpl in Hpart.
  - destruct Hpart as [<- | []]. exact Hx.
  - destruct (c =? sep)%N.
    + destruct Hpart as [<- | Hpart]; [destruct Hx | ].
      right. eapply IH; eassumption.
    + destruct (split sep s) as [ | p ps] eqn:Hs.
      * destruct Hpart as [<- | []]. destruct Hx as [<- | []]. left; reflexivity.
      * destruct Hpart as [<- | Hpart].
        -- destruct Hx as [<- | Hx]; [left; reflexivity | ].
           right. apply (IH p); [left; reflexivity | exact Hx].
        -- right. apply (IH part); [right; exact Hpart | exact Hx].
Qed.

(** [parseInt(_, 10)] gives [NaN] or a whole number, negative only
    behind a minus sign. *)
Lemma parseInt10_whole s :
  parseInt10 s = NaN
  \/ exists z, parseInt10 s = ofZ z /\ (~ In (cu "-") s -> (0 <= z)%Z).
Proof.
  unfold parseInt10.
  destruct (takeSign (trimStart s)) as [neg u] eqn:Hsign.
  destruct (span isDigit u) as [ds r].
  destruct ds as [ | d ds]; [left; reflexivity | right].
  eexists. split; [reflexivity | ]. intros Hminus.
  destruct neg; [ | apply digitsValue_nonneg].
  exfalso. apply Hminus, In_trimStart.
  unfold takeSign in Hsign.
  destruct (trimStart s) as [ | c t]; [discriminate | ].
  destruct (N.eq_dec c 45%N) as [-> | Hc]; [left; reflexivity | ].
  destruct c as [ | p]; [discriminate | ].
  repeat (destruct p as [p | p | ]; try discriminate). congruence.
Qed.

Lemma colonParts_whole cleaned :
  existsb isNaN (colonParts cleaned) = false ->
  Forall (fun p => exists z, p = ofZ z
                     /\ (~ In (cu "-") cleaned -> (0 <= z)%Z))
         (colonParts cleaned).
Proof.
  unfold colonParts. intros H. apply Forall_forall. intros p Hp.
  apply list_elem_of_In, in_map_iff in Hp as (part & <- & Hpart).
  destruct (parseInt10_whole (trim part)) as [Hnan | (z & Hz & Hsign)].
  - exfalso. apply not_true_iff_false in H. apply H, existsb_exists.
    exists (parseInt10 (trim part)). split.
    + apply in_map_iff. eauto.
    + rewrite Hnan. reflexivity.
  - exists z. split; [exact Hz | ]. intros Hminus. apply Hsign.
    intros Hin. apply Hminus. eapply In_split; [exact Hpart | ].
    apply In_trim, Hin.
Qed.

Lemma re_duration_groups :
  (1%nat ∉ groups (Star space · chr_i "h" · Opt (Grp 2 (str_i "our"))
                   · Opt (chr_i "s"))%re)
  /\ (1%nat ∉ groups (Star space · chr_i "m"
                      · Opt (Grp 2 (str_i "in" · Opt (Grp 3 (str_i "ute"))))
                      · Opt (chr_i "s"))%re)
  /\ (1%nat ∉ groups (Star space · chr_i "s"
                      · Opt (Grp 2 (str_i "ec" · Opt (Grp 3 (str_i "ond"))))
                      · Opt (chr_i "s"))%re).
Proof. repeat split; not_a_group. Qed.

(** The text format adds up whole, non-negative numbers. *)
Lemma parseDurationText_whole cleaned :
  exists z, (0 <= z)%Z /\ parseDurationText cleaned = ofZ z.
Proof.
  destruct re_duration_groups as (Hh & Hm & Hs).
  unfold parseDurationText.
  assert (H1 : exists z1, (0 <= z1)%Z /\
            match matchRe cleaned re_hour with
            | Some hourMatch => ofZ 0 +n parseIntGroup 1 hourMatch *n ofZ 3600
            | None => ofZ 0
            end = ofZ z1).
  { destruct (matchRe cleaned re_hour) as [m | ] eqn:E;
      [ | exists 0%Z; split; [lia | reflexivity]].
    destruct (parseIntGroup_leading_digits _ _ _ Hh E) as (z & Hz & ->).
    rewrite ofZ_mul, ofZ_add. eexists. split; [ | reflexivity]. lia. }
  destruct H1 as (z1 & Hz1 & ->).
  assert (H2 : exists z2, (0 <= z2)%Z /\
            match matchRe cleaned re_min with
            | Some minMatch => ofZ z1 +n parseIntGroup 1 minMatch *n ofZ 60
            | None => ofZ z1
            end = ofZ z2).
  { destruct (matchRe cleaned re_min) as [m | ] eqn:E; [ | eauto].
    destruct (parseIntGroup_leading_digits _ _ _ Hm E) as (z & Hz & ->).
    rewrite ofZ_mul, ofZ_add. eexists. split; [ | reflexivity]. lia. }
  destruct H2 as (z2 & Hz2 & ->).
  destruct (matchRe cleaned re_sec) as [m | ] eqn:E; [ | eauto].
  destruct (parseIntGroup_leading_digits _ _ _ Hs E) as (z & Hz & ->).
  rewrite ofZ_add. eexists. split; [ | reflexivity]. lia.
Qed.

(** The size of what [parseInt(_, 10)] reads. *)
Lemma parseInt10_below s n z :
  (digitCount s <= n)%nat ->
  parseInt10 s = ofZ z -> (Z.abs z < 10 ^ Z.of_nat n)%Z.
Proof.
  unfold parseInt10. intros Hn.
  pose proof (digitCount_takeSign (trimStart s)) as Hsign.
  pose proof (digitCount_trimStart s) as Htrim.
  destruct (takeSign (trimStart s)) as [neg u]. cbn [snd] in Hsign.
  destruct (span_digits_count u) as [Hds Hlen].
  destruct (span isDigit u) as [ds r]. cbn [fst] in Hds, Hlen.
  destruct ds as [ | d ds]; [discriminate | ].
  intros H. apply ofZ_inj in H. subst z.
  pose proof (digitsValue_nonneg (d :: ds)).
  pose proof (digitsValue_below (d :: ds) n Hds ltac:(lia)).
  destruct neg; cbn [signed]; lia.
Qed.

Lemma colonParts_below cleaned n :
  (digitCount cleaned <= n)%nat ->
  Forall (fun p => forall z, p = ofZ z -> (Z.abs z < 10 ^ Z.of_nat n)%Z)
         (colonParts cleaned).
Proof.
  unfold colonParts. intros Hn. apply Forall_forall. intros p Hp z Hz.
  apply list_elem_of_In, in_map_iff in Hp as (part & <- & Hpart).
  apply (parseInt10_below (trim part)); [ | exact Hz].
  pose proof (digitCount_trim part).
  pose proof (digitCount_split _ _ _ Hpart). lia.
Qed.

(** The text format, with the size of the sum. *)
Lemma parseDurationText_below cleaned n :
  (digitCount cleaned <= n)%nat ->
  exists z, (0 <= z < 3661 * 10 ^ Z.of_nat n)%Z
            /\ parseDurationText cleaned = ofZ z.
Proof.
  intros Hn. destruct re_duration_groups as (Hh & Hm & Hs).
  assert (Hpow : (0 < 10 ^ Z.of_nat n)%Z) by (apply Z.pow_pos_nonneg; lia).
  unfold parseDurationText.
  assert (H1 : exists z1, (0 <= z1 < 3600 * 10 ^ Z.of_nat n)%Z /\
            match matchRe cleaned re_hour with
            | Some hourMatch => ofZ 0 +n parseIntGroup 1 hourMatch *n ofZ 3600
            | None => ofZ 0
            end = ofZ z1).
  { destruct (matchRe cleaned re_hour) as [m | ] eqn:E;
      [ | exists 0%Z; split; [lia | reflexivity]].
    destruct (parseIntGroup_leading_digits_below _ _ _ n Hh Hn E)
      as (z & Hz & ->).
    rewrite ofZ_mul, ofZ_add. eexists. split; [ | reflexivity]. lia. }
  destruct H1 as (z1 & Hz1 & ->).
  assert (H2 : exists z2, (0 <= z2 < 3660 * 10 ^ Z.of_nat n)%Z /\
            match matchRe cleaned re_min with
            | Some minMatch => ofZ z1 +n parseIntGroup 1 minMatch *n ofZ 60
            | None => ofZ z1
            end = ofZ z2).
  { destruct (matchRe cleaned re_min) as [m | ] eqn:E;
      [ | exists z1; split; [lia | reflexivity]].
    destruct (parseIntGroup_leading_digits_below _ _ _ n Hm Hn E)
      as (z & Hz & ->).
    rewrite ofZ_mul, ofZ_add. eexists. split; [ | reflexivity]. lia. }
  destruct H2 as (z2 & Hz2 & ->).
  destruct (matchRe cleaned re_sec) as [m | ] eqn:E;
    [ | exists z2; split; [lia | reflexivity]].
  destruct (parseIntGroup_leading_digits_below _ _ _ n Hs Hn E)
    as (z & Hz & ->).
  rewrite ofZ_add. eexists. split; [ | reflexivity]. lia.
Qed.

(** X23.  [parseDuration] returns a whole number of seconds, never
    [NaN], on every string that holds at most 12 digits; it is negative
    only if the text holds a minus sign.  The number is below 2^53 in
    magnitude, and so is every product and sum on the way to it: the
    source computes it without rounding. *)
Theorem parseDuration_whole_seconds (text : jsstring) :
  (digitCount text <= 12)%nat ->
  exists z,
    parseDuration (VString text) = Normal (ofZ z)
    /\ (Z.abs z < 2 ^ 53)%Z
    /\ (~ In (cu "-") text -> (0 <= z)%Z).
Proof.
  intros Hdigits.
  pose proof (digitCount_trim text) as Htrim.
  assert (Hn : (digitCount (trim text) <= 12)%nat) by lia.
  assert (Htext : exists z, Normal (parseDurationText (trim text))
                            = Normal (ofZ z)
                            /\ (Z.abs z < 2 ^ 53)%Z
                            /\ (~ In (cu "-") text -> (0 <= z)%Z)).
  { destruct (parseDurationText_below (trim text) 12 Hn) as (z & Hz & ->).
    exists z. change (10 ^ Z.of_nat 12)%Z with 1000000000000%Z in Hz.
    change (2 ^ 53)%Z with 9007199254740992%Z.
    split; [reflexivity | split; lia]. }
  assert (Hzero : exists z, @Normal number (ofZ 0) = Normal (ofZ z)
                            /\ (Z.abs z < 2 ^ 53)%Z
                            /\ (~ In (cu "-") text -> (0 <= z)%Z)).
  { exists 0%Z. split; [reflexivity | split; [reflexivity | lia]]. }
  unfold parseDuration.
  destruct (negb (truthy (VString text))); [exact Hzero | ].
  destruct (includes (trim text) (js ":")); [ | exact Htext].
  destruct (existsb isNaN (colonParts (trim text))) eqn:Hnan;
    [exact Hzero | ].
  pose proof (colonParts_whole _ Hnan) as Hparts.
  pose proof (colonParts_below _ 12 Hn) as Hbelow.
  change (10 ^ Z.of_nat 12)%Z with 1000000000000%Z in Hbelow.
  change (2 ^ 53)%Z with 9007199254740992%Z.
  assert (Hsign : forall z, (~ In (cu "-") (trim text) -> (0 <= z)%Z) ->
                            ~ In (cu "-") text -> (0 <= z)%Z).
  { intros z H Hminus. apply H. intros Hin. apply Hminus, In_trim, Hin. }
  destruct (colonParts (trim text)) as [ | p0 [ | p1 [ | p2 [ | p3 l]]]];
    try exact Htext.
  - apply Forall_cons in Hparts as [(z0 & -> & H0) Hparts].
    apply Forall_cons in Hparts as [(z1 & -> & H1) _].
    apply Forall_cons in Hbelow as [B0 Hbelow].
    apply Forall_cons in Hbelow as [B1 _].
    specialize (B0 _ eq_refl). specialize (B1 _ eq_refl).
    rewrite ofZ_mul, ofZ_add. eexists. split; [reflexivity | ].
    split; [lia | ].
    intros Hminus. pose proof (Hsign _ H0 Hminus). pose proof (Hsign _ H1 Hminus).
    lia.
  - apply Forall_cons in Hparts as [(z0 & -> & H0) Hparts].
    apply Forall_cons in Hparts as [(z1 & -> & H1) Hparts].
    apply Forall_cons in Hparts as [(z2 & -> & H2) _].
    apply Forall_cons in Hbelow as [B0 Hbelow].
    apply Forall_cons in Hbelow as [B1 Hbelow].
    apply Forall_cons in Hbelow as [B2 _].
    specialize (B0 _ eq_refl). specialize (B1 _ eq_refl).
    specialize (B2 _ eq_refl).
    rewrite !ofZ_mul, !ofZ_add. eexists. split; [reflexivity | ].
    split; [lia | ].
    intros Hminus. pose proof (Hsign _ H0 Hminus). pose proof (Hsign _ H1 Hminus).
    pose proof (Hsign _ H2 Hminus). lia.
Qed.

Lemma parseDuration_whole_seconds_witness :
  exists z, parseDuration (VString (js "1:02:03")) = Normal (ofZ z)
            /\ (Z.abs z < 2 ^ 53)%Z /\ (0 <= z)%Z.
Proof.
  destruct (parseDuration_whole_seconds (js "1:02:03"))
    as (z & Hz & Hsize & Hpos); [vm_compute; lia | ].
  exists z. split; [exact Hz | split; [exact Hsize | ]].
  apply Hpos. vm_compute. intuition discriminate.
Defined.

(** ** View counts *)

(** *** The view count, from the page to the number *)

Lemma upperUnit_inv x y :
  upperUnit x = y -> (65 <= y <= 90)%N -> x = y \/ x = (y + 32)%N.
Proof.
  unfold upperUnit, isLowerAscii. intros H Hy.
  destruct ((97 <=? x)%N && (x <=? 122)%N) eqn:Hx; [ | left; exact H].
  apply andb_true_iff in Hx as [H1 H2]. apply N.leb_le in H1, H2. lia.
Qed.

Lemma space_not_v c :
  isWhiteSpace c = true -> (upperUnit c =? upperUnit (cu "v"))%N = false.
Proof.
  intros Hc. apply N.eqb_neq. intros H.
  change (upperUnit (cu "v")) with 86%N in H.
  apply upperUnit_inv in H as [-> | ->]; [ | | lia]; discriminate.
Qed.

Lemma space_not_comma c : isWhiteSpace c = true -> (c =? 44)%N = false.
Proof.
  intros Hc. apply N.eqb_neq. intros ->. discriminate.
Qed.

Lemma spelled_units lit w :
  spelled lit w = true -> map upperUnit w = map upperUnit (js lit).
Proof. unfold spelled, jsstring_eqb. apply bool_decide_eq_true_1. Qed.

(** [/views?/i] on the word itself. *)
Lemma run_views_word n vw :
  isViewsWord vw = true ->
  run re_views n vw [] (fun i' _ c' => Some (i', c'))
  = Some ((n + length vw)%nat, [] : captures).
Proof.
  unfold isViewsWord. intros H. apply orb_true_iff in H as [H | H];
    apply spelled_units in H.
  - destruct vw as [ | a [ | b [ | c [ | d [ | e vw]]]]]; try discriminate.
    injection H as Ha Hb Hc Hd.
    unfold re_views. cbn [str_i]. rewrite !run_Seq. unfold chr_i, Opt.
    cbn [run]. rewrite Ha, Hb, Hc, Hd. cbn.
    replace (n + 4)%nat with (S (S (S (S n)))) by lia. reflexivity.
  - destruct vw as [ | a [ | b [ | c [ | d [ | e [ | f vw]]]]]];
      try discriminate.
    injection H as Ha Hb Hc Hd He.
    unfold re_views. cbn [str_i]. rewrite !run_Seq. unfold chr_i, Opt.
    cbn [run]. rewrite Ha, Hb, Hc, Hd, He. cbn.
    replace (n + 5)%nat with (S (S (S (S (S n))))) by lia. reflexivity.
Qed.

Lemma isViewsWord_nonempty vw : isViewsWord vw = true -> vw <> [].
Proof. intros H ->. discriminate. Qed.

(** Cutting the word out of a view count leaves the count and the
    white space after it. *)
Lemma removeFirst_views_word body ws vw :
  Forall (fun c => plainUnit c = true) body ->
  forallb isWhiteSpace ws = true ->
  vw = [] \/ isViewsWord vw = true ->
  removeFirst (body ++ ws ++ vw) re_views = body ++ ws.
Proof.
  intros Hbody Hws Hvw.
  assert (Hv : Forall (fun c => (upperUnit c =? upperUnit (cu "v"))%N = false)
                      (body ++ ws)).
  { apply Forall_app. split.
    - eapply Forall_impl; [exact Hbody | ]. intros c Hc. apply plain_cases, Hc.
    - apply Forall_forall. intros c Hc. apply space_not_v.
      apply (proj1 (forallb_forall _ _) Hws), list_elem_of_In, Hc. }
  unfold removeFirst, matchRe. rewrite app_assoc.
  rewrite (search_views_skip _ _ 0 Hv). cbn [Nat.add].
  destruct Hvw as [-> | Hvw]; [rewrite app_nil_r; reflexivity | ].
  set (n := length (body ++ ws)).
  assert (Hsearch : search re_views n vw = Some (RegMatch n vw [])).
  { pose proof (run_views_word n vw Hvw) as Hrun.
    destruct vw as [ | x vw'] eqn:E; [discriminate | ].
    rewrite <- E in *. replace (search re_views n vw)
      with (match run re_views n vw [] (fun i' _ c' => Some (i', c')) with
            | Some (e, c) => Some (RegMatch n (take (e - n) vw) c)
            | None => search re_views (S n) vw'
            end) by (rewrite E; reflexivity).
    rewrite Hrun. replace (n + length vw - n)%nat with (length vw) by lia.
    rewrite firstn_all. reflexivity. }
  rewrite Hsearch. cbn [m_index m_text]. subst n.
  rewrite take_app_length, drop_app_add, drop_all, app_nil_r. reflexivity.
Qed.

Lemma trimStart_spaces ws s :
  forallb isWhiteSpace ws = true -> trimStart (ws ++ s) = trimStart s.
Proof.
  induction ws as [ | c ws IH]; simpl; [reflexivity | ].
  intros H. apply andb_true_iff in H as [Hc Hws]. rewrite Hc. apply IH, Hws.
Qed.

Lemma trimEnd_spaces s ws :
  forallb isWhiteSpace ws = true -> trimEnd (s ++ ws) = trimEnd s.
Proof.
  intros H. unfold trimEnd. rewrite rev_app_distr, trimStart_spaces;
    [reflexivity | ].
  apply forallb_forall. intros x Hx. apply in_rev in Hx.
  apply (proj1 (forallb_forall _ _) H), Hx.
Qed.

(** What [parseViewCount] is left with after its three clean-up steps,
    whatever the white space and the case of the word. *)
Lemma cleaned_count_word c body ws vw :
  isDigit c = true ->
  Forall (fun c => plainUnit c = true) body ->
  forallb isWhiteSpace ws = true ->
  vw = [] \/ isViewsWord vw = true ->
  trim (removeCommas (removeFirst ((c :: body) ++ ws ++ vw) re_views))
  = c :: body.
Proof.
  intros Hc Hbody Hws Hvw.
  assert (Hall : Forall (fun c => plainUnit c = true) (c :: body)).
  { constructor; [unfold plainUnit; rewrite Hc; reflexivity | exact Hbody]. }
  rewrite (removeFirst_views_word _ _ _ Hall Hws Hvw).
  rewrite removeCommas_plain.
  2:{ apply Forall_app. split.
      - eapply Forall_impl; [exact Hall | ]. intros x Hx. apply plain_cases, Hx.
      - apply Forall_forall. intros x Hx. apply space_not_comma.
        apply (proj1 (forallb_forall _ _) Hws), list_elem_of_In, Hx. }
  unfold trim. cbn [app].
  rewrite (trimStart_fixed c (body ++ ws) (digit_not_space _ Hc)).
  change (c :: body ++ ws) with ((c :: body) ++ ws).
  rewrite (trimEnd_spaces _ _ Hws).
  destruct (exists_last (l := c :: body)) as (front & z & Hz);
    [discriminate | ].
  rewrite Hz. apply trimEnd_fixed.
  assert (Hin : In z (c :: body)) by (rewrite Hz; apply in_or_app; simpl; auto).
  rewrite Forall_forall in Hall. apply plain_cases, Hall.
  apply list_elem_of_In, Hin.
Qed.

(** The same for any white space and any case of the word. *)
Lemma parseViewCount_count_word ip fp sfx ws vw :
  isDigits ip = true ->
  forallb isDigit fp = true ->
  isSuffixText sfx ->
  forallb isWhiteSpace ws = true ->
  vw = [] \/ isViewsWord vw = true ->
  parseViewCount (VString (ip ++ fractionText fp ++ sfx ++ ws ++ vw))
  = Normal (fin (decimalValue ip fp * inject_Z (multiplier sfx))).
Proof.
  intros Hip Hfp Hsfx Hws Hvw.
  pose proof (parseFloat_numeral ip fp Hip Hfp) as Hfloat.
  destruct (isDigits_cons _ Hip) as (c & ip' & -> & Hc & Hip').
  set (num := ip' ++ fractionText fp) in *.
  assert (Hnum : forallb (fun c => isDigit c || (c =? 46)%N) num = true).
  { subst num. rewrite forallb_app, (fraction_plain _ Hfp), andb_true_r.
    apply forallb_forall. intros x Hx.
    rewrite (proj1 (forallb_forall _ _) Hip' x Hx). reflexivity. }
  replace ((c :: ip') ++ fractionText fp ++ sfx ++ ws ++ vw)
    with ((c :: num ++ sfx) ++ ws ++ vw)
    by (subst num; cbn [app]; rewrite <- !app_assoc; reflexivity).
  unfold parseViewCount. cbn [truthy app negb].
  change (c :: (num ++ sfx) ++ ws ++ vw) with ((c :: num ++ sfx) ++ ws ++ vw).
  rewrite (cleaned_count_word c (num ++ sfx) ws vw Hc)
    by first
         [ exact Hws | exact Hvw
         | apply Forall_app; split;
           [apply numeral_units_plain, Hnum | apply suffix_units_plain, Hsfx] ].
  change (c :: num ++ sfx) with ((c :: num) ++ sfx).
  rewrite (match_count c num sfx Hc Hnum Hsfx).
  unfold parseFloatGroup, group. cbn [m_caps capture Nat.eqb].
  change (c :: num) with ((c :: ip') ++ fractionText fp). rewrite Hfloat.
  unfold multiplier.
  destruct (jsstring_eqb (toUpperCase sfx) (js "K"));
    [ | destruct (jsstring_eqb (toUpperCase sfx) (js "M"));
        [ | destruct (jsstring_eqb (toUpperCase sfx) (js "B"))]];
    cbn [num_mul fin ofZ]; f_equal; unfold fin; f_equal;
    try (apply Qred_complete; rewrite Qred_correct; reflexivity).
  apply Qred_complete. symmetry. apply Qmult_1_r.
Qed.

(** X1.  On a view count as the page can write it -- digits, an optional
    fraction, an optional suffix K, M or B in either case, then any
    white space and the word "view" or "views" in any case, or just
    white space -- [parseViewCount] returns the number written, times
    1e3, 1e6 or 1e9 for the suffix, whenever the number written and
    that product are values binary64 holds exactly: every whole count
    below 2^53 is, and so is 12.5K; 4.1M is not, and the source's
    product is off the written one by a rounding there. *)
Theorem parseViewCount_reads_count ip fp sfx ws vw :
  isDigits ip = true ->
  forallb isDigit fp = true ->
  isSuffixText sfx ->
  forallb isWhiteSpace ws = true ->
  vw = [] \/ isViewsWord vw = true ->
  isDouble (decimalValue ip fp) = true ->
  isDouble (decimalValue ip fp * inject_Z (multiplier sfx)) = true ->
  parseViewCount (VString (ip ++ fractionText fp ++ sfx ++ ws ++ vw))
  = Normal (fin (decimalValue ip fp * inject_Z (multiplier sfx))).
Proof. intros Hip Hfp Hsfx Hws Hvw _ _. apply parseViewCount_count_word; assumption. Qed.

Lemma parseViewCount_reads_count_witness :
  parseViewCount (VString (js "12.5k" ++ [160%N; 32%N] ++ js "VIEWS"))
  = Normal (ofZ 12500).
Proof.
  exact (parseViewCount_reads_count (js "12") (js "5") (js "k")
           [160%N; 32%N] (js "VIEWS")
           eq_refl eq_refl (or_intror (ex_intro _ _ (conj eq_refl eq_refl)))
           eq_refl (or_intror eq_refl) eq_refl eq_refl).
Defined.

(** Reading [accepts] backwards. *)
Lemma accepts_Seq_inv a b i m :
  accepts (Seq a b) i m ->
  exists m1 m2, m = m1 ++ m2 /\ accepts a i m1
                /\ accepts b (i + length m1)%nat m2.
Proof. intros H. inversion H; subst. eauto. Qed.

Lemma accepts_Alt_inv a b i m :
  accepts (Alt a b) i m -> accepts a i m \/ accepts b i m.
Proof. intros H. inversion H; subst; auto. Qed.

Lemma accepts_Opt_inv a i m : accepts (Opt a) i m -> m = [] \/ accepts a i m.
Proof.
  intros H. apply accepts_Alt_inv in H as [H | H]; [right; exact H | left].
  inversion H. reflexivity.
Qed.

Lemma accepts_Grp_inv g a i m : accepts (Grp g a) i m -> accepts a i m.
Proof. intros H. inversion H; subst. assumption. Qed.

Lemma accepts_Chr_inv p i m :
  accepts (Chr p) i m -> exists x, m = [x] /\ p x = true.
Proof. intros H. inversion H; subst. eauto. Qed.

Lemma accepts_Bol_inv i m : accepts Bol i m -> i = 0%nat /\ m = [].
Proof. intros H. inversion H; subst. auto. Qed.

Lemma accepts_chr_i a i m :
  accepts (chr_i a) i m -> exists x, m = [x] /\ upperUnit x = upperUnit (cu a).
Proof.
  intros H. apply accepts_Chr_inv in H as (x & -> & Hx).
  apply N.eqb_eq in Hx. eauto.
Qed.

(** A literal word under the [i] flag accepts its spellings. *)
Lemma accepts_str_i lit : forall i m,
  accepts (str_i lit) i m -> spelled lit m = true.
Proof.
  unfold spelled, jsstring_eqb.
  induction lit as [ | a lit IH]; intros i m H; cbn [str_i] in H.
  - inversion H. apply bool_decide_eq_true_2. reflexivity.
  - destruct lit as [ | b lit].
    + apply accepts_chr_i in H as (x & -> & Hx).
      apply bool_decide_eq_true_2. simpl. rewrite Hx. reflexivity.
    + apply accepts_Seq_inv in H as (m1 & m2 & -> & H1 & H2).
      apply accepts_chr_i in H1 as (x & -> & Hx).
      apply IH, bool_decide_eq_true_1 in H2.
      apply bool_decide_eq_true_2.
      change (js (String a (String b lit)))
        with (cu a :: js (String b lit)).
      cbn [app map]. rewrite Hx, H2. reflexivity.
Qed.

Lemma accepts_Star_space i m :
  accepts (Star space) i m -> forallb isWhiteSpace m = true.
Proof. apply accepts_Star_class. Qed.

(** One of [K], [M], [B] under the [i] flag. *)
Lemma accepts_suffix i m :
  accepts (Opt (Alt (chr_i "K") (Alt (chr_i "M") (chr_i "B")))) i m ->
  isSuffixText m.
Proof.
  intros H. apply accepts_Opt_inv in H as [-> | H]; [left; reflexivity | ].
  right.
  apply accepts_Alt_inv in H as [H | H];
    [ | apply accepts_Alt_inv in H as [H | H]];
    apply accepts_chr_i in H as (x & -> & Hx);
    exists x; (split; [reflexivity | ]);
    apply upperUnit_inv in Hx as [-> | ->]; try reflexivity;
    vm_compute; split; discriminate.
Qed.

(** What [/(\d+(?:\.\d+)?[KMB]?)\s*views?/i] accepts. *)
Lemma accepts_re_viewCount i t :
  accepts Patterns.re_viewCount i t ->
  exists ip fp sfx ws vw,
    t = ip ++ fractionText fp ++ sfx ++ ws ++ vw
    /\ isDigits ip = true /\ forallb isDigit fp = true
    /\ isSuffixText sfx /\ forallb isWhiteSpace ws = true
    /\ isViewsWord vw = true.
Proof.
  unfold Patterns.re_viewCount. intros H.
  apply accepts_Seq_inv in H as (g1 & r1 & -> & Hg1 & H).
  apply accepts_Seq_inv in H as (ws & r2 & -> & Hws & H).
  apply accepts_Seq_inv in H as (view & s & -> & Hview & Hs).
  apply accepts_Grp_inv, accepts_Seq_inv in Hg1 as (ip & r3 & -> & Hip & Hg1).
  apply accepts_Seq_inv in Hg1 as (frac & sfx & -> & Hfrac & Hsfx).
  apply accepts_Plus_digit in Hip. apply accepts_Star_space in Hws.
  apply accepts_suffix in Hsfx. apply accepts_str_i in Hview.
  assert (Hfp : exists fp, frac = fractionText fp /\ forallb isDigit fp = true).
  { apply accepts_Opt_inv in Hfrac as [-> | Hfrac];
      [exists []; split; reflexivity | ].
    apply accepts_Seq_inv in Hfrac as (dot & fp & -> & Hdot & Hfp).
    apply accepts_Chr_inv in Hdot as (x & -> & Hx). apply N.eqb_eq in Hx.
    subst x. apply accepts_Plus_digit in Hfp.
    exists fp. split; [ | apply isDigits_all, Hfp].
    destruct fp; [discriminate | reflexivity]. }
  destruct Hfp as (fp & -> & Hfp).
  exists ip, fp, sfx, ws, (view ++ s).
  split; [rewrite <- !app_assoc; reflexivity | ].
  repeat (split; [assumption | ]).
  unfold isViewsWord. apply spelled_units in Hview.
  apply accepts_Opt_inv in Hs as [-> | Hs].
  - rewrite app_nil_r. unfold spelled, jsstring_eqb.
    rewrite Hview. reflexivity.
  - apply accepts_chr_i in Hs as (x & -> & Hx). apply orb_true_iff. right.
    unfold spelled, jsstring_eqb. apply bool_decide_eq_true_2.
    rewrite map_app, Hview. cbn [map]. rewrite Hx. reflexivity.
Qed.

(** A numeral with at most [n] integer digits denotes a number in
    [0, 10^n). *)
Lemma decimalValue_range ip fp n :
  forallb isDigit ip = true -> forallb isDigit fp = true ->
  (length ip <= n)%nat ->
  (0 <= decimalValue ip fp)%Q
  /\ (decimalValue ip fp < inject_Z (10 ^ Z.of_nat n))%Q.
Proof.
  intros Hip Hfp Hn. unfold decimalValue.
  pose proof (digitsValue_nonneg ip) as Hi0.
  pose proof (digitsValue_nonneg fp) as Hf0.
  pose proof (digitsValue_below ip n Hip Hn) as Hi1.
  pose proof (digitsValue_below fp (length fp) Hfp (Nat.le_refl _)) as Hf1.
  assert (Hpow : (0 < 10 ^ Z.of_nat (length fp))%Z)
    by (apply Z.pow_pos_nonneg; lia).
  assert (Hfrac0 : (0 <= inject_Z (digitsValue fp)
                         / inject_Z (10 ^ Z.of_nat (length fp)))%Q).
  { apply Qle_shift_div_l; [unfold Qlt; simpl; lia | ].
    unfold Qle. simpl. lia. }
  assert (Hfrac1 : (inject_Z (digitsValue fp)
                    / inject_Z (10 ^ Z.of_nat (length fp)) < 1)%Q).
  { apply Qlt_shift_div_r; [unfold Qlt; simpl; lia | ].
    unfold Qlt. simpl. lia. }
  split.
  - apply (Qle_trans _ (0 + 0)); [discriminate | ].
    apply Qplus_le_compat; [unfold Qle; simpl; lia | exact Hfrac0].
  - apply (Qlt_le_trans _ (inject_Z (digitsValue ip) + 1)).
    + apply Qplus_lt_r, Hfrac1.
    + unfold Qle. simpl. lia.
Qed.

Lemma multiplier_range sfx : (1 <= multiplier sfx <= 10 ^ 9)%Z.
Proof.
  unfold multiplier. repeat destruct (jsstring_eqb _ _); lia.
Qed.

(** The view-count text the extractor records is one [parseViewCount]
    reads as a number: finite, not negative, never [NaN]; a text of at
    most [n + 1] code units reads as a number below [10^(n+9)]. *)
Lemma extractViewCount_readable fullText t n :
  Patterns.extractViewCount fullText = Some t ->
  (length t <= S n)%nat ->
  exists q, (0 <= q)%Q /\ (q < inject_Z (10 ^ Z.of_nat (n + 9)))%Q
            /\ parseViewCount (VString t) = Normal (fin q).
Proof.
  assert (Hpow : forall k, (0 < 10 ^ Z.of_nat k)%Z)
    by (intros k; apply Z.pow_pos_nonneg; lia).
  unfold Patterns.extractViewCount.
  destruct (matchRe fullText Patterns.re_viewCount) as [m | ] eqn:Hm.
  - intros H Hlen. injection H as <-.
    apply search_accepts in Hm as (pre & post & _ & _ & Hacc).
    apply accepts_re_viewCount in Hacc
      as (ip & fp & sfx & ws & vw & E & Hip & Hfp & Hsfx & Hws & Hvw).
    rewrite E in Hlen |- *.
    rewrite (parseViewCount_count_word ip fp sfx ws vw Hip Hfp Hsfx Hws
               (or_intror Hvw)).
    assert (Hn : (length ip <= n)%nat).
    { pose proof (isViewsWord_nonempty _ Hvw) as Hne.
      rewrite !length_app in Hlen.
      destruct vw as [ | x vw']; [congruence | simpl in Hlen; lia]. }
    destruct (decimalValue_range ip fp n (isDigits_all _ Hip) Hfp Hn)
      as [Hd0 Hd1].
    pose proof (multiplier_range sfx) as Hmul.
    eexists. split; [ | split; [ | reflexivity]].
    + apply Qmult_le_0_compat; [exact Hd0 | ].
      unfold Qle. simpl. lia.
    + apply (Qle_lt_trans _ (decimalValue ip fp * inject_Z (10 ^ 9))).
      * apply Qmult_le_compat_nonneg;
          [split; [exact Hd0 | apply Qle_refl] | ].
        split; unfold Qle; simpl; lia.
      * rewrite Nat2Z.inj_add, Z.pow_add_r by lia.
        rewrite inject_Z_mult.
        apply Qmult_lt_compat_r; [reflexivity | exact Hd1].
  - destruct (bool_decide _); [ | discriminate].
    intros H _. injection H as <-. exists 0%Q.
    split; [apply Qle_refl | ].
    split; [unfold Qlt; simpl; specialize (Hpow (n + 9)%nat); lia | ].
    reflexivity.
Qed.

(** X2.  The view-count text either extractor records, when it is at
    most 300 code units long, is one [parseViewCount] reads as a
    number: finite, not negative, never [NaN].  The number written is
    below 10^308 and so below 2^1024, where the range of binary64 ends:
    the source's value does not overflow to [Infinity] (as it does on a
    run of 400 digits). *)
Theorem extracted_view_count_is_a_number (el : element) (t : jsstring) :
  viewCount (Content.extractVideoData el) = Some t
  \/ viewCount (Modular.extractVideoData el) = Some t ->
  (length t <= 300)%nat ->
  exists q, (0 <= q)%Q /\ (q < inject_Z (2 ^ 1024))%Q
            /\ parseViewCount (VString t) = Normal (fin q).
Proof.
  intros H Hlen.
  assert (Hread : exists q, (0 <= q)%Q /\ (q < inject_Z (10 ^ 308))%Q
                    /\ parseViewCount (VString t) = Normal (fin q))
    by (destruct H as [H | H];
        exact (extractViewCount_readable _ _ 299 H Hlen)).
  destruct Hread as (q & H0 & H1 & Hq).
  exists q. split; [exact H0 | ]. split; [ | exact Hq].
  apply (Qlt_trans _ (inject_Z (10 ^ 308))); [exact H1 | ].
  rewrite <- Zlt_Qlt. vm_compute. reflexivity.
Qed.

Lemma extracted_view_count_is_a_number_witness :
  let card := sampleCard "Mr. Beast gives away an island"
                "Mr. Beast gives away an island 1.2M views 3 days ago" in
  viewCount (Content.extractVideoData card) = Some (js "1.2M views")
  /\ exists q, (0 <= q)%Q /\ (q < inject_Z (2 ^ 1024))%Q
       /\ parseViewCount (VString (js "1.2M views")) = Normal (fin q).
Proof.
  split; [reflexivity | ].
  apply (extracted_view_count_is_a_number
           (sampleCard "Mr. Beast gives away an island"
              "Mr. Beast gives away an island 1.2M views 3 days ago"));
    [left; reflexivity | vm_compute; lia].
Defined.

(** ** Durations and publish times *)

(** *** The duration, as extracted *)

Lemma accepts_re_clock i t :
  accepts Patterns.re_clock i t ->
  exists d1 d2,
    t = d1 ++ js ":" ++ d2 /\ isDigits d1 = true /\ isDigits d2 = true.
Proof.
  unfold Patterns.re_clock. intros H.
  apply accepts_Seq_inv in H as (d1 & r & -> & H1 & H).
  apply accepts_Seq_inv in H as (colon & d2 & -> & Hc & H2).
  apply accepts_Chr_inv in Hc as (x & -> & Hx). apply N.eqb_eq in Hx. subst x.
  apply accepts_Plus_digit in H1, H2. eauto.
Qed.

Lemma durationBadge_shape el selectors d :
  Patterns.durationBadge el selectors = Some d ->
  exists d1 d2 rest,
    d = d1 ++ js ":" ++ d2 ++ rest
    /\ isDigits d1 = true /\ isDigits d2 = true.
Proof.
  induction selectors as [ | selector selectors IH]; cbn [Patterns.durationBadge];
    [discriminate | ].
  destruct (trim <$> _) as [t | ]; [ | exact IH].
  destruct (truthy (VString t)); cbn [andb]; [ | exact IH].
  destruct (bool_decide _) eqn:Hm; [ | exact IH].
  intros H. injection H as <-.
  apply bool_decide_eq_true_1 in Hm as [m Hm].
  apply search_accepts in Hm as (pre & post & Ht & Hi & Hacc).
  unfold Patterns.re_clock_prefix in Hacc.
  apply accepts_Seq_inv in Hacc as (b & clock & Hmt & Hb & Hclock).
  apply accepts_Bol_inv in Hb as [Hzero ->].
  rewrite Hzero in Hi. destruct pre; [ | simpl in Hi; lia].
  apply accepts_re_clock in Hclock as (d1 & d2 & -> & Hd1 & Hd2).
  exists d1, d2, post. rewrite Ht, Hmt. cbn [app].
  rewrite <- !app_assoc. auto.
Qed.

Lemma durationFromThumbnail_shape el d :
  Patterns.durationFromThumbnail el = Some d ->
  exists d1 d2,
    d = d1 ++ js ":" ++ d2 /\ isDigits d1 = true /\ isDigits d2 = true.
Proof.
  unfold Patterns.durationFromThumbnail.
  destruct (querySelector el _) as [thumbLink | ]; [ | discriminate].
  destruct (trim <$> _) as [thumbText | ]; [ | discriminate].
  destruct (matchRe thumbText Patterns.re_clock) as [m | ] eqn:Hm;
    [ | discriminate].
  intros H. injection H as <-.
  apply search_accepts in Hm as (pre & post & _ & _ & Hacc).
  exact (accepts_re_clock _ _ Hacc).
Qed.

Lemma extractDuration_shape el d :
  Patterns.extractDuration el = Some d ->
  exists d1 d2 rest,
    d = d1 ++ js ":" ++ d2 ++ rest
    /\ isDigits d1 = true /\ isDigits d2 = true.
Proof.
  unfold Patterns.extractDuration.
  destruct (negb _).
  - destruct (Patterns.durationFromThumbnail el) as [t | ] eqn:Ht.
    + intros H. injection H as <-.
      apply durationFromThumbnail_shape in Ht as (d1 & d2 & -> & H1 & H2).
      exists d1, d2, []. rewrite app_nil_r. auto.
    + apply durationBadge_shape.
  - apply durationBadge_shape.
Qed.

(** X3.  The duration either extractor records, when it records one,
    starts with digits, a colon and digits; so it holds a colon, which
    sends [parseDuration] down its colon format. *)
Theorem extracted_duration_is_a_clock (el : element) (d : jsstring) :
  duration (Content.extractVideoData el) = Some d
  \/ duration (Modular.extractVideoData el) = Some d ->
  (exists d1 d2 rest,
      d = d1 ++ js ":" ++ d2 ++ rest
      /\ isDigits d1 = true /\ isDigits d2 = true)
  /\ includes (trim d) (js ":") = true.
Proof.
  intros H.
  assert (Hshape : exists d1 d2 rest,
             d = d1 ++ js ":" ++ d2 ++ rest
             /\ isDigits d1 = true /\ isDigits d2 = true)
    by (destruct H as [H | H]; exact (extractDuration_shape _ _ H)).
  split; [exact Hshape | ].
  destruct Hshape as (d1 & d2 & rest & -> & _ & _).
  apply includes_colon_In, trim_keeps; [reflexivity | ].
  apply in_or_app. right. left. reflexivity.
Qed.

Lemma extracted_duration_is_a_clock_witness :
  let card :=
    Element ∅ []
      (fun selector =>
         if String.eqb selector ".yt-badge-shape__text"
         then Some (Node (Some (js " 12:05 ")) None (fun _ => None))
         else None)
      (Some (js "A talk 12:05")) in
  duration (Modular.extractVideoData card) = Some (js "12:05")
  /\ (exists d1 d2 rest,
         js "12:05" = d1 ++ js ":" ++ d2 ++ rest
         /\ isDigits d1 = true /\ isDigits d2 = true)
  /\ includes (trim (js "12:05")) (js ":") = true.
Proof.
  split; [reflexivity | ].
  apply (extracted_duration_is_a_clock
           (Element ∅ []
              (fun selector =>
                 if String.eqb selector ".yt-badge-shape__text"
                 then Some (Node (Some (js " 12:05 ")) None (fun _ => None))
                 else None)
              (Some (js "A talk 12:05")))).
  right. reflexivity.
Defined.

(** *** The age, from the page to the number *)

Lemma space_not_digit c : isWhiteSpace c = true -> isDigit c = false.
Proof.
  intros Hc. destruct (isDigit c) eqn:Hd; [ | reflexivity].
  rewrite (digit_not_space _ Hd) in Hc. discriminate.
Qed.

Lemma letter_not_space x :
  isUpperAscii (upperUnit x) = true -> isWhiteSpace x = false.
Proof.
  unfold isUpperAscii. intros H. apply andb_true_iff in H as [H1 H2].
  apply N.leb_le in H1, H2.
  assert (Hr : (65 <= x <= 122)%N).
  { unfold upperUnit, isLowerAscii in H1, H2.
    destruct ((97 <=? x)%N && (x <=? 122)%N) eqn:E; [ | lia].
    apply andb_true_iff in E as [E1 E2]. apply N.leb_le in E1, E2. lia. }
  not_space x.
Qed.

(** A word spelled as a literal made of letters holds no white space. *)
Lemma spelled_no_space lit w :
  spelled lit w = true ->
  forallb isUpperAscii (map upperUnit (js lit)) = true ->
  forallb (fun x => negb (isWhiteSpace x)) w = true.
Proof.
  intros Hw Hlit. apply spelled_units in Hw. rewrite <- Hw in Hlit.
  clear Hw. induction w as [ | x w IH]; [reflexivity | ].
  cbn [map forallb] in *. apply andb_true_iff in Hlit as [Hx Hlit].
  rewrite (letter_not_space _ Hx), (IH Hlit). reflexivity.
Qed.

Lemma spaceThenY_intro l1 w y l2 :
  isWhiteSpace w = true -> upperUnit y = upperUnit (cu "y") ->
  spaceThenY (l1 ++ w :: y :: l2) = true.
Proof.
  intros Hw Hy. induction l1 as [ | x l1 IH]; cbn [app spaceThenY].
  - rewrite Hw, Hy, N.eqb_refl. reflexivity.
  - rewrite IH. apply orb_true_r.
Qed.

Lemma spaceThenY_skip a b :
  forallb (fun x => negb (isWhiteSpace x)) a = true ->
  spaceThenY (a ++ b) = spaceThenY b.
Proof.
  induction a as [ | x a IH]; cbn [app forallb spaceThenY]; [reflexivity | ].
  intros H. apply andb_true_iff in H as [Hx Ha].
  apply negb_true_iff in Hx. rewrite Hx, (IH Ha).
  destruct (a ++ b); reflexivity.
Qed.

Lemma space_not_y c :
  isWhiteSpace c = true -> (upperUnit c =? upperUnit (cu "y"))%N = false.
Proof.
  intros Hc. apply N.eqb_neq. intros H.
  change (upperUnit (cu "y")) with 89%N in H.
  apply upperUnit_inv in H as [-> | ->]; [ | | lia]; discriminate.
Qed.

Lemma spaceThenY_spaces ws b :
  forallb isWhiteSpace ws = true ->
  match b with
  | y :: _ => (upperUnit y =? upperUnit (cu "y"))%N = false
  | [] => True
  end ->
  spaceThenY (ws ++ b) = spaceThenY b.
Proof.
  intros Hws Hb. induction ws as [ | x ws IH]; cbn [app forallb spaceThenY];
    [reflexivity | ].
  cbn [forallb] in Hws. apply andb_true_iff in Hws as [Hx Hws].
  rewrite (IH Hws). destruct ws as [ | x' ws]; cbn [app].
  - destruct b as [ | y b]; [reflexivity | ].
    rewrite Hb, andb_false_r. reflexivity.
  - cbn [forallb] in Hws. apply andb_true_iff in Hws as [Hx' _].
    rewrite (space_not_y _ Hx'), andb_false_r. reflexivity.
Qed.

(** [/(\d+)\s+year/i] matches only where white space is followed by a
    "y". *)
Lemma re_year_needs_space text m :
  matchRe text re_year = Some m -> spaceThenY text = true.
Proof.
  intros H. apply search_accepts in H as (pre & post & -> & _ & H).
  unfold re_year in H.
  apply accepts_Seq_inv in H as (ds & r & -> & _ & H).
  apply accepts_Seq_inv in H as (ws & yr & -> & Hws & Hyr).
  apply accepts_Plus_class in Hws as (w & ws' & -> & Hw & Hws').
  apply accepts_str_i, spelled_units in Hyr.
  destruct yr as [ | y yr]; [discriminate | ]. injection Hyr as Hy _.
  destruct (exists_last (l := w :: ws')) as (front & wl & Hlast);
    [discriminate | ].
  assert (Hwl : isWhiteSpace wl = true).
  { assert (Hin : In wl (w :: ws'))
      by (rewrite Hlast; apply in_or_app; right; left; reflexivity).
    destruct Hin as [<- | Hin]; [exact Hw | ].
    apply (proj1 (forallb_forall _ _) Hws'), Hin. }
  rewrite Hlast.
  replace (pre ++ ((ds ++ (front ++ [wl]) ++ y :: yr) ++ post))
    with ((pre ++ ds ++ front) ++ wl :: y :: (yr ++ post))
    by (rewrite <- !app_assoc; reflexivity).
  apply spaceThenY_intro; assumption.
Qed.

Lemma parseVideoAge_no_year text :
  spaceThenY text = false -> parseVideoAge (VString text) = Normal (ofZ 0).
Proof.
  intros H. unfold parseVideoAge.
  destruct (negb (truthy (VString text))); [reflexivity | ].
  destruct (matchRe text re_year) as [m | ] eqn:Hm; [ | reflexivity].
  apply re_year_needs_space in Hm. congruence.
Qed.

Lemma run_year_word {R} i yr tail c0
    (k : nat -> jsstring -> captures -> option R) :
  spelled "year" yr = true ->
  run (str_i "year") i (yr ++ tail) c0 k = k (i + 4)%nat tail c0.
Proof.
  intros H. apply spelled_units in H.
  destruct yr as [ | a [ | b [ | c [ | d [ | e yr]]]]]; try discriminate.
  injection H as Ha Hb Hc Hd.
  cbn [str_i]. rewrite !run_Seq. unfold chr_i. cbn [run app].
  rewrite Ha, Hb, Hc, Hd. cbn.
  replace (i + 4)%nat with (S (S (S (S i)))) by lia. reflexivity.
Qed.

Lemma spelled_length lit w : spelled lit w = true -> length w = String.length lit.
Proof.
  intros H. apply spelled_units in H.
  apply (f_equal (@length N)) in H. rewrite !length_map in H.
  rewrite H. unfold js. rewrite length_map.
  clear. induction lit; simpl; congruence.
Qed.

Lemma spelled_head_letter lit w x w' :
  spelled lit w = true -> w = x :: w' ->
  forallb isUpperAscii (map upperUnit (js lit)) = true ->
  isWhiteSpace x = false.
Proof.
  intros Hw -> Hlit.
  pose proof (spelled_no_space _ _ Hw Hlit) as H.
  cbn [forallb] in H. apply andb_true_iff in H as [H _].
  apply negb_true_iff, H.
Qed.

(** A run that succeeds at the first offset tried is the match. *)
Lemma search_hit r i s e c :
  run r i s [] (fun i' _ c' => Some (i', c')) = Some (e, c) ->
  search r i s = Some (RegMatch i (take (e - i) s) c).
Proof. intros H. destruct s; cbn [search]; rewrite H; reflexivity. Qed.

(** The match of [/(\d+)\s+year/i] on a number, white space and the
    word: group 1 is the number. *)
Lemma match_year ds w ws yr tail :
  isDigits ds = true ->
  isWhiteSpace w = true -> forallb isWhiteSpace ws = true ->
  spelled "year" yr = true ->
  matchRe (ds ++ (w :: ws) ++ yr ++ tail) re_year
  = Some (RegMatch 0 (ds ++ (w :: ws) ++ yr) [(1%nat, ds)]).
Proof.
  intros Hds Hw Hws Hyr.
  destruct (isDigits_cons _ Hds) as (c & ds' & -> & Hc & Hds').
  pose proof (spelled_length _ _ Hyr) as Hlen. cbn in Hlen.
  set (text := (c :: ds') ++ (w :: ws) ++ yr ++ tail).
  set (e := length ((c :: ds') ++ (w :: ws) ++ yr)).
  assert (Hrun : run re_year 0 text [] (fun i' _ c' => Some (i', c'))
                 = Some (e, [(1%nat, c :: ds')])).
  { unfold re_year, Plus, digit. rewrite run_Seq, run_Grp, run_Seq.
    subst text. cbn [app]. rewrite run_Chr_cons, Hc.
    change (run (Star ?a) ?i ?s ?c0 ?k)
      with (starLoop (run a) k (length s) i s c0).
    match goal with
    | |- starLoop _ ?k0 _ _ _ _ = _ => set (k := k0)
    end.
    assert (Hk : k (1 + length ds')%nat (w :: ws ++ yr ++ tail) []
                 = Some (e, [(1%nat, c :: ds')])).
    { subst k. cbv beta. rewrite Nat.sub_0_r.
      change (c :: ds' ++ w :: ws ++ yr ++ tail)
        with ((c :: ds') ++ w :: ws ++ yr ++ tail).
      replace (1 + length ds')%nat with (length (c :: ds')) by reflexivity.
      rewrite take_app_length.
      unfold space. cbn [run]. rewrite Hw.
      match goal with
      | |- starLoop _ ?k0 _ _ _ _ = _ => set (k1 := k0)
      end.
      assert (Hk1 : k1 (S (length (c :: ds')) + length ws)%nat (yr ++ tail)
                       [(1%nat, c :: ds')]
                    = Some (e, [(1%nat, c :: ds')])).
      { subst k1. cbv beta. rewrite (run_year_word _ _ _ _ _ Hyr).
        subst e. rewrite !length_app. cbn [length]. rewrite Hlen.
        f_equal. f_equal. lia. }
      rewrite (starLoop_class _ k1 ws (yr ++ tail) _ _ _ Hws).
      - exact Hk1.
      - destruct yr as [ | y yr']; [discriminate | ]. cbn [app].
        eapply spelled_head_letter; [exact Hyr | reflexivity | reflexivity].
      - lia.
      - eexists. exact Hk1. }
    rewrite (starLoop_class _ k ds' (w :: ws ++ yr ++ tail) _ 1 [] Hds').
    - exact Hk.
    - apply space_not_digit, Hw.
    - lia.
    - eexists. exact Hk. }
  unfold matchRe. rewrite (search_hit _ _ _ _ _ Hrun).
  f_equal. f_equal. rewrite Nat.sub_0_r. subst e text.
  replace ((c :: ds') ++ (w :: ws) ++ yr ++ tail)
    with (((c :: ds') ++ (w :: ws) ++ yr) ++ tail)
    by (rewrite <- !app_assoc; reflexivity).
  apply take_app_length.
Qed.

(** The letters of a unit: no white space among them, and no "y" in
    front unless the unit is the year. *)
Lemma unit_letters U :
  existsb (fun unit => spelled unit U) timeUnits = true ->
  forallb (fun x => negb (isWhiteSpace x)) U = true
  /\ (spelled "year" U = false ->
      match U with
      | y :: _ => (upperUnit y =? upperUnit (cu "y"))%N = false
      | [] => True
      end).
Proof.
  intros H. apply existsb_exists in H as (unit & Hin & HU).
  assert (Hhead : forall lit,
             spelled lit U = true ->
             (upperUnit (hd 0%N (js lit)) =? upperUnit (cu "y"))%N = false ->
             match U with
             | y :: _ => (upperUnit y =? upperUnit (cu "y"))%N = false
             | [] => True
             end).
  { intros lit Hlit Hne. destruct U as [ | y U']; [exact I | ].
    apply spelled_units in Hlit.
    destruct (js lit) as [ | l ls]; [discriminate | ].
    injection Hlit as Hy _. rewrite Hy. exact Hne. }
  cbn in Hin.
  destruct Hin as [<- | [<- | [<- | [<- | [<- | [<- | [<- | []]]]]]]];
    (split; [eapply spelled_no_space; [exact HU | reflexivity] | ]);
    intros Hny; try (apply (Hhead _ HU); reflexivity).
  congruence.
Qed.

Lemma plural_letters pl :
  pl = [] \/ spelled "s" pl = true ->
  forallb (fun x => negb (isWhiteSpace x)) pl = true.
Proof.
  intros [-> | H]; [reflexivity | ].
  eapply spelled_no_space; [exact H | reflexivity].
Qed.

Lemma digits_no_space ds :
  forallb isDigit ds = true ->
  forallb (fun x => negb (isWhiteSpace x)) ds = true.
Proof.
  intros H. apply forallb_forall. intros x Hx.
  apply negb_true_iff, digit_not_space.
  apply (proj1 (forallb_forall _ _) H), Hx.
Qed.

Lemma ago_tail_quiet ws2 A :
  forallb isWhiteSpace ws2 = true -> spelled "ago" A = true ->
  spaceThenY (ws2 ++ A) = false.
Proof.
  intros Hws HA.
  rewrite (spaceThenY_spaces _ _ Hws).
  - rewrite <- (app_nil_r A), spaceThenY_skip; [reflexivity | ].
    eapply spelled_no_space; [exact HA | reflexivity].
  - destruct A as [ | x A']; [exact I | ].
    apply spelled_units in HA. injection HA as Hx _. rewrite Hx. reflexivity.
Qed.

(** What [parseVideoAge] finds in a publish time. *)
Lemma parseVideoAge_ago a :
  isAgoText a ->
  parseVideoAge (VString (agoString a)) = Normal (ofZ (yearsOf a)).
Proof.
  destruct a as [ds ws1 U pl ws2 A]. unfold isAgoText, agoString, yearsOf.
  cbn [ago_number ago_gap ago_unit ago_plural ago_gap2 ago_word].
  intros (Hds & Hws1 & HU & Hpl & Hws2 & HA).
  destruct (unit_letters _ HU) as [HUl HUy].
  destruct (spelled "year" U && (0 <? length ws1)%nat) eqn:Hcase.
  - apply andb_true_iff in Hcase as [Hyear Hgap].
    destruct ws1 as [ | w ws]; [discriminate | ].
    cbn [forallb] in Hws1. apply andb_true_iff in Hws1 as [Hw Hws].
    unfold parseVideoAge.
    destruct (isDigits_cons _ Hds) as (c & ds' & Eds & _ & _).
    replace (negb (truthy (VString (ds ++ (w :: ws) ++ U ++ pl ++ ws2 ++ A))))
      with false by (rewrite Eds; reflexivity).
    rewrite (match_year ds w ws U (pl ++ ws2 ++ A) Hds Hw Hws Hyear).
    unfold parseIntGroup, group. cbn [m_caps capture Nat.eqb].
    rewrite (parseInt_digits _ Hds). reflexivity.
  - apply parseVideoAge_no_year.
    rewrite (spaceThenY_skip ds) by (apply digits_no_space, isDigits_all, Hds).
    assert (Hrest : spaceThenY (U ++ pl ++ ws2 ++ A) = false).
    { rewrite (spaceThenY_skip U) by exact HUl.
      rewrite (spaceThenY_skip pl) by (apply plural_letters, Hpl).
      apply ago_tail_quiet; assumption. }
    destruct ws1 as [ | w ws]; [exact Hrest | ].
    rewrite (spaceThenY_spaces _ _ Hws1); [exact Hrest | ].
    rewrite andb_true_r in Hcase.
    destruct (U ++ pl ++ ws2 ++ A) as [ | y rest] eqn:E; [exact I | ].
    destruct U as [ | u U'].
    + apply existsb_exists in HU as (unit & Hin & Hsp).
      apply spelled_length in Hsp. cbn in Hin.
      destruct Hin as [<- | [<- | [<- | [<- | [<- | [<- | [<- | []]]]]]]];
        discriminate.
    + cbn [app] in E. injection E as <- _. apply HUy, Hcase.
Qed.

(** X4.  On a publish time as the page writes it -- a number, white
    space, a unit from seconds to years in any case and number, white
    space, "ago" -- [parseVideoAge] returns the number when the unit is
    the year and white space separates the two, and 0 otherwise: for
    every shorter unit, and for a year written without the space.  The
    number of years is to be below 2^53, where [parseInt] reads the
    digits without rounding. *)
Theorem parseVideoAge_of_publish_time (a : agoText) :
  isAgoText a ->
  (yearsOf a < 2 ^ 53)%Z ->
  parseVideoAge (VString (agoString a)) = Normal (ofZ (yearsOf a)).
Proof. intros Ha _. apply parseVideoAge_ago, Ha. Qed.

Lemma parseVideoAge_of_publish_time_witness :
  parseVideoAge (VString (js "11 Months ago")) = Normal (ofZ 0)
  /\ parseVideoAge (VString (js "3 years ago")) = Normal (ofZ 3)
  /\ parseVideoAge (VString (js "3years ago")) = Normal (ofZ 0).
Proof.
  split; [ | split].
  - apply (parseVideoAge_of_publish_time
             (AgoText (js "11") (js " ") (js "Month") (js "s") (js " ")
                      (js "ago")));
      [repeat split; auto | reflexivity].
  - apply (parseVideoAge_of_publish_time
             (AgoText (js "3") (js " ") (js "year") (js "s") (js " ")
                      (js "ago")));
      [repeat split; auto | reflexivity].
  - apply (parseVideoAge_of_publish_time
             (AgoText (js "3") [] (js "year") (js "s") (js " ") (js "ago")));
      [repeat split; auto | reflexivity].
Defined.

Lemma accepts_re_unit i U :
  accepts Patterns.re_unit i U ->
  existsb (fun unit => spelled unit U) timeUnits = true.
Proof.
  unfold Patterns.re_unit. intros H.
  repeat (apply accepts_Alt_inv in H as [H | H];
          [apply accepts_str_i in H; cbn [existsb timeUnits]; rewrite H;
           rewrite ?orb_true_r; reflexivity | ]).
  apply accepts_str_i in H. cbn [existsb timeUnits]. rewrite H.
  rewrite ?orb_true_r. reflexivity.
Qed.

Lemma accepts_plural i pl :
  accepts (Opt (chr_i "s")) i pl -> pl = [] \/ spelled "s" pl = true.
Proof.
  intros H. apply accepts_Opt_inv in H as [-> | H]; [left; reflexivity | ].
  right. apply (accepts_str_i "s" i pl H).
Qed.

(** What [/(\d+)\s*(second|...|year)s?\s*ago/i] accepts. *)
Lemma accepts_re_ago i t :
  accepts Patterns.re_ago i t -> exists a, isAgoText a /\ t = agoString a.
Proof.
  unfold Patterns.re_ago. intros H.
  apply accepts_Seq_inv in H as (ds & r1 & -> & Hds & H).
  apply accepts_Seq_inv in H as (ws1 & r2 & -> & Hws1 & H).
  apply accepts_Seq_inv in H as (U & r3 & -> & HU & H).
  apply accepts_Seq_inv in H as (pl & r4 & -> & Hpl & H).
  apply accepts_Seq_inv in H as (ws2 & A & -> & Hws2 & HA).
  apply accepts_Grp_inv, accepts_Plus_digit in Hds.
  apply accepts_Grp_inv, accepts_re_unit in HU.
  apply accepts_Star_space in Hws1, Hws2.
  apply accepts_plural in Hpl. apply accepts_str_i in HA.
  exists (AgoText ds ws1 U pl ws2 A). repeat split; assumption.
Qed.

(** What group 1 of [/streamed\s+(\d+\s*(?:second|...|year)s?\s*ago)/i]
    holds. *)
Lemma re_streamed_group1 fullText m t :
  matchRe fullText Patterns.re_streamed = Some m ->
  group 1 m = Some t ->
  exists a, isAgoText a /\ t = agoString a.
Proof.
  intros Hm Hg. apply search_sound in Hm as (pre & s & e & _ & _ & Hrun & _).
  unfold Patterns.re_streamed in Hrun. rewrite run_Seq in Hrun.
  apply run_sound in Hrun as (m0 & s0 & c0 & _ & _ & _ & Hrun).
  rewrite run_Seq in Hrun.
  apply run_sound in Hrun as (m1 & s1 & c1 & _ & _ & _ & Hrun).
  apply run_Grp_sound in Hrun as (m2 & s2 & c2 & _ & Hacc & _ & Hk).
  injection Hk as _ Hcaps. unfold group in Hg. rewrite <- Hcaps in Hg.
  cbn [capture Nat.eqb] in Hg. injection Hg as <-.
  apply accepts_Seq_inv in Hacc as (ds & r1 & -> & Hds & H).
  apply accepts_Seq_inv in H as (ws1 & r2 & -> & Hws1 & H).
  apply accepts_Seq_inv in H as (U & r3 & -> & HU & H).
  apply accepts_Seq_inv in H as (pl & r4 & -> & Hpl & H).
  apply accepts_Seq_inv in H as (ws2 & A & -> & Hws2 & HA).
  apply accepts_Plus_digit in Hds. apply accepts_re_unit in HU.
  apply accepts_Star_space in Hws1, Hws2.
  apply accepts_plural in Hpl. apply accepts_str_i in HA.
  exists (AgoText ds ws1 U pl ws2 A). repeat split; assumption.
Qed.

Lemma extractPublishTime_shape fullText t :
  Patterns.extractPublishTime fullText = Some t ->
  exists a, isAgoText a /\ t = agoString a.
Proof.
  unfold Patterns.extractPublishTime.
  destruct (matchRe fullText Patterns.re_ago) as [m | ] eqn:Hm.
  - intros H. injection H as <-.
    apply search_accepts in Hm as (pre & post & _ & _ & Hacc).
    exact (accepts_re_ago _ _ Hacc).
  - destruct (bool_decide _); [ | discriminate].
    destruct (matchRe fullText Patterns.re_streamed) as [m | ] eqn:Hs;
      [ | discriminate].
    cbn. apply (re_streamed_group1 _ _ _ Hs).
Qed.

(** The years of a publish time that holds at most [n] digits. *)
Lemma yearsOf_below a n :
  isAgoText a -> (digitCount (agoString a) <= n)%nat ->
  (0 <= yearsOf a < 10 ^ Z.of_nat n)%Z.
Proof.
  intros (Hds & _) Hn. unfold yearsOf.
  assert (0 < 10 ^ Z.of_nat n)%Z by (apply Z.pow_pos_nonneg; lia).
  destruct (_ && _); [ | lia].
  split; [apply digitsValue_nonneg | ].
  apply isDigits_all in Hds.
  apply digitsValue_below; [exact Hds | ].
  unfold agoString in Hn. rewrite digitCount_app in Hn.
  rewrite (digitCount_digits _ Hds) in Hn. lia.
Qed.

(** X5.  The publish time either extractor records is a publish time as
    the page writes it, and [parseVideoAge] reads it as its number of
    years: the number in front of "year" when white space separates the
    two, 0 otherwise, so 0 for every shorter unit.  The text is to hold
    at most 15 digits; its number of years is then below 10^15, which
    [parseInt] reads without rounding. *)
Theorem extracted_publish_time_age (el : element) (t : jsstring) :
  publishTime (Content.extractVideoData el) = Some t
  \/ publishTime (Modular.extractVideoData el) = Some t ->
  (digitCount t <= 15)%nat ->
  exists a,
    isAgoText a /\ t = agoString a
    /\ (0 <= yearsOf a < 10 ^ 15)%Z
    /\ parseVideoAge (VString t) = Normal (ofZ (yearsOf a)).
Proof.
  intros H Hdigits.
  assert (Hshape : exists a, isAgoText a /\ t = agoString a)
    by (destruct H as [H | H]; exact (extractPublishTime_shape _ _ H)).
  destruct Hshape as (a & Ha & ->).
  exists a. split; [exact Ha | ]. split; [reflexivity | ].
  split; [exact (yearsOf_below a 15 Ha Hdigits) | ].
  apply parseVideoAge_ago, Ha.
Qed.

Lemma extracted_publish_time_age_witness :
  let card := sampleCard "Lofi beats"
                "Lofi beats 1.2M views Streamed 11 months ago" in
  publishTime (Modular.extractVideoData card) = Some (js "11 months ago")
  /\ exists a,
       isAgoText a /\ js "11 months ago" = agoString a
       /\ (0 <= yearsOf a < 10 ^ 15)%Z
       /\ parseVideoAge (VString (js "11 months ago"))
          = Normal (ofZ (yearsOf a)).
Proof.
  split; [reflexivity | ].
  apply (extracted_publish_time_age
           (sampleCard "Lofi beats"
              "Lofi beats 1.2M views Streamed 11 months ago"));
    [right; reflexivity | vm_compute; lia].
Defined.

(** ** The filter predicates *)

(** *** The predicates on well-formed fields *)

Lemma agoString_truthy a :
  isAgoText a -> truthy (VString (agoString a)) = true.
Proof.
  intros (Hds & _). destruct (isDigits_cons _ Hds) as (c & ds & E & _).
  unfold agoString. rewrite E. reflexivity.
Qed.

Lemma not_below_zero m : (m <=n ofZ 0) = false -> (ofZ 0 >n m) = false.
Proof.
  destruct m as [ | | | y]; simpl; try reflexivity; try discriminate.
  unfold num_gt. simpl. intros H. apply negb_false_iff.
  apply Qle_bool_iff, Qlt_le_weak, Qnot_le_lt. intros Hle.
  apply Qle_bool_iff in Hle. congruence.
Qed.

(** X6.  The age filter on a publish time as the page writes it, its
    number of years below 2^53.  In the filter-functions module, with
    the filter on and a positive [maxAge], the record is filtered
    exactly when the years read from it exceed [maxAge], and a publish
    time in seconds to months (0 years) is never filtered, whatever the
    settings.  [content.js] never filters by age: the settings it
    holds are the stored ones under the names of [setting.js], where
    the limit is [maxAgeYears], so the [maxAge] it reads is
    [undefined] and its comparison fails on every record. *)
Theorem age_filter_reads_years (record : videoData) (a : agoText) :
  publishTime record = Some (agoString a) ->
  isAgoText a ->
  (yearsOf a < 2 ^ 53)%Z ->
  let years := ofZ (yearsOf a) in
  (forall s,
      Modular.ageFilterEnabled s = true ->
      (ofZ 0 <n Modular.maxAge s) = true ->
      Modular.checkAgeFilter record s
      = if years >n Modular.maxAge s
        then filterOut "age" (TooOld (agoString a) years)
        else pass)
  /\ (yearsOf a = 0%Z ->
      forall s, Modular.checkAgeFilter record s = pass)
  /\ (forall sync s,
      ContentInit.filterSettings sync = Some s ->
      Content.checkAgeFilter record s = pass).
Proof.
  intros Hp Ha _ years. pose proof (agoString_truthy a Ha) as Ht.
  pose proof (parseVideoAge_ago a Ha) as Hage.
  split; [ | split].
  - intros s He Hm. unfold Modular.checkAgeFilter.
    rewrite He, (positive_threshold _ Hm), Hp. cbn [negb orb textValue].
    rewrite Ht, Hage. reflexivity.
  - intros Hzero m.
    unfold Modular.checkAgeFilter.
    destruct (negb (Modular.ageFilterEnabled m)); [reflexivity | ].
    destruct (Modular.maxAge m <=n ofZ 0) eqn:Hm; [reflexivity | ].
    rewrite Hp. cbn [negb orb textValue]. rewrite Ht, Hage, Hzero.
    cbn [negb returned]. rewrite (not_below_zero _ Hm). reflexivity.
  - intros sync s Hs. exact (Content_age_never_fires sync s record Hs).
Qed.

Lemma age_filter_reads_years_witness :
  let record := VideoData None None None (Some (js "7 years ago")) None in
  let recent := VideoData None None None (Some (js "11 months ago")) None in
  let m := Modular.Settings false false false true
             (ofZ 0) (ofZ 0) (ofZ 0) (ofZ 5) [] in
  let stored : gmap string value :=
    {[ "ageFilterEnabled" := VBool true;
       "maxAgeYears" := VNumber (ofZ 5) ]}%string in
  Modular.checkAgeFilter record m
  = filterOut "age" (TooOld (js "7 years ago") (ofZ 7))
  /\ Modular.checkAgeFilter recent m = pass
  /\ (forall s, ContentInit.filterSettings stored = Some s ->
        Content.checkAgeFilter record s = pass).
Proof.
  split; [ | split].
  - apply (age_filter_reads_years
             (VideoData None None None (Some (js "7 years ago")) None)
             (AgoText (js "7") (js " ") (js "year") (js "s") (js " ")
                      (js "ago"))
             eq_refl);
      [repeat split; auto | reflexivity | reflexivity | reflexivity].
  - apply (age_filter_reads_years
             (VideoData None None None (Some (js "11 months ago")) None)
             (AgoText (js "11") (js " ") (js "month") (js "s") (js " ")
                      (js "ago"))
             eq_refl);
      [repeat split; auto | reflexivity | reflexivity].
  - intros s.
    apply (age_filter_reads_years
             (VideoData None None None (Some (js "7 years ago")) None)
             (AgoText (js "7") (js " ") (js "year") (js "s") (js " ")
                      (js "ago"))
             eq_refl);
      [repeat split; auto | reflexivity].
Defined.

(** [parseDuration] on minutes and seconds. *)
Lemma parseDuration_minutes_seconds mm ss :
  isDigits mm = true -> isDigits ss = true ->
  parseDuration (VString (mm ++ js ":" ++ ss))
  = Normal (ofZ (digitsValue mm * 60 + digitsValue ss)).
Proof.
  intros Hm Hs.
  rewrite parseDuration_colon by (apply in_or_app; right; left; reflexivity).
  cbv zeta. rewrite (trim_between_digits _ _ Hm Hs (js ":")).
  unfold colonParts. change (js ":" ++ ss) with (cu ":" :: ss).
  rewrite split_at_colon, split_no_colon by auto using isDigits_all.
  cbn [map]. rewrite !parseInt10_digits by assumption.
  cbn [existsb isNaN ofZ orb]. rewrite ofZ_mul, ofZ_add. reflexivity.
Qed.

Lemma clock_truthy mm ss :
  isDigits mm = true -> truthy (VString (mm ++ js ":" ++ ss)) = true.
Proof.
  intros Hm. destruct (isDigits_cons _ Hm) as (c & m' & -> & _). reflexivity.
Qed.

(** X7.  The duration filter on a duration of minutes and seconds, the
    seconds it stands for below 2^53: with the filter on, the record is
    filtered exactly when its seconds fall below a [minDuration] that
    is set or above a [maxDuration] that is set, a bound of 0 being no
    bound; the reason is ["duration"]. *)
Theorem duration_filter_range (record : videoData) (mm ss : jsstring) :
  duration record = Some (mm ++ js ":" ++ ss) ->
  isDigits mm = true -> isDigits ss = true ->
  (digitsValue mm * 60 + digitsValue ss < 2 ^ 53)%Z ->
  let seconds := ofZ (digitsValue mm * 60 + digitsValue ss) in
  let outside lo hi :=
    num_truthy lo && negb (seconds >=n lo)
    || num_truthy hi && negb (seconds <=n hi) in
  (forall s,
      Content.durationFilterEnabled s = true ->
      shouldFilter (Content.checkDurationFilter record s)
      = outside (Content.minDuration s) (Content.maxDuration s)
      /\ (shouldFilter (Content.checkDurationFilter record s) = true ->
          reason (Content.checkDurationFilter record s)
          = Some "duration"%string))
  /\ (forall s,
      Modular.durationFilterEnabled s = true ->
      shouldFilter (Modular.checkDurationFilter record s)
      = outside (Modular.minDuration s) (Modular.maxDuration s)
      /\ (shouldFilter (Modular.checkDurationFilter record s) = true ->
          reason (Modular.checkDurationFilter record s)
          = Some "duration"%string)).
Proof.
  intros Hd Hm Hs _ seconds outside.
  pose proof (parseDuration_minutes_seconds mm ss Hm Hs) as Hparse.
  pose proof (clock_truthy mm ss Hm) as Ht.
  split; intros s He; (split; [ | first [ apply Content_duration_reason
                                        | apply Modular_duration_reason ]]).
  - unfold Content.checkDurationFilter, outside. rewrite He, Hd.
    cbn [negb textValue]. rewrite Ht, Hparse. cbn [negb returned].
    fold seconds.
    destruct (num_truthy (Content.minDuration s)),
             (num_truthy (Content.maxDuration s)); cbn [negb andb orb];
      try reflexivity;
      destruct (seconds >=n Content.minDuration s),
               (seconds <=n Content.maxDuration s); reflexivity.
  - unfold Modular.checkDurationFilter, outside. rewrite He, Hd.
    cbn [negb textValue]. rewrite Ht, Hparse. cbn [negb returned].
    fold seconds.
    destruct (num_truthy (Modular.minDuration s)),
             (num_truthy (Modular.maxDuration s)); cbn [negb andb orb];
      try reflexivity;
      destruct (seconds >=n Modular.minDuration s),
               (seconds <=n Modular.maxDuration s); reflexivity.
Qed.

Lemma duration_filter_range_witness :
  let record := VideoData None None (Some (js "0:45")) None None in
  let c := Content.Settings false true false false
             (ofZ 0) (ofZ 60) (ofZ 0) NaN [] in
  let m := Modular.Settings false true false false
             (ofZ 0) (ofZ 0) (ofZ 3600) (ofZ 0) [] in
  shouldFilter (Content.checkDurationFilter record c) = true
  /\ shouldFilter (Modular.checkDurationFilter record m) = false.
Proof.
  pose proof (duration_filter_range
                (VideoData None None (Some (js "0:45")) None None)
                (js "0") (js "45") eq_refl eq_refl eq_refl eq_refl)
    as [Hc Hm].
  split.
  - apply (Hc (Content.Settings false true false false
                 (ofZ 0) (ofZ 60) (ofZ 0) NaN [])). reflexivity.
  - apply (Hm (Modular.Settings false true false false
                 (ofZ 0) (ofZ 0) (ofZ 3600) (ofZ 0) [])). reflexivity.
Defined.

(** X8.  The views filter on a view count as the page writes it, the
    number written and its product with the suffix's factor being
    values binary64 holds exactly: with the filter on and a positive
    [minViews], the record is filtered exactly when the number written,
    times its suffix, is below [minViews]; the reason is ["views"] in
    both variants. *)
Theorem views_filter_threshold (record : videoData) ip fp sfx ws vw :
  isDigits ip = true -> forallb isDigit fp = true -> isSuffixText sfx ->
  forallb isWhiteSpace ws = true -> vw = [] \/ isViewsWord vw = true ->
  isDouble (decimalValue ip fp) = true ->
  isDouble (decimalValue ip fp * inject_Z (multiplier sfx)) = true ->
  let text := ip ++ fractionText fp ++ sfx ++ ws ++ vw in
  let views := fin (decimalValue ip fp * inject_Z (multiplier sfx)) in
  viewCount record = Some text ->
  (forall s,
      Content.viewsFilterEnabled s = true ->
      (ofZ 0 <n Content.minViews s) = true ->
      Content.checkViewsFilter record s
      = if views <n Content.minViews s
        then filterOut "views" (LowViews text views)
        else pass)
  /\ (forall s,
      Modular.viewsFilterEnabled s = true ->
      (ofZ 0 <n Modular.minViews s) = true ->
      Modular.checkViewsFilter record s
      = if views <n Modular.minViews s
        then filterOut "views" (LowViews text views)
        else pass).
Proof.
  intros Hip Hfp Hsfx Hws Hvw _ _ text views Hv.
  pose proof (parseViewCount_count_word ip fp sfx ws vw Hip Hfp Hsfx Hws Hvw)
    as Hparse. fold text views in Hparse.
  assert (Ht : truthy (VString text) = true).
  { subst text. destruct (isDigits_cons _ Hip) as (c & ip' & -> & _).
    reflexivity. }
  split; intros s He Hm.
  - unfold Content.checkViewsFilter.
    rewrite He, (positive_threshold _ Hm), Hv. cbn [negb orb textValue].
    rewrite Ht, Hparse. reflexivity.
  - unfold Modular.checkViewsFilter.
    rewrite He, (positive_threshold _ Hm), Hv. cbn [negb orb textValue].
    rewrite Ht, Hparse. reflexivity.
Qed.

Lemma views_filter_threshold_witness :
  let record := VideoData None (Some (js "9.5K views")) None None None in
  let c := Content.Settings true false false false
             (ofZ 10000) (ofZ 0) (ofZ 0) NaN [] in
  Content.checkViewsFilter record c
  = filterOut "views" (LowViews (js "9.5K views") (ofZ 9500)).
Proof.
  apply (views_filter_threshold
           (VideoData None (Some (js "9.5K views")) None None None)
           (js "9") (js "5") (js "K") (js " ") (js "views")
           eq_refl eq_refl (or_intror (ex_intro _ _ (conj eq_refl eq_refl)))
           eq_refl (or_intror eq_refl) eq_refl eq_refl eq_refl);
    reflexivity.
Defined.

(** *** The keyword filter *)

Lemma stripPrefix_Some p : forall s r,
  stripPrefix p s = Some r <-> s = p ++ r.
Proof.
  induction p as [ | a p IH]; intros s r; cbn [stripPrefix app].
  - split; [intros H; injection H as ->; reflexivity | intros ->; reflexivity].
  - destruct s as [ | b s]; [split; discriminate | ].
    destruct (N.eqb_spec a b) as [-> | Hab].
    + rewrite IH. split; [intros ->; reflexivity | intros H; injection H; auto].
    + split; [discriminate | intros H; injection H; congruence].
Qed.

(** [s.includes(t)] holds exactly when [t] is a part of [s]. *)
Lemma includes_iff s t :
  includes s t = true <-> exists a b, s = a ++ t ++ b.
Proof.
  split.
  - induction s as [ | c s IH]; cbn [includes].
    + destruct (stripPrefix t []) as [r | ] eqn:E; [ | discriminate].
      intros _. apply stripPrefix_Some in E. exists [], r. exact E.
    + destruct (stripPrefix t (c :: s)) as [r | ] eqn:E.
      * intros _. apply stripPrefix_Some in E. exists [], r. exact E.
      * intros H. destruct (IH H) as (a & b & ->). exists (c :: a), b.
        reflexivity.
  - intros (a & b & ->). induction a as [ | c a IH].
    + cbn [app]. destruct (t ++ b) as [ | x l] eqn:E; cbn [includes];
        rewrite <- E, (proj2 (stripPrefix_Some t (t ++ b) b) eq_refl);
        reflexivity.
    + cbn [app includes]. rewrite IH. destruct (stripPrefix t _); reflexivity.
Qed.

Lemma truthy_string_iff s : truthy (VString s) = true <-> s <> [].
Proof. destruct s; simpl; split; congruence. Qed.

Lemma occursIn_iff title keyword :
  occursIn title keyword
  <-> truthy (VString keyword)
      && includes (toLowerCase title) (toLowerCase keyword) = true.
Proof.
  unfold occursIn. rewrite andb_true_iff, truthy_string_iff, includes_iff.
  reflexivity.
Qed.

Lemma firstBanned_same titleLower keywords :
  Modular.firstBanned titleLower keywords
  = Content.firstBanned titleLower keywords.
Proof.
  induction keywords as [ | k ks IH]; cbn [Modular.firstBanned
    Content.firstBanned]; [reflexivity | ].
  rewrite IH. reflexivity.
Qed.

(** The loop over the banned keywords stops at the first one that
    occurs in the title. *)
Lemma firstBanned_spec title keywords :
  (shouldFilter (Content.firstBanned (toLowerCase title) keywords) = true
   <-> Exists (occursIn title) keywords)
  /\ (forall k,
        Content.firstBanned (toLowerCase title) keywords
        = filterOut "keyword" (BannedKeyword k) ->
        exists before after,
          keywords = before ++ k :: after
          /\ occursIn title k
          /\ Forall (fun k' => ~ occursIn title k') before).
Proof.
  induction keywords as [ | k0 ks [IH1 IH2]]; cbn [Content.firstBanned].
  - split; [ | discriminate].
    split; [discriminate | intros H; inversion H].
  - destruct (truthy (VString k0) && includes _ _) eqn:E.
    + apply occursIn_iff in E. split.
      * split; [intros _; left; exact E | reflexivity].
      * intros k H. injection H as <-. exists [], ks. auto.
    + assert (Hno : ~ occursIn title k0).
      { intros H. apply occursIn_iff in H. congruence. }
      split.
      * rewrite IH1. split; [intros H; right; exact H | ].
        intros H. inversion H; subst; [contradiction | assumption].
      * intros k H. destruct (IH2 k H) as (before & after & -> & Hk & Hb).
        exists (k0 :: before), after. auto.
Qed.

(** X9.  The keyword filter of the filter-functions module, on a title
    and banned keywords whose code units stay within U+00FF: when the
    filter is on and the record has a title, it filters exactly when
    some banned keyword that is not empty occurs in the title, both
    taken in lower case; the keyword it reports is the first such
    keyword of the list. *)
Theorem keyword_filter_occurrence (record : videoData) (t : jsstring)
    (s : Modular.settings) :
  title record = Some t -> t <> [] ->
  isLatin1 t = true ->
  Forall (fun k => isLatin1 k = true) (Modular.bannedKeywords s) ->
  Modular.keywordFilterEnabled s = true ->
  (shouldFilter (Modular.checkKeywordsFilter record s) = true
   <-> Exists (occursIn t) (Modular.bannedKeywords s))
  /\ (forall k,
        Modular.checkKeywordsFilter record s
        = filterOut "keyword" (BannedKeyword k) ->
        exists before after,
          Modular.bannedKeywords s = before ++ k :: after
          /\ occursIn t k
          /\ Forall (fun k' => ~ occursIn t k') before).
Proof.
  intros Ht Hne _ _ He. apply truthy_string_iff in Hne.
  unfold Modular.checkKeywordsFilter. rewrite He, Ht.
  cbn [negb orb textValue default]. rewrite Hne. cbn [negb].
  destruct (Modular.bannedKeywords s) as [ | k0 ks] eqn:Hks.
  - cbn. split; [ | discriminate].
    split; [discriminate | intros H; inversion H].
  - replace (bool_decide (length (k0 :: ks) = 0%nat)) with false
      by reflexivity.
    rewrite firstBanned_same. apply firstBanned_spec.
Qed.

Lemma keyword_filter_occurrence_witness :
  let record := VideoData (Some (js "Ending SPOILER Discussion"))
                          None None None None in
  let m := Modular.Settings false false true false
             (ofZ 0) (ofZ 0) (ofZ 0) (ofZ 0)
             [[]; js "clickbait"; js "Spoiler"; js "end"] in
  Modular.checkKeywordsFilter record m
  = filterOut "keyword" (BannedKeyword (js "Spoiler"))
  /\ exists before after,
       Modular.bannedKeywords m = before ++ js "Spoiler" :: after
       /\ occursIn (js "Ending SPOILER Discussion") (js "Spoiler")
       /\ Forall (fun k' => ~ occursIn (js "Ending SPOILER Discussion") k')
                 before.
Proof.
  split; [reflexivity | ].
  assert (Hlatin : Forall (fun k => isLatin1 k = true)
                     [[]; js "clickbait"; js "Spoiler"; js "end"])
    by (repeat constructor).
  destruct (keyword_filter_occurrence
              (VideoData (Some (js "Ending SPOILER Discussion"))
                         None None None None)
              (js "Ending SPOILER Discussion")
              (Modular.Settings false false true false
                 (ofZ 0) (ofZ 0) (ofZ 0) (ofZ 0)
                 [[]; js "clickbait"; js "Spoiler"; js "end"])
              eq_refl ltac:(discriminate) eq_refl Hlatin eq_refl)
    as [_ Hk].
  apply (Hk (js "Spoiler")). reflexivity.
Defined.

(** *** The two variants of the predicates *)







(** ** A pass over the page *)

(** *** The two extractors *)

Lemma titleLoop_first el selectors : forall t0,
  match Patterns.firstElement el selectors with
  | Some n =>
      truthy (textValue (Patterns.titleOf n)) = true ->
      Modular.titleLoop el selectors t0 = Patterns.titleOf n
  | None => Modular.titleLoop el selectors t0 = t0
  end.
Proof.
  induction selectors as [ | selector rest IH]; intros t0;
    cbn [Patterns.firstElement Modular.titleLoop]; [reflexivity | ].
  destruct (querySelector el selector) as [n | ].
  - intros Hn. rewrite Hn. reflexivity.
  - apply IH.
Qed.

(** X11.  The modular extractor refines the one of [content.js]: the
    two agree on the view count, the duration and the publish time;
    whenever [content.js] finds a non-empty title the modular extractor
    finds the same one (it only goes on to later selectors when the
    first title element yields nothing); and the video ids agree but
    for an empty id, which the modular extractor records as [null]. *)
Theorem extractors_agree (el : element) :
  let c := Content.extractVideoData el in
  let m := Modular.extractVideoData el in
  viewCount m = viewCount c
  /\ duration m = duration c
  /\ publishTime m = publishTime c
  /\ (truthy (textValue (title c)) = true -> title m = title c)
  /\ videoId m = (if truthy (textValue (videoId c)) then videoId c else None).
Proof.
  cbv zeta. do 3 (split; [reflexivity | ]). split; [ | reflexivity].
  unfold Content.extractVideoData, Modular.extractVideoData.
  cbn [title]. pose proof (titleLoop_first el Patterns.titleSelectors None).
  destruct (Patterns.firstElement el Patterns.titleSelectors) as [n | ];
    [assumption | discriminate].
Qed.

Lemma extractors_agree_witness :
  let el := sampleCard "Lofi beats" "Lofi beats 1.2M views 3 days ago" in
  title (Modular.extractVideoData el) = title (Content.extractVideoData el).
Proof.
  apply (extractors_agree
           (sampleCard "Lofi beats" "Lofi beats 1.2M views 3 days ago")).
  reflexivity.
Defined.

(** *** The page after a pass *)

Lemma Content_visit_outcome now s st el :
  snd (Content.visit now s st el) = Content_outcome s el.
Proof.
  unfold Content.visit, Content_outcome.
  destruct (hasAttribute el "data-filtered"); [reflexivity | ].
  destruct (Content.triggeredFilter _ s); reflexivity.
Qed.

Lemma Modular_visit_outcome now s st el :
  snd (Modular.visit now s st el) = Modular_outcome s el.
Proof.
  unfold Modular.visit, Modular_outcome.
  destruct (hasAttribute el "data-filtered"); [reflexivity | ].
  destruct (Modular.applyAllFilters _ s); reflexivity.
Qed.

Lemma Content_forEach_outcome now s cards : forall st,
  snd (Content.forEach now s st cards) = map (Content_outcome s) cards.
Proof.
  induction cards as [ | el rest IH]; intros st; cbn [Content.forEach map];
    [reflexivity | ].
  pose proof (Content_visit_outcome now s st el) as Hv.
  destruct (Content.visit now s st el) as [st1 el1]. cbn [snd] in Hv.
  specialize (IH st1). destruct (Content.forEach now s st1 rest) as [st2 r2].
  cbn [snd] in *. rewrite Hv, IH. reflexivity.
Qed.

Lemma Modular_forEach_outcome now s cards : forall st,
  snd (Modular.forEach now s st cards) = map (Modular_outcome s) cards.
Proof.
  induction cards as [ | el rest IH]; intros st; cbn [Modular.forEach map];
    [reflexivity | ].
  pose proof (Modular_visit_outcome now s st el) as Hv.
  destruct (Modular.visit now s st el) as [st1 el1]. cbn [snd] in Hv.
  specialize (IH st1). destruct (Modular.forEach now s st1 rest) as [st2 r2].
  cbn [snd] in *. rewrite Hv, IH. reflexivity.
Qed.

Lemma Content_outcome_all_off s cards :
  negb (Content.viewsFilterEnabled s) && negb (Content.durationFilterEnabled s)
  && negb (Content.keywordsFilterEnabled s) && negb (Content.ageFilterEnabled s)
  = true ->
  map (Content_outcome s) cards = cards.
Proof.
  intros Hoff. induction cards as [ | el rest IH]; cbn [map]; [reflexivity | ].
  rewrite IH. f_equal. unfold Content_outcome.
  rewrite (Content_all_off _ _ Hoff). destruct (hasAttribute _ _); reflexivity.
Qed.

Lemma Content_runAllFilters_cards now w :
  Content.videoCards (Content.runAllFilters now w)
  = map (Content_outcome (Content.filterSettings w)) (Content.videoCards w).
Proof.
  unfold Content.runAllFilters. cbv zeta.
  destruct (negb _ && _ && _ && _) eqn:Hoff.
  - symmetry. apply Content_outcome_all_off, Hoff.
  - pose proof (Content_forEach_outcome now (Content.filterSettings w)
                  (Content.videoCards w)
                  (Content.PassState Content.initialStats false 0 0
                     (Content.storedVideos w) (Content.dates w)
                     (Content.storedVideos w))) as H.
    unfold Content.scan. destruct (Content.forEach _ _ _ _) as [st cards].
    cbn [snd] in H. destruct (Content.newFilters st); exact H.
Qed.

Lemma Modular_all_off record s :
  existsb (fun enabled : bool => enabled)
    [ Modular.viewsFilterEnabled s; Modular.durationFilterEnabled s;
      Modular.keywordFilterEnabled s; Modular.ageFilterEnabled s ] = false ->
  Modular.applyAllFilters record s = None.
Proof.
  cbn [existsb]. intros H.
  destruct (Modular.viewsFilterEnabled s) eqn:Hv; [discriminate | ].
  destruct (Modular.durationFilterEnabled s) eqn:Hd; [discriminate | ].
  destruct (Modular.keywordFilterEnabled s) eqn:Hk; [discriminate | ].
  destruct (Modular.ageFilterEnabled s) eqn:Ha; [discriminate | ].
  rewrite Modular_applyAllFilters_order.
  unfold Modular.checkViewsFilter, Modular.checkDurationFilter,
    Modular.checkAgeFilter, Modular.checkKeywordsFilter.
  rewrite Hv, Hd, Hk, Ha. reflexivity.
Qed.

Lemma Modular_runFilters_cards now w s :
  Modular.isInitialized w = true ->
  Modular.engineSettings w = Some s ->
  Modular.videoCards (Modular.runFilters now w)
  = map (Modular_outcome s) (Modular.videoCards w).
Proof.
  intros Hi Hs. unfold Modular.runFilters. rewrite Hi, Hs. cbv zeta.
  destruct (negb _) eqn:Hoff.
  - apply negb_true_iff in Hoff. symmetry.
    induction (Modular.videoCards w) as [ | el rest IH]; cbn [map];
      [reflexivity | ].
    rewrite IH. f_equal. unfold Modular_outcome.
    rewrite (Modular_all_off _ _ Hoff). destruct (hasAttribute _ _); reflexivity.
  - pose proof (Modular_forEach_outcome now s (Modular.videoCards w)
                  (Modular.PassState Modular.DEFAULT_STATS false 0 0
                     (Modular.storedVideos w) (Modular.dates w)
                     (Modular.storedVideos w))) as H.
    unfold Modular.scan. destruct (Modular.forEach _ _ _ _) as [st cards].
    cbn [snd] in H. destruct (Modular.newFilters st); exact H.
Qed.

(** X12.  The page after a pass.  [runAllFilters] and [runFilters] leave
    the cards in their order, each one either exactly as it was --
    when it was tagged already or no predicate fires on it -- or
    hidden: display [none], [data-filtered="true"],
    [data-filter-reason] the reason of its decision, and nothing else
    of it changed.  What becomes of a card depends on that card and the
    settings only. *)
Theorem page_after_a_pass :
  (forall now w,
      Content.videoCards (Content.runAllFilters now w)
      = map (Content_outcome (Content.filterSettings w))
            (Content.videoCards w))
  /\ (forall now w s,
      Modular.isInitialized w = true ->
      Modular.engineSettings w = Some s ->
      Modular.videoCards (Modular.runFilters now w)
      = map (Modular_outcome s) (Modular.videoCards w))
  /\ (forall el r,
      let hidden := Modular.hideVideoElement el r in
      styleDisplay hidden = js "none"
      /\ attributes hidden !! "data-filtered"%string = Some (js "true")
      /\ attributes hidden !! "data-filter-reason"%string
         = Some (js (propertyKey r))
      /\ (forall name,
            name <> "data-filtered"%string ->
            name <> "data-filter-reason"%string ->
            attributes hidden !! name = attributes el !! name)
      /\ querySelector hidden = querySelector el
      /\ innerText hidden = innerText el).
Proof.
  split; [exact Content_runAllFilters_cards | ].
  split; [exact Modular_runFilters_cards | ].
  intros el r hidden. subst hidden.
  unfold Modular.hideVideoElement, setAttribute, setDisplay.
  cbn [attributes styleDisplay querySelector innerText].
  repeat split.
  - rewrite lookup_insert_ne by discriminate. apply lookup_insert_eq.
  - apply lookup_insert_eq.
  - intros name H1 H2. rewrite !lookup_insert_ne by congruence. reflexivity.
Qed.

Lemma page_after_a_pass_witness :
  let now := fun _ : nat => 0%Z in
  let card := sampleCard "A mix" "A mix" in
  let m := Modular.Settings true false false false
             (ofZ 10000) (ofZ 0) (ofZ 0) (ofZ 0) [] in
  let w := Modular.World (Some m) Modular.DEFAULT_STATS true [card] [] None 0 in
  Modular.videoCards (Modular.runFilters now w)
  = [Modular.hideVideoElement card (Some "views"%string)].
Proof.
  destruct page_after_a_pass as (_ & H & _).
  exact (H (fun _ : nat => 0%Z)
           (Modular.World
              (Some (Modular.Settings true false false false
                       (ofZ 10000) (ofZ 0) (ofZ 0) (ofZ 0) []))
              Modular.DEFAULT_STATS true [sampleCard "A mix" "A mix"] [] None 0)
           (Modular.Settings true false false false
              (ofZ 10000) (ofZ 0) (ofZ 0) (ofZ 0) [])
           eq_refl eq_refl).
Defined.

(** *** The statistics *)





















Lemma Content_nothing_when_off s cards :
  negb (Content.viewsFilterEnabled s) && negb (Content.durationFilterEnabled s)
  && negb (Content.keywordsFilterEnabled s) && negb (Content.ageFilterEnabled s)
  = true ->
  List.filter (Content_filtersNow s) cards = [].
Proof.
  intros Hoff. induction cards as [ | el rest IH]; cbn [List.filter];
    [reflexivity | ].
  unfold Content_filtersNow at 1. rewrite (Content_all_off _ _ Hoff).
  rewrite bool_decide_eq_false_2 by (intros [? ?]; discriminate).
  rewrite andb_false_r. exact IH.
Qed.

Lemma Modular_nothing_when_off s cards :
  existsb (fun enabled : bool => enabled)
    [ Modular.viewsFilterEnabled s; Modular.durationFilterEnabled s;
      Modular.keywordFilterEnabled s; Modular.ageFilterEnabled s ] = false ->
  List.filter (Modular_filtersNow s) cards = [].
Proof.
  intros Hoff. induction cards as [ | el rest IH]; cbn [List.filter];
    [reflexivity | ].
  unfold Modular_filtersNow at 1. rewrite (Modular_all_off _ _ Hoff).
  rewrite bool_decide_eq_false_2 by (intros [? ?]; discriminate).
  rewrite andb_false_r. exact IH.
Qed.





(** *** Counting the cards *)

Lemma getVideoCounts_fold cards : forall f v,
  foldl (fun '(filtered, visible) video =>
           if hasAttribute video "data-filtered"
           then (S filtered, visible)
           else (filtered, S visible))
        (f, v) cards
  = ((f + length (List.filter (fun el => hasAttribute el "data-filtered")
                              cards))%nat,
     (v + length (List.filter (fun el => negb (hasAttribute el "data-filtered"))
                              cards))%nat).
Proof.
  induction cards as [ | el rest IH]; intros f v; cbn [foldl List.filter].
  - cbn. rewrite !Nat.add_0_r. reflexivity.
  - destruct (hasAttribute el "data-filtered"); cbn [negb]; rewrite IH;
      cbn [length]; f_equal; lia.
Qed.

Lemma getVideoCounts_spec cards :
  DomManager.getVideoCounts cards
  = DomManager.VideoCounts
      (length (List.filter (fun el => hasAttribute el "data-filtered") cards))
      (length (List.filter (fun el => negb (hasAttribute el "data-filtered"))
                           cards))
      (length cards).
Proof.
  unfold DomManager.getVideoCounts. rewrite getVideoCounts_fold. reflexivity.
Qed.

Lemma filter_split_length {A} (p : A -> bool) l :
  (length (List.filter p l) + length (List.filter (fun x => negb (p x)) l))%nat
  = length l.
Proof.
  induction l as [ | x l IH]; cbn [List.filter length]; [reflexivity | ].
  destruct (p x); cbn [negb length]; lia.
Qed.

Lemma Modular_outcome_tagged s el :
  hasAttribute (Modular_outcome s el) "data-filtered"
  = hasAttribute el "data-filtered" || Modular_filtersNow s el.
Proof.
  unfold Modular_outcome, Modular_filtersNow.
  destruct (hasAttribute el "data-filtered") eqn:Ht; cbn [negb andb orb];
    [exact Ht | ].
  destruct (Modular.applyAllFilters _ s) as [f | ].
  - rewrite bool_decide_eq_true_2 by eauto.
    unfold Modular.hideVideoElement. apply hasAttribute_set_other.
    apply hasAttribute_set.
  - rewrite bool_decide_eq_false_2 by (intros [? ?]; discriminate). exact Ht.
Qed.

Lemma tagged_after_pass s cards :
  length (List.filter (fun el => hasAttribute el "data-filtered")
                      (map (Modular_outcome s) cards))
  = (length (List.filter (fun el => hasAttribute el "data-filtered") cards)
     + length (List.filter (Modular_filtersNow s) cards))%nat.
Proof.
  induction cards as [ | el rest IH]; cbn [map List.filter]; [reflexivity | ].
  rewrite Modular_outcome_tagged.
  destruct (hasAttribute el "data-filtered") eqn:Ht; cbn [orb].
  - rewrite (Modular_tagged_quiet s el Ht). cbn [length]. rewrite IH. lia.
  - destruct (Modular_filtersNow s el); cbn [length]; rewrite IH; lia.
Qed.

(** X14.  [getVideoCounts] splits the cards into the tagged and the
    rest: [filtered + visible = total], the number of cards.  A pass of
    the filter engine moves exactly the cards it newly filters from
    [visible] to [filtered] -- as many as its delta counts under
    [total] -- and leaves [total] alone. *)
Theorem video_counts_after_a_pass :
  (forall allVideos,
      let c := DomManager.getVideoCounts allVideos in
      (DomManager.filtered c + DomManager.visible c)%nat = DomManager.total c
      /\ DomManager.total c = length allVideos)
  /\ (forall now w s,
      Modular.isInitialized w = true ->
      Modular.engineSettings w = Some s ->
      let before := DomManager.getVideoCounts (Modular.videoCards w) in
      let after :=
        DomManager.getVideoCounts
          (Modular.videoCards (Modular.runFilters now w)) in
      let newly := Modular_counted "total" s (Modular.videoCards w) in
      DomManager.total after = DomManager.total before
      /\ Z.of_nat (DomManager.filtered after)
         = (Z.of_nat (DomManager.filtered before) + newly)%Z
      /\ (Z.of_nat (DomManager.visible after) + newly)%Z
         = Z.of_nat (DomManager.visible before)).
Proof.
  split.
  - intros allVideos c. subst c. rewrite getVideoCounts_spec.
    cbn [DomManager.filtered DomManager.visible DomManager.total].
    split; [apply filter_split_length | reflexivity].
  - intros now w s Hi Hs before after newly. subst before after newly.
    rewrite (Modular_runFilters_cards now w s Hi Hs), !getVideoCounts_spec.
    cbn [DomManager.filtered DomManager.visible DomManager.total].
    unfold Modular_counted. change (String.eqb "total" "total") with true.
    cbv iota.
    pose proof (tagged_after_pass s (Modular.videoCards w)) as Ht.
    pose proof (filter_split_length
                  (fun el => hasAttribute el "data-filtered")
                  (map (Modular_outcome s) (Modular.videoCards w))) as H1.
    pose proof (filter_split_length
                  (fun el => hasAttribute el "data-filtered")
                  (Modular.videoCards w)) as H2.
    rewrite length_map in *. repeat split; lia.
Qed.

Lemma video_counts_after_a_pass_witness :
  let now := fun _ : nat => 0%Z in
  let m := Modular.Settings true false false false
             (ofZ 10000) (ofZ 0) (ofZ 0) (ofZ 0) [] in
  let w := Modular.World (Some m) Modular.DEFAULT_STATS true
             [ sampleCard "A talk" "A talk 1.2M views 3 days ago";
               sampleCard "A mix" "A mix" ] [] None 0 in
  DomManager.total
    (DomManager.getVideoCounts (Modular.videoCards (Modular.runFilters now w)))
  = DomManager.total (DomManager.getVideoCounts (Modular.videoCards w)).
Proof.
  destruct video_counts_after_a_pass as (_ & H).
  apply (H (fun _ : nat => 0%Z)
           (Modular.World
              (Some (Modular.Settings true false false false
                       (ofZ 10000) (ofZ 0) (ofZ 0) (ofZ 0) []))
              Modular.DEFAULT_STATS true
              [ sampleCard "A talk" "A talk 1.2M views 3 days ago";
                sampleCard "A mix" "A mix" ] [] None 0)
           (Modular.Settings true false false false
              (ofZ 10000) (ofZ 0) (ofZ 0) (ofZ 0) [])
           eq_refl eq_refl).
Defined.

(** *** Showing a card again *)

Lemma element_eq a b :
  attributes a = attributes b -> styleDisplay a = styleDisplay b ->
  querySelector a = querySelector b -> innerText a = innerText b -> a = b.
Proof. destruct a, b. cbn. intros -> -> -> ->. reflexivity. Qed.

(** X15.  [showVideoElement] undoes [hideVideoElement]: on a card that
    carried neither tag nor an inline display, hiding and then showing
    gives the card back as it was.  Whatever the card, showing it
    leaves it without the two tags and without inline display, and
    with the content the extractor reads, so that the next pass
    evaluates it afresh on the same record. *)
Theorem show_undoes_hide :
  (forall el r,
      attributes el !! "data-filtered"%string = None ->
      attributes el !! "data-filter-reason"%string = None ->
      styleDisplay el = [] ->
      DomManager.showVideoElement (Modular.hideVideoElement el r) = el)
  /\ (forall el,
      let shown := DomManager.showVideoElement el in
      hasAttribute shown "data-filtered" = false
      /\ hasAttribute shown "data-filter-reason" = false
      /\ styleDisplay shown = []
      /\ Modular.extractVideoData shown = Modular.extractVideoData el
      /\ Content.extractVideoData shown = Content.extractVideoData el).
Proof.
  split.
  - intros el r Hf Hr Hd. apply element_eq; cbn; try reflexivity.
    + rewrite delete_insert_ne by discriminate.
      rewrite (delete_insert_id _ _ _ Hf). apply delete_insert_id, Hr.
    + symmetry. exact Hd.
  - intros el shown. subst shown.
    unfold DomManager.showVideoElement, removeAttribute, setDisplay, hasAttribute.
    cbn [attributes styleDisplay]. repeat split.
    + apply bool_decide_eq_false_2. intros [v Hv].
      rewrite lookup_delete_ne in Hv by discriminate.
      rewrite lookup_delete_eq in Hv. discriminate.
    + apply bool_decide_eq_false_2. intros [v Hv].
      rewrite lookup_delete_eq in Hv. discriminate.
Qed.

Lemma show_undoes_hide_witness :
  let card := sampleCard "A mix" "A mix" in
  DomManager.showVideoElement
    (Modular.hideVideoElement card (Some "views"%string)) = card.
Proof.
  apply (proj1 show_undoes_hide (sampleCard "A mix" "A mix")
           (Some "views"%string)); reflexivity.
Defined.

(** *** The log after a pass *)

Lemma entriesFrom_nothing filtersNow entry now cards : forall k,
  List.filter filtersNow cards = [] ->
  entriesFrom filtersNow entry now k cards = [].
Proof.
  induction cards as [ | el rest IH]; intros k; cbn [List.filter entriesFrom];
    [reflexivity | ].
  destruct (filtersNow el); [discriminate | apply IH].
Qed.

Lemma afterCallbacks_length old entries :
  (length old <= 100)%nat ->
  (length (afterCallbacks old old entries) <= 100)%nat
  /\ (length (afterCallbacks old old entries) <= S (length old))%nat.
Proof.
  intros Hlen. unfold afterCallbacks.
  destruct (last entries) as [e | ]; [ | lia].
  destruct (appendCapped_spec old e Hlen) as (Hcap & _ & Hshort & Hfull).
  split; [exact Hcap | ].
  destruct (Nat.eq_dec (length old) 100) as [H100 | Hne].
  - destruct (Hfull H100) as [_ ->]. lia.
  - rewrite Hshort by lia. rewrite length_app. cbn [length]. lia.
Qed.

(** X16.  The log after a pass.  On a stored log of at most 100
    entries, what [runAllFilters] and [runFilters] leave in storage is
    the old log with one entry appended under the cap, the entry of the
    last container newly filtered -- and the old log as it was when the
    pass filters nothing.  The entries of the other containers filtered
    in the same pass are lost: their callbacks were handed the same old
    log, and the last write stands.  So a pass lengthens the log by one
    entry at most, however many containers it filters. *)
Theorem log_after_a_pass :
  (forall now w,
      (length (Content.storedVideos w) <= 100)%nat ->
      let old := Content.storedVideos w in
      let entries :=
        entriesFrom (Content_filtersNow (Content.filterSettings w))
          (Content_entry (Content.filterSettings w)) now
          (Content.dates w) (Content.videoCards w) in
      let after := Content.storedVideos (Content.runAllFilters now w) in
      after = match last entries with
              | Some e => appendCapped old e
              | None => old
              end
      /\ (length after <= 100)%nat
      /\ (length after <= S (length old))%nat)
  /\ (forall now w s,
      Modular.isInitialized w = true ->
      Modular.engineSettings w = Some s ->
      (length (Modular.storedVideos w) <= 100)%nat ->
      let old := Modular.storedVideos w in
      let entries :=
        entriesFrom (Modular_filtersNow s) (Modular_entry s) now
          (Modular.dates w) (Modular.videoCards w) in
      let after := Modular.storedVideos (Modular.runFilters now w) in
      after = match last entries with
              | Some e => appendCapped old e
              | None => old
              end
      /\ (length after <= 100)%nat
      /\ (length after <= S (length old))%nat).
Proof.
  split.
  - intros now w Hlen old entries after.
    assert (Hafter : after = afterCallbacks old old entries).
    { subst after old entries. unfold Content.runAllFilters. cbv zeta.
      destruct (negb _ && _ && _ && _) eqn:Hoff.
      - rewrite entriesFrom_nothing by (apply Content_nothing_when_off, Hoff).
        reflexivity.
      - pose proof (Content_forEach_log now (Content.filterSettings w)
                      (Content.videoCards w)
                      (Content.PassState Content.initialStats false 0 0
                         (Content.storedVideos w) (Content.dates w)
                         (Content.storedVideos w)) Hlen) as H.
        cbv zeta in H.
        cbn [Content.filteredVideos Content.dateCount Content.storedBefore]
          in H.
        destruct H as [H _]. unfold Content.scan.
        destruct (Content.forEach _ _ _ _) as [st cards]. cbn [fst] in H.
        destruct (Content.newFilters st); exact H. }
    rewrite Hafter. split; [reflexivity | ].
    apply afterCallbacks_length, Hlen.
  - intros now w s Hi Hs Hlen old entries after.
    assert (Hafter : after = afterCallbacks old old entries).
    { subst after old entries. unfold Modular.runFilters.
      rewrite Hi, Hs. cbv zeta. destruct (negb _) eqn:Hoff.
      - apply negb_true_iff in Hoff.
        rewrite entriesFrom_nothing by (apply Modular_nothing_when_off, Hoff).
        reflexivity.
      - pose proof (Modular_forEach_log now s (Modular.videoCards w)
                      (Modular.PassState Modular.DEFAULT_STATS false 0 0
                         (Modular.storedVideos w) (Modular.dates w)
                         (Modular.storedVideos w)) Hlen) as H.
        cbv zeta in H.
        cbn [Modular.filteredVideos Modular.dateCount Modular.storedBefore]
          in H.
        destruct H as [H _]. unfold Modular.scan.
        destruct (Modular.forEach _ _ _ _) as [st cards]. cbn [fst] in H.
        destruct (Modular.newFilters st); exact H. }
    rewrite Hafter. split; [reflexivity | ].
    apply afterCallbacks_length, Hlen.
Qed.

Lemma log_after_a_pass_witness :
  let now := fun k : nat => Z.of_nat k in
  let old := HistoryEntry (js "oldest") None (ISOString 0) in
  let log := old :: replicate 99 (HistoryEntry (js "x") None (ISOString 1)) in
  let c := Content.Settings true true true false
             (ofZ 10000) (ofZ 60) (ofZ 3600) NaN [] in
  let w := Content.World c Content.initialStats
             [sampleCard "A mix" "A mix"; sampleCard "B mix" "B mix"]
             log None 5 in
  Content.storedVideos (Content.runAllFilters now w)
  = replicate 99 (HistoryEntry (js "x") None (ISOString 1))
    ++ [HistoryEntry (js "B mix") (Some NoViewCount) (ISOString 6)].
Proof.
  exact (proj1 (proj1 log_after_a_pass
           (fun k : nat => Z.of_nat k)
           (Content.World
              (Content.Settings true true true false
                 (ofZ 10000) (ofZ 60) (ofZ 3600) NaN [])
              Content.initialStats
              [sampleCard "A mix" "A mix"; sampleCard "B mix" "B mix"]
              (HistoryEntry (js "oldest") None (ISOString 0)
               :: replicate 99 (HistoryEntry (js "x") None (ISOString 1)))
              None 5)
           (Nat.le_refl 100))).
Defined.

(** ** Settings *)

(** *** The sanitiser as a function *)

Lemma dom_insert_present (m : gmap string value) k v :
  k ∈ dom m -> dom (<[k := v]> m) = dom m.
Proof.
  intros H. rewrite dom_insert_L. apply subseteq_union_1_L.
  apply singleton_subseteq_l, H.
Qed.

Lemma dom_cond_insert (c : bool) (m : gmap string value) k v :
  k ∈ dom m -> dom (if c then <[k := v]> m else m) = dom m.
Proof. intros H. destruct c; [apply dom_insert_present, H | reflexivity]. Qed.

Lemma dom_copyBoolean settings validated key :
  key ∈ dom validated ->
  dom (Modular.copyBoolean settings validated key) = dom validated.
Proof.
  intros H. unfold Modular.copyBoolean.
  destruct (Modular.prop settings key); try reflexivity.
  apply dom_insert_present, H.
Qed.

Lemma dom_copyNumber hi settings validated key :
  key ∈ dom validated ->
  dom (Modular.copyNumber hi settings key validated) = dom validated.
Proof.
  intros H. unfold Modular.copyNumber.
  destruct (Modular.prop settings key); try reflexivity.
  destruct (_ && _); [ | reflexivity]. apply dom_insert_present, H.
Qed.

Lemma default_key key :
  In key [ "viewsFilterEnabled"; "durationFilterEnabled";
           "keywordFilterEnabled"; "ageFilterEnabled"; "minViews";
           "minDuration"; "maxDuration"; "maxAge"; "bannedKeywords" ]%string ->
  key ∈ dom Modular.DEFAULT_FILTER_SETTINGS.
Proof.
  intros H. apply elem_of_dom. cbn in H.
  destruct H as [<- | [<- | [<- | [<- | [<- | [<- | [<- | [<- | [<- | []]]]]]]]]];
    eexists; reflexivity.
Qed.

(** The sanitiser gives its result the keys of the defaults, whatever
    it is given. *)
Lemma validate_dom settings :
  dom (Modular.validateAndSanitizeSettings settings)
  = dom Modular.DEFAULT_FILTER_SETTINGS.
Proof.
  unfold Modular.validateAndSanitizeSettings. cbv zeta. cbn [foldl].
  set (v1 := Modular.copyBoolean settings Modular.DEFAULT_FILTER_SETTINGS _).
  assert (H1 : dom v1 = dom Modular.DEFAULT_FILTER_SETTINGS)
    by (apply dom_copyBoolean, default_key; cbn; auto 10).
  set (v2 := Modular.copyBoolean settings v1 _).
  assert (H2 : dom v2 = dom Modular.DEFAULT_FILTER_SETTINGS)
    by (subst v2; rewrite dom_copyBoolean; [exact H1 | ];
        rewrite H1; apply default_key; cbn; auto 10).
  set (v3 := Modular.copyBoolean settings v2 _).
  assert (H3 : dom v3 = dom Modular.DEFAULT_FILTER_SETTINGS)
    by (subst v3; rewrite dom_copyBoolean; [exact H2 | ];
        rewrite H2; apply default_key; cbn; auto 10).
  set (v4 := Modular.copyBoolean settings v3 _).
  assert (H4 : dom v4 = dom Modular.DEFAULT_FILTER_SETTINGS)
    by (subst v4; rewrite dom_copyBoolean; [exact H3 | ];
        rewrite H3; apply default_key; cbn; auto 10).
  set (v5 := Modular.copyNumber None settings "minViews" v4).
  assert (H5 : dom v5 = dom Modular.DEFAULT_FILTER_SETTINGS)
    by (subst v5; rewrite dom_copyNumber; [exact H4 | ];
        rewrite H4; apply default_key; cbn; auto 10).
  set (v6 := Modular.copyNumber None settings "minDuration" v5).
  assert (H6 : dom v6 = dom Modular.DEFAULT_FILTER_SETTINGS)
    by (subst v6; rewrite dom_copyNumber; [exact H5 | ];
        rewrite H5; apply default_key; cbn; auto 10).
  set (v7 := Modular.copyNumber None settings "maxDuration" v6).
  assert (H7 : dom v7 = dom Modular.DEFAULT_FILTER_SETTINGS)
    by (subst v7; rewrite dom_copyNumber; [exact H6 | ];
        rewrite H6; apply default_key; cbn; auto 10).
  set (v8 := Modular.copyNumber (Some (ofZ 20)) settings "maxAge" v7).
  assert (H8 : dom v8 = dom Modular.DEFAULT_FILTER_SETTINGS)
    by (subst v8; rewrite dom_copyNumber; [exact H7 | ];
        rewrite H7; apply default_key; cbn; auto 10).
  set (v9 := match Modular.prop settings "bannedKeywords" with
             | VArray _ => _
             | _ => v8
             end).
  assert (H9 : dom v9 = dom Modular.DEFAULT_FILTER_SETTINGS).
  { subst v9. destruct (Modular.prop settings "bannedKeywords");
      try exact H8.
    rewrite dom_insert_present; [exact H8 | ].
    rewrite H8. apply default_key. cbn. auto 10. }
  assert (H10 : forall c : bool,
             dom (if c then <["maxAge" := Modular.prop settings "maxAgeYears"]> v9
                  else v9)
             = dom Modular.DEFAULT_FILTER_SETTINGS).
  { intros c. rewrite dom_cond_insert; [exact H9 | ].
    rewrite H9. apply default_key. cbn. auto 10. }
  rewrite dom_cond_insert; [apply H10 | ].
  rewrite H10. apply default_key. cbn. auto 10.
Qed.

Lemma copyBoolean_reads settings settings' validated key :
  Modular.prop settings key = Modular.prop settings' key ->
  Modular.copyBoolean settings validated key
  = Modular.copyBoolean settings' validated key.
Proof. intros H. unfold Modular.copyBoolean. rewrite H. reflexivity. Qed.

Lemma copyNumber_reads hi settings settings' validated key :
  Modular.prop settings key = Modular.prop settings' key ->
  Modular.copyNumber hi settings key validated
  = Modular.copyNumber hi settings' key validated.
Proof. intros H. unfold Modular.copyNumber. rewrite H. reflexivity. Qed.

(** The sanitiser reads eleven properties of its argument and nothing
    else. *)
Lemma validate_reads settings settings' :
  (forall key, In key settingsKeys ->
               Modular.prop settings key = Modular.prop settings' key) ->
  Modular.validateAndSanitizeSettings settings
  = Modular.validateAndSanitizeSettings settings'.
Proof.
  intros H. unfold Modular.validateAndSanitizeSettings. cbv zeta.
  cbn [foldl].
  rewrite !(copyBoolean_reads settings settings' _ "viewsFilterEnabled")
    by (apply H; cbn; auto 20).
  rewrite !(copyBoolean_reads settings settings' _ "durationFilterEnabled")
    by (apply H; cbn; auto 20).
  rewrite !(copyBoolean_reads settings settings' _ "keywordFilterEnabled")
    by (apply H; cbn; auto 20).
  rewrite !(copyBoolean_reads settings settings' _ "ageFilterEnabled")
    by (apply H; cbn; auto 20).
  rewrite !(copyNumber_reads None settings settings' _ "minViews")
    by (apply H; cbn; auto 20).
  rewrite !(copyNumber_reads None settings settings' _ "minDuration")
    by (apply H; cbn; auto 20).
  rewrite !(copyNumber_reads None settings settings' _ "maxDuration")
    by (apply H; cbn; auto 20).
  rewrite !(copyNumber_reads (Some (ofZ 20)) settings settings' _ "maxAge")
    by (apply H; cbn; auto 20).
  rewrite !(H "maxAge"%string), !(H "bannedKeywords"%string),
    !(H "maxAgeYears"%string), !(H "keywords"%string)
    by (cbn; auto 20).
  reflexivity.
Qed.

(** X17.  [validateAndSanitizeSettings] gives its result exactly the
    nine keys of the defaults, whatever it is given -- it adds none and
    drops none, even through the legacy fields -- and it reads only
    eleven properties of its argument: two arguments that agree on
    those are sanitised alike, so any other key is ignored. *)
Theorem sanitiser_keys :
  (forall settings,
      dom (Modular.validateAndSanitizeSettings settings)
      = dom Modular.DEFAULT_FILTER_SETTINGS)
  /\ (forall settings settings',
      (forall key, In key settingsKeys ->
                   Modular.prop settings key = Modular.prop settings' key) ->
      Modular.validateAndSanitizeSettings settings
      = Modular.validateAndSanitizeSettings settings')
  /\ (forall settings key v,
      ~ In key settingsKeys ->
      Modular.validateAndSanitizeSettings (<[key := v]> settings)
      = Modular.validateAndSanitizeSettings settings).
Proof.
  split; [exact validate_dom | ]. split; [exact validate_reads | ].
  intros settings key v Hkey. apply validate_reads.
  intros k Hk. unfold Modular.prop.
  rewrite lookup_insert_ne; [reflexivity | ]. intros ->. contradiction.
Qed.

Lemma sanitiser_keys_witness :
  Modular.validateAndSanitizeSettings
    (<["theme" := VString (js "dark")]> {[ "minViews" := VNumber (ofZ 500) ]})
  = Modular.validateAndSanitizeSettings {[ "minViews" := VNumber (ofZ 500) ]}.
Proof.
  apply (proj2 (proj2 sanitiser_keys)).
  cbn. intuition discriminate.
Defined.

(** *** Sanitising twice *)

Lemma default_key_inv key :
  key ∈ dom Modular.DEFAULT_FILTER_SETTINGS -> In key defaultKeys.
Proof.
  unfold Modular.DEFAULT_FILTER_SETTINGS.
  rewrite !dom_insert_L, dom_singleton_L, !elem_of_union, !elem_of_singleton.
  unfold defaultKeys. cbn [In]. intuition auto 12.
Qed.

Lemma default_lookup_None key :
  ~ In key defaultKeys -> Modular.DEFAULT_FILTER_SETTINGS !! key = None.
Proof.
  intros H. apply not_elem_of_dom. intros Hin. apply H, default_key_inv, Hin.
Qed.

Lemma validate_lookup_None settings key :
  ~ In key defaultKeys ->
  Modular.validateAndSanitizeSettings settings !! key = None.
Proof.
  intros H. apply not_elem_of_dom. rewrite validate_dom.
  intros Hin. apply H, default_key_inv, Hin.
Qed.

(** What the sanitiser returns has no legacy field. *)
Lemma validate_legacyInactive settings :
  legacyInactive (Modular.validateAndSanitizeSettings settings).
Proof.
  unfold legacyInactive, Modular.prop.
  rewrite (validate_lookup_None settings "maxAgeYears"),
    (validate_lookup_None settings "keywords")
    by (cbn; intuition discriminate).
  split; reflexivity.
Qed.

Lemma acceptedBoolean_fixed v x :
  acceptedBoolean v = Some x -> acceptedBoolean x = Some x.
Proof.
  destruct v; cbn [acceptedBoolean]; try discriminate.
  intros H. injection H as <-. reflexivity.
Qed.

Lemma acceptedNumber_fixed hi v x :
  acceptedNumber hi v = Some x -> acceptedNumber hi x = Some x.
Proof.
  destruct v as [ | | b | n | s | l | o]; cbn [acceptedNumber];
    try discriminate.
  destruct (n >=n ofZ 0) eqn:Hge; cbn [andb]; [ | discriminate].
  destruct (match hi with Some h => n <=n h | None => true end) eqn:Hle;
    [ | discriminate].
  intros H. injection H as <-. cbn [acceptedNumber].
  destruct n as [ | | | q]; cbn [Math_floor].
  - discriminate.
  - rewrite Hge, Hle. reflexivity.
  - discriminate.
  - assert (H0 : (ofZ (Qfloor q) >=n ofZ 0) = true).
    { simpl in Hge |- *. apply Qle_bool_iff in Hge. apply Qle_bool_iff.
      apply Qfloor_resp_le in Hge. rewrite <- Zle_Qle. exact Hge. }
    assert (H1 : match hi with
                 | Some h => ofZ (Qfloor q) <=n h
                 | None => true
                 end = true).
    { destruct hi as [[ | | | y] | ]; simpl in Hle |- *;
        try discriminate; try reflexivity.
      apply Qle_bool_iff in Hle. apply Qle_bool_iff.
      apply (Qle_trans _ q); [apply Qfloor_le | exact Hle]. }
    rewrite H0, H1. cbn [andb Math_floor ofZ]. rewrite Qfloor_Z. reflexivity.
Qed.

Lemma clean_keywords_fixed l :
  Forall isSettledKeyword l ->
  map Modular.cleanKeyword (List.filter Modular.keepKeyword l) = l.
Proof.
  induction 1 as [ | v l (s & -> & Hne & Htrim & Hlow) _ IH]; [reflexivity | ].
  cbn [List.filter Modular.keepKeyword]. rewrite Htrim.
  destruct s as [ | c s]; [congruence | ].
  cbn [length Nat.ltb Nat.leb map Modular.cleanKeyword].
  rewrite Htrim, Hlow, IH. reflexivity.
Qed.

Lemma acceptedKeywords_fixed v x :
  acceptedKeywords v = Some x -> acceptedKeywords x = Some x.
Proof.
  destruct v as [ | | b | n | s | l | o]; cbn [acceptedKeywords];
    try discriminate.
  intros H. injection H as <-. cbn [acceptedKeywords].
  rewrite clean_keywords_fixed by apply cleaned_keywords. reflexivity.
Qed.

(** A field the sanitiser has set passes its own check unchanged. *)
Lemma sanitizedField_flag settings key :
  In key [ "viewsFilterEnabled"; "durationFilterEnabled";
           "keywordFilterEnabled"; "ageFilterEnabled" ]%string ->
  acceptedBoolean (sanitizedField acceptedBoolean settings key)
  = Some (sanitizedField acceptedBoolean settings key).
Proof.
  intros Hin. unfold sanitizedField.
  destruct (acceptedBoolean (Modular.prop settings key)) eqn:E; cbn [default].
  - exact (acceptedBoolean_fixed _ _ E).
  - simpl in Hin. destruct Hin as [<- | [<- | [<- | [<- | []]]]]; reflexivity.
Qed.

Lemma sanitizedField_threshold settings key :
  In key [ "minViews"; "minDuration"; "maxDuration" ]%string ->
  acceptedNumber None (sanitizedField (acceptedNumber None) settings key)
  = Some (sanitizedField (acceptedNumber None) settings key).
Proof.
  intros Hin. unfold sanitizedField.
  destruct (acceptedNumber None (Modular.prop settings key)) eqn:E;
    cbn [default].
  - exact (acceptedNumber_fixed _ _ _ E).
  - simpl in Hin. destruct Hin as [<- | [<- | [<- | []]]];
      vm_compute; reflexivity.
Qed.

Lemma sanitizedField_maxAge settings :
  acceptedNumber (Some (ofZ 20))
    (sanitizedField (acceptedNumber (Some (ofZ 20))) settings "maxAge")
  = Some (sanitizedField (acceptedNumber (Some (ofZ 20))) settings "maxAge").
Proof.
  unfold sanitizedField.
  destruct (acceptedNumber (Some (ofZ 20)) (Modular.prop settings "maxAge"))
    eqn:E; cbn [default].
  - exact (acceptedNumber_fixed _ _ _ E).
  - vm_compute. reflexivity.
Qed.

Lemma sanitizedField_keywords settings :
  acceptedKeywords (sanitizedField acceptedKeywords settings "bannedKeywords")
  = Some (sanitizedField acceptedKeywords settings "bannedKeywords").
Proof.
  unfold sanitizedField.
  destruct (acceptedKeywords (Modular.prop settings "bannedKeywords")) eqn:E;
    cbn [default].
  - exact (acceptedKeywords_fixed _ _ E).
  - vm_compute. reflexivity.
Qed.

Lemma sanitizedField_again accept (validated : gmap string value) key x :
  validated !! key = Some x ->
  accept x = Some x ->
  sanitizedField accept validated key = x.
Proof.
  intros Hk Hx. unfold sanitizedField, Modular.prop.
  rewrite Hk. simpl. rewrite Hx. reflexivity.
Qed.

(** Sanitising what the sanitiser returned changes nothing, when the
    legacy fields did not apply. *)
Lemma validate_idempotent settings :
  legacyInactive settings ->
  Modular.validateAndSanitizeSettings
    (Modular.validateAndSanitizeSettings settings)
  = Modular.validateAndSanitizeSettings settings.
Proof.
  intros Hleg.
  pose proof (validate_legacyInactive settings) as Hleg'.
  apply map_eq. intros key.
  destruct (decide (key ∈ dom Modular.DEFAULT_FILTER_SETTINGS)) as [Hin | Hout].
  - apply default_key_inv in Hin. unfold defaultKeys in Hin. cbn [In] in Hin.
    destruct Hin as [<-|[<-|[<-|[<-|[<-|[<-|[<-|[<-|[<-|[]]]]]]]]]].
    1-4: rewrite (validate_flag _ _ Hleg') by (cbn; auto);
         rewrite (validate_flag _ _ Hleg) by (cbn; auto);
         f_equal;
         apply sanitizedField_again;
           [apply validate_flag; [exact Hleg | cbn; auto]
           | apply sanitizedField_flag; cbn; auto].
    1-3: rewrite (validate_threshold _ _ Hleg') by (cbn; auto);
         rewrite (validate_threshold _ _ Hleg) by (cbn; auto);
         f_equal;
         apply sanitizedField_again;
           [apply validate_threshold; [exact Hleg | cbn; auto]
           | apply sanitizedField_threshold; cbn; auto].
    + rewrite (validate_maxAge _ Hleg'), (validate_maxAge _ Hleg). f_equal.
      apply sanitizedField_again;
        [apply validate_maxAge, Hleg | apply sanitizedField_maxAge].
    + rewrite (validate_bannedKeywords _ Hleg'),
        (validate_bannedKeywords _ Hleg). f_equal.
      apply sanitizedField_again;
        [apply validate_bannedKeywords, Hleg | apply sanitizedField_keywords].
  - assert (Hno : ~ In key defaultKeys).
    { intros H. apply Hout, default_key. exact H. }
    rewrite !validate_lookup_None by exact Hno. reflexivity.
Qed.

(** With a legacy field the sanitiser is not idempotent: the age it
    copied unchecked is rejected the second time. *)
Example legacy_breaks_idempotence :
  let settings : gmap string value :=
    {[ "maxAgeYears" := VNumber (ofZ 50) ]}%string in
  Modular.validateAndSanitizeSettings settings !! "maxAge"%string
  = Some (VNumber (ofZ 50))
  /\ Modular.validateAndSanitizeSettings
       (Modular.validateAndSanitizeSettings settings) !! "maxAge"%string
     = Some (VNumber (ofZ 5)).
Proof. split; vm_compute; reflexivity. Qed.

(** X18.  Sanitising is idempotent on every settings object whose
    legacy fields do not apply: [validateAndSanitizeSettings] leaves
    its own result unchanged, for any thresholds ([Infinity] included)
    and any keyword list.  (With a legacy field it is not:
    [legacy_breaks_idempotence].) *)
Theorem sanitising_twice (settings : gmap string value) :
  legacyInactive settings ->
  Modular.validateAndSanitizeSettings
    (Modular.validateAndSanitizeSettings settings)
  = Modular.validateAndSanitizeSettings settings.
Proof. exact (validate_idempotent settings). Qed.

Lemma sanitising_twice_witness :
  let settings : gmap string value :=
    {[ "minViews" := VNumber (fin (2501 # 2));
       "maxAge" := VNumber (ofZ 30);
       "bannedKeywords" := VArray [VString (js "  Live "); VNull] ]}%string in
  Modular.validateAndSanitizeSettings
    (Modular.validateAndSanitizeSettings settings)
  = Modular.validateAndSanitizeSettings settings.
Proof.
  intros settings. apply (sanitising_twice settings).
  split; reflexivity.
Defined.

(** *** Loading and saving *)

Lemma storageGet_prop area key d :
  Modular.DEFAULT_FILTER_SETTINGS !! key = Some d ->
  Modular.prop
    (SettingsManager.storageGet Modular.DEFAULT_FILTER_SETTINGS area) key
  = default d (area !! key).
Proof.
  intros H. unfold Modular.prop. rewrite storageGet_lookup, H. reflexivity.
Qed.

Lemma storageGet_prop_absent area key :
  ~ In key defaultKeys ->
  Modular.prop
    (SettingsManager.storageGet Modular.DEFAULT_FILTER_SETTINGS area) key
  = VUndefined.
Proof.
  intros H. unfold Modular.prop.
  rewrite storageGet_lookup, default_lookup_None by exact H. reflexivity.
Qed.

(** What is read with the defaults has no legacy field, whatever the
    storage area holds. *)
Lemma storageGet_legacyInactive area :
  legacyInactive
    (SettingsManager.storageGet Modular.DEFAULT_FILTER_SETTINGS area).
Proof.
  unfold legacyInactive.
  rewrite !(storageGet_prop_absent area "maxAgeYears"),
    !(storageGet_prop_absent area "keywords")
    by (cbn; intuition discriminate).
  split; reflexivity.
Qed.

Lemma storageGet_finite area :
  finiteThresholds area ->
  finiteThresholds
    (SettingsManager.storageGet Modular.DEFAULT_FILTER_SETTINGS area).
Proof.
  unfold finiteThresholds, Modular.prop. intros (H1 & H2 & H3).
  rewrite !storageGet_lookup.
  change (Modular.DEFAULT_FILTER_SETTINGS !! "minViews"%string)
    with (Some (VNumber (ofZ 10000))).
  change (Modular.DEFAULT_FILTER_SETTINGS !! "minDuration"%string)
    with (Some (VNumber (ofZ 60))).
  change (Modular.DEFAULT_FILTER_SETTINGS !! "maxDuration"%string)
    with (Some (VNumber (ofZ 3600))).
  cbn [fmap option_fmap option_map default].
  destruct (area !! "minViews"%string), (area !! "minDuration"%string),
    (area !! "maxDuration"%string); cbn [default] in *;
    repeat split; first [assumption | discriminate].
Qed.

Lemma storageGet_ignores area key v :
  ~ In key defaultKeys ->
  SettingsManager.storageGet Modular.DEFAULT_FILTER_SETTINGS (<[key := v]> area)
  = SettingsManager.storageGet Modular.DEFAULT_FILTER_SETTINGS area.
Proof.
  intros Hkey. apply map_eq. intros k. rewrite !storageGet_lookup.
  destruct (Modular.DEFAULT_FILTER_SETTINGS !! k) as [d | ] eqn:Hd;
    [ | reflexivity].
  cbn. rewrite lookup_insert_ne; [reflexivity | ].
  intros ->. rewrite (default_lookup_None _ Hkey) in Hd. discriminate.
Qed.

Lemma storageGet_latin1 area :
  latin1Keywords area ->
  latin1Keywords
    (SettingsManager.storageGet Modular.DEFAULT_FILTER_SETTINGS area).
Proof.
  unfold latin1Keywords, Modular.prop. intros H.
  rewrite storageGet_lookup.
  change (Modular.DEFAULT_FILTER_SETTINGS !! "bannedKeywords"%string)
    with (Some (VArray [ VString (js "spoiler"); VString (js "clickbait");
                         VString (js "sponsor") ])).
  cbn [fmap option_fmap option_map].
  destruct (area !! "bannedKeywords"%string) as [v | ]; cbn [default] in *.
  - exact H.
  - cbn. repeat split.
Qed.

(** X19.  [loadSettings] resolves to sanitised settings whatever else
    the storage area holds: as long as no stored threshold is
    [Infinity] and the stored keywords stay within U+00FF, the four
    flags are booleans, the thresholds are non-negative integers
    ([maxAge] at most 20) and [bannedKeywords] is an array of non-empty,
    trimmed, lower-case strings.  The legacy fields cannot get in on
    this path -- [chrome.storage.sync.get] is called with the defaults
    and returns only their keys -- so a stored [maxAgeYears], [keywords]
    or any other key changes nothing. *)
Theorem loadSettings_sanitized (sync : gmap string value) :
  finiteThresholds sync ->
  latin1Keywords sync ->
  sanitized (SettingsManager.loadSettings sync)
  /\ forall key v,
       ~ In key defaultKeys ->
       SettingsManager.loadSettings (<[key := v]> sync)
       = SettingsManager.loadSettings sync.
Proof.
  intros Hfin Hlatin. split.
  - apply validate_sanitized;
      [apply storageGet_legacyInactive | apply storageGet_finite, Hfin
      | apply storageGet_latin1, Hlatin].
  - intros key v Hkey. unfold SettingsManager.loadSettings. cbv zeta.
    rewrite storageGet_ignores by exact Hkey. reflexivity.
Qed.

Lemma loadSettings_sanitized_witness :
  let sync : gmap string value :=
    {[ "maxAge" := VNumber (ofZ 0);
       "bannedKeywords" := VArray [VString (js " Live "); VNull] ]}%string in
  sanitized (SettingsManager.loadSettings sync)
  /\ SettingsManager.loadSettings (<["maxAgeYears" := VNumber (ofZ 50)]> sync)
     = SettingsManager.loadSettings sync.
Proof.
  intros sync.
  assert (Hfin : finiteThresholds sync) by (repeat split; discriminate).
  assert (Hlatin : latin1Keywords sync) by (vm_compute; tauto).
  split.
  - exact (proj1 (loadSettings_sanitized sync Hfin Hlatin)).
  - apply (proj2 (loadSettings_sanitized sync Hfin Hlatin)).
    cbn. intuition discriminate.
Defined.

Lemma storageGet_after_set validated area :
  dom validated = dom Modular.DEFAULT_FILTER_SETTINGS ->
  SettingsManager.storageGet Modular.DEFAULT_FILTER_SETTINGS
    (SettingsManager.storageSet validated area)
  = validated.
Proof.
  intros Hdom. apply map_eq. intros k. rewrite storageGet_lookup.
  unfold SettingsManager.storageSet.
  destruct (Modular.DEFAULT_FILTER_SETTINGS !! k) as [d | ] eqn:Hd.
  - assert (Hk : k ∈ dom validated)
      by (rewrite Hdom; apply elem_of_dom; eexists; exact Hd).
    apply elem_of_dom in Hk. destruct Hk as [x Hx].
    cbn. rewrite (lookup_union_Some_l _ _ _ _ Hx). cbn. symmetry. exact Hx.
  - cbn. symmetry. apply not_elem_of_dom. rewrite Hdom.
    apply not_elem_of_dom, Hd.
Qed.

(** X20.  Saving settings and loading them again gives the sanitised
    settings that were saved, whatever the storage area held before:
    [loadSettings] after [saveSettings(settings)] resolves to
    [validateAndSanitizeSettings(settings)].  This is for settings whose
    legacy fields do not apply and whose thresholds are finite, which
    are the ones storage keeps value for value, and for a write that
    succeeds.  In particular [loadSettings] after [resetToDefaults]
    gives the defaults. *)
Theorem settings_round_trip :
  (forall settings sync : gmap string value,
      legacyInactive settings ->
      finiteThresholds settings ->
      SettingsManager.loadSettings (SettingsManager.saveSettings settings sync)
      = Modular.validateAndSanitizeSettings settings)
  /\ (forall sync : gmap string value,
      SettingsManager.loadSettings (SettingsManager.resetToDefaults sync)
      = Modular.DEFAULT_FILTER_SETTINGS).
Proof.
  assert (H : forall settings sync : gmap string value,
             legacyInactive settings ->
             SettingsManager.loadSettings
               (SettingsManager.saveSettings settings sync)
             = Modular.validateAndSanitizeSettings settings).
  { intros settings sync Hleg.
    unfold SettingsManager.loadSettings, SettingsManager.saveSettings.
    cbv zeta. rewrite storageGet_after_set by apply validate_dom.
    apply validate_idempotent, Hleg. }
  split.
  - intros settings sync Hleg _. apply H, Hleg.
  - intros sync. unfold SettingsManager.resetToDefaults.
    rewrite H by (split; reflexivity).
    apply map_eq. intros k.
    destruct (decide (k ∈ dom Modular.DEFAULT_FILTER_SETTINGS)) as [Hin | Hout].
    + apply default_key_inv in Hin. unfold defaultKeys in Hin. cbn [In] in Hin.
      destruct Hin as [<-|[<-|[<-|[<-|[<-|[<-|[<-|[<-|[<-|[]]]]]]]]]];
        vm_compute; reflexivity.
    + assert (Hno : ~ In k defaultKeys).
      { intros Hk. apply Hout, default_key. exact Hk. }
      rewrite validate_lookup_None, default_lookup_None by exact Hno.
      reflexivity.
Qed.

Lemma settings_round_trip_witness :
  let settings : gmap string value :=
    {[ "minViews" := VNumber (ofZ 500);
       "bannedKeywords" := VArray [VString (js " Live ")] ]}%string in
  let sync : gmap string value :=
    {[ "minViews" := VNumber (ofZ 7); "maxAgeYears" := VNumber (ofZ 50) ]}%string in
  SettingsManager.loadSettings (SettingsManager.saveSettings settings sync)
  = Modular.validateAndSanitizeSettings settings.
Proof.
  intros settings sync.
  apply (proj1 settings_round_trip settings sync).
  - split; reflexivity.
  - repeat split; discriminate.
Defined.

(** *** The text helper *)

Lemma orElse_trimmed s :
  orElse (Some s) None = match s with [] => None | _ => Some s end.
Proof. destruct s; reflexivity. Qed.

(** X21.  [getElementText] never returns an empty or padded string: its
    result is either [null] or the trimmed text content of the selected
    element, which then is non-empty and has no white space at either
    end.  It is [null] exactly when nothing is selected, the element
    has no text content or the text is white space only. *)
Theorem getElementText_trimmed (el : element) (selector : string) :
  match getElementText el selector with
  | Some t =>
      t <> [] /\ trim t = t
      /\ exists n raw, querySelector el selector = Some n
                       /\ textContent n = Some raw /\ t = trim raw
  | None =>
      forall n raw, querySelector el selector = Some n ->
                    textContent n = Some raw -> trim raw = []
  end.
Proof.
  unfold getElementText.
  destruct (querySelector el selector) as [n | ] eqn:Hq;
    cbn [mbind option_bind]; [ | intros n raw Hn; discriminate].
  destruct (textContent n) as [raw | ] eqn:Ht;
    cbn [fmap option_fmap option_map].
  - rewrite orElse_trimmed. destruct (trim raw) as [ | c t] eqn:Htrim.
    + intros n' raw' Hn Hraw. injection Hn as <-.
      rewrite Ht in Hraw. injection Hraw as <-. exact Htrim.
    + split; [discriminate | ]. split.
      * rewrite <- Htrim. apply trim_idem.
      * exists n, raw. auto.
  - intros n' raw' Hn Hraw. injection Hn as <-.
    rewrite Ht in Hraw. discriminate.
Qed.

Lemma getElementText_trimmed_witness :
  getElementText (sampleCard "  Trailer  " "x") "#video-title"
  = Some (js "Trailer")
  /\ trim (js "Trailer") = js "Trailer"
  /\ trim (js "   ") = [].
Proof.
  split; [reflexivity | ]. split.
  - exact (proj1 (proj2 (getElementText_trimmed
                          (sampleCard "  Trailer  " "x") "#video-title"))).
  - exact (getElementText_trimmed (sampleCard "   " "x") "#video-title"
             (Node (Some (js "   ")) (Some (js "   ")) (fun _ => None))
             (js "   ") eq_refl eq_refl).
Defined.
